(** * Pro Task Tracker: a shallow embedding of [app.py]

    The script is a Streamlit page talking to a Supabase project: three
    tables ([tasks], [logs], [docs]) and one storage bucket.  The remote
    project is modelled as an explicit [Store] value that every handler
    of the page takes and returns; widgets are modelled by the value they
    hand back to the script, given what the user did with them.  Calls to
    the project succeed: the branches of [fail_if_error] are not part of
    the model.  The [log_date] column carries a date; the script writes
    it as [str(date)] and reads it back with [date.fromisoformat]. *)

From Stdlib Require Import ZArith List String Ascii Lia Bool.
From stdpp Require Import base decidable option list sorting gmap sets strings pretty.

Local Open Scope string_scope.
Local Open Scope list_scope.
Local Open Scope Z_scope.

(** ** The Python side *)

(** A [datetime.date] is carried by its proleptic Gregorian ordinal
    ([date.toordinal()]); subtraction of two dates is the difference of
    their ordinals ([timedelta.days]) and the order on dates is the order
    on ordinals. *)
Definition date := Z.

(** [bytes] *)
Definition bytes := list Byte.byte.

(** A [str] is a sequence of Unicode code points; it is carried by its
    UTF-8 encoding, the bytes the browser sends and the database
    stores.  [utf8 p] is the encoding of the code point [p]. *)
Definition byte_of (n : Z) : ascii := ascii_of_nat (Z.to_nat n).

Definition utf8 (p : Z) : string :=
  if p <? 128 then String (byte_of p) ""
  else if p <? 2048 then
    String (byte_of (192 + p / 64)) (String (byte_of (128 + p mod 64)) "")
  else if p <? 65536 then
    String (byte_of (224 + p / 4096))
      (String (byte_of (128 + p / 64 mod 64)) (String (byte_of (128 + p mod 64)) ""))
  else
    String (byte_of (240 + p / 262144))
      (String (byte_of (128 + p / 4096 mod 64))
         (String (byte_of (128 + p / 64 mod 64)) (String (byte_of (128 + p mod 64)) ""))).

(** A continuation byte, [10xxxxxx]: every other byte starts a
    character. *)
Definition is_cont (b : ascii) : bool :=
  let n := Z.of_nat (nat_of_ascii b) in (128 <=? n) && (n <? 192).

(** The string starts with a continuation byte. *)
Definition continues (s : string) : bool :=
  match s with
  | String b _ => is_cont b
  | EmptyString => false
  end.

(** The characters of a [str], each with its bytes.  In UTF-8 a
    character is a leading byte and the continuation bytes that follow
    it, so a character starts at every byte that is not a continuation
    byte. *)
Fixpoint chars (s : string) : list string :=
  match s with
  | EmptyString => []
  | String b s' =>
      match chars s' with
      | c :: cs => if continues c then String b c :: cs else String b "" :: c :: cs
      | [] => [String b ""]
      end
  end.

(** [''.join(cs)] *)
Definition str_join (cs : list string) : string := foldr String.append "" cs.

(** The code points [c] with [c.isspace()]: those of general category Zs
    or of bidirectional class WS, B or S. *)
Definition whitespace : list Z :=
  [9; 10; 11; 12; 13; 28; 29; 30; 31; 32; 133; 160; 5760;
   8192; 8193; 8194; 8195; 8196; 8197; 8198; 8199; 8200; 8201; 8202;
   8232; 8233; 8239; 8287; 12288].

(** [c.isspace()] for a character [c]. *)
Definition isspace (c : string) : bool := bool_decide (c ∈ utf8 <$> whitespace).

(** [str.lstrip()], on the characters. *)
Fixpoint lstrip (cs : list string) : list string :=
  match cs with
  | c :: cs' => if isspace c then lstrip cs' else cs
  | [] => []
  end.

(** [str.strip()]: white-space characters are dropped at both ends. *)
Definition strip_chars (cs : list string) : list string :=
  reverse (lstrip (reverse (lstrip cs))).

Definition strip (s : string) : string := str_join (strip_chars (chars s)).

(** [str(n)] for an [int]. *)
Definition str_int (n : Z) : string := pretty n.

(** Calendar fields of an ordinal (the inverse of [toordinal]), by the
    400/100/4/1-year cycle decomposition. *)
Definition is_leap (y : Z) : bool :=
  (y mod 4 =? 0) && (negb (y mod 100 =? 0) || (y mod 400 =? 0)).

Definition days_in_month (y m : Z) : Z :=
  if m =? 2 then (if is_leap y then 29 else 28)
  else if (m =? 4) || (m =? 6) || (m =? 9) || (m =? 11) then 30 else 31.

Fixpoint month_day (fuel : nat) (y m d : Z) : Z * Z :=
  match fuel with
  | O => (m, d + 1)
  | S k =>
      let dim := days_in_month y m in
      if d <? dim then (m, d + 1) else month_day k y (m + 1) (d - dim)
  end.

Definition ord2ymd (n : date) : Z * Z * Z :=
  let n0 := n - 1 in
  let n400 := n0 / 146097 in
  let r400 := n0 mod 146097 in
  let n100 := r400 / 36524 in
  let r100 := r400 mod 36524 in
  let n4 := r100 / 1461 in
  let r4 := r100 mod 1461 in
  let n1 := r4 / 365 in
  let r1 := r4 mod 365 in
  let y := n400 * 400 + n100 * 100 + n4 * 4 + n1 + 1 in
  if (n1 =? 4) || (n100 =? 4) then (y - 1, 12, 31)
  else let '(m, d) := month_day 12 y 1 r1 in (y, m, d).

Definition zero_pad (width : nat) (s : string) : string :=
  String.app (string_of_list_ascii (repeat "0"%char (width - String.length s))) s.

(** [str(d)] for a [date]: ISO 8601, [YYYY-MM-DD]. *)
Definition isoformat (d : date) : string :=
  let '(y, m, dd) := ord2ymd d in
  zero_pad 4 (str_int y) +:+ "-" +:+ zero_pad 2 (str_int m) +:+ "-"
  +:+ zero_pad 2 (str_int dd).

(** [date.min.toordinal()] and [date.max.toordinal()]: 0001-01-01 and
    9999-12-31. *)
Definition valid_date (d : date) : Prop := 1 ≤ d ≤ 3652059.

(** The days before 1 January of the year [y], and before the first of
    the month [m] within the year. *)
Definition days_before_year (y : Z) : Z :=
  let y1 := y - 1 in y1 * 365 + y1 / 4 - y1 / 100 + y1 / 400.

Fixpoint days_before_month (fuel : nat) (y m : Z) : Z :=
  match fuel with
  | O => 0
  | S k => if m <=? 1 then 0 else days_in_month y (m - 1) + days_before_month k y (m - 1)
  end.

(** [date(y, m, d).toordinal()] *)
Definition ymd2ord (y m d : Z) : date :=
  days_before_year y + days_before_month 12 y m + d.

(** The value of a decimal digit. *)
Definition digit_val (c : ascii) : option Z :=
  let n := Z.of_nat (nat_of_ascii c) in
  if (48 <=? n) && (n <=? 57) then Some (n - 48) else None.

(** The number written by a string of decimal digits, after [acc]. *)
Fixpoint parse_digits (acc : Z) (s : string) : option Z :=
  match s with
  | EmptyString => Some acc
  | String c s' => v ← digit_val c; parse_digits (10 * acc + v) s'
  end.

(** [date.fromisoformat] on the form [YYYY-MM-DD], the one [str(d)]
    writes and a [date] column is returned in: four digits, two digits
    and two digits around two hyphens, which must name a day of the
    calendar; [None] is [ValueError].  Later versions of Python read
    further ISO 8601 forms too (such as [20240103]); the page never
    meets them, and they are not told apart from malformed input here. *)
Definition fromisoformat (s : string) : option date :=
  if decide (String.length s = 10%nat ∧ String.get 4 s = Some "-"%char
             ∧ String.get 7 s = Some "-"%char) then
    y ← parse_digits 0 (String.substring 0 4 s);
    m ← parse_digits 0 (String.substring 5 2 s);
    d ← parse_digits 0 (String.substring 8 2 s);
    if (1 <=? y) && (1 <=? m) && (m <=? 12) && (1 <=? d) && (d <=? days_in_month y m)
    then Some (ymd2ord y m d) else None
  else None.

(** [rrule.rrule(rrule.DAILY, dtstart=s, until=e)]: the occurrences start
    at [s], advance one day at a time and stop after the last one that is
    not later than [e]. *)
Fixpoint days_from (n : nat) (d : date) : list date :=
  match n with
  | O => []
  | S k => d :: days_from k (d + 1)
  end.

Definition rrule_daily (dtstart until : date) : list date :=
  days_from (Z.to_nat (until - dtstart + 1)) dtstart.

(** The integer nearest to the quotient of [s] by [n > 0], the even one of
    the two when the quotient lies half way. *)
Definition round_div (s n : Z) : Z :=
  let q := s / n in
  let r := s mod n in
  if 2 * r <? n then q
  else if n <? 2 * r then q + 1
  else if Z.even q then q else q + 1.

(** A finite [float]: the integer [mant] over [2 ^ shift] (times
    [2 ^ (- shift)] when [shift] is negative). *)
Record double := mkDouble { mant : Z; shift : Z }.

(** [s / n] for two [int]s with [n > 0]: the double nearest to the
    quotient, ties to the even mantissa; the mantissa of a result other
    than zero has 53 bits.  Quotients beyond the exponent range of a
    double are not met by the page. *)
Definition true_div (s n : Z) : double :=
  if s =? 0 then mkDouble 0 0
  else
    let k0 := 52 + Z.log2 n - Z.log2 (Z.abs s) in
    let below :=
      if 0 <=? k0 then Z.abs s * 2 ^ k0 <? 2 ^ 52 * n
      else Z.abs s <? 2 ^ 52 * n * 2 ^ (- k0) in
    let k := if below then k0 + 1 else k0 in
    mkDouble (if 0 <=? k then round_div (s * 2 ^ k) n else round_div s (n * 2 ^ (- k))) k.

(** [round(x)] for a [float]: the nearest integer, ties to the even one. *)
Definition py_round (x : double) : Z :=
  if 0 <=? shift x then round_div (mant x) (2 ^ shift x)
  else mant x * 2 ^ (- shift x).

(** [sum(xs)] *)
Definition sum (xs : list Z) : Z := foldr Z.add 0 xs.

(** ** The Supabase project: tables and bucket *)

(** A row of [tasks(id, task_name, start_date, end_date, updated_at)]. *)
Record Task := mkTask {
  t_id : Z;
  task_name : string;
  start_date : date;
  end_date : date;
  updated_at : Z
}.

(** A row of [logs(id, task_id, log_date, progress, percent)]. *)
Record Log := mkLog {
  l_id : Z;
  task_id : Z;
  log_date : date;
  progress : string;
  percent : Z
}.

(** A row of [docs(id, log_id, filename, path, uploaded_at)]. *)
Record Doc := mkDoc {
  d_id : Z;
  log_id : Z;
  filename : string;
  path : string;
  uploaded_at : Z
}.

(** An object of the storage bucket. *)
Record Blob := mkBlob {
  data : bytes;
  content_type : string
}.

#[export] Instance Task_eq_dec : EqDecision Task.
Proof. solve_decision. Defined.

#[export] Instance Log_eq_dec : EqDecision Log.
Proof. solve_decision. Defined.

#[export] Instance Doc_eq_dec : EqDecision Doc.
Proof. solve_decision. Defined.

(** The state of the remote project: the three tables in insertion order,
    the bucket keyed by object path, and the sequences behind the [id]
    columns. *)
Record Store := mkStore {
  tasks : list Task;
  logs : list Log;
  docs : list Doc;
  bucket : gmap string Blob;
  tasks_seq : Z;
  logs_seq : Z;
  docs_seq : Z
}.

Definition empty_store : Store := mkStore [] [] [] ∅ 1 1 1.

Definition set_tasks (f : list Task → list Task) (st : Store) : Store :=
  mkStore (f (tasks st)) (logs st) (docs st) (bucket st)
          (tasks_seq st) (logs_seq st) (docs_seq st).

Definition set_logs (f : list Log → list Log) (st : Store) : Store :=
  mkStore (tasks st) (f (logs st)) (docs st) (bucket st)
          (tasks_seq st) (logs_seq st) (docs_seq st).

Definition set_docs (f : list Doc → list Doc) (st : Store) : Store :=
  mkStore (tasks st) (logs st) (f (docs st)) (bucket st)
          (tasks_seq st) (logs_seq st) (docs_seq st).

Definition set_bucket (f : gmap string Blob → gmap string Blob) (st : Store) : Store :=
  mkStore (tasks st) (logs st) (docs st) (f (bucket st))
          (tasks_seq st) (logs_seq st) (docs_seq st).

(** *** Table operations of the client: [.update().eq()], [.delete().eq()],
    [.select().eq()], [.upsert(on_conflict=...)], [.single()], [.order()] *)
Section Table.
Context {A : Type}.
Context (P : A → Prop) `{!∀ r, Decision (P r)}.

Definition update_where (f : A → A) (tbl : list A) : list A :=
  (λ r, if decide (P r) then f r else r) <$> tbl.

Definition delete_where (tbl : list A) : list A :=
  filter (λ r, ¬ P r) tbl.

Definition select_where (tbl : list A) : list A :=
  filter P tbl.

(** [INSERT ... ON CONFLICT (key) DO UPDATE SET] the columns of the
    payload: the row that holds the key is rewritten by [f], a new row
    is appended when no row holds it. *)
Definition upsert (f : A → A) (fresh : A) (tbl : list A) : list A :=
  if decide (Exists P tbl) then update_where f tbl else tbl ++ [fresh].
End Table.

(** [.single()]: the one row of the result, an error for none or several. *)
Definition single {A} (rows : list A) : option A :=
  match rows with
  | [r] => Some r
  | _ => None
  end.

(** [.order(col)]: ascending on an integer key, rows with equal keys in
    table order. *)
Fixpoint insert_by {A} (key : A → Z) (x : A) (l : list A) : list A :=
  match l with
  | [] => [x]
  | y :: l' => if key x <=? key y then x :: l else y :: insert_by key x l'
  end.

Definition order_by {A} (key : A → Z) (l : list A) : list A :=
  foldr (insert_by key) [] l.

(** [.order(col, desc=True)] *)
Definition order_by_desc {A} (key : A → Z) (l : list A) : list A :=
  order_by (λ r, - key r) l.

(** Modelled from the spec: the column defaults of [logs], whose schema is
    not part of the script ("free-text progress notes (default empty),
    completion percent (integer 0-100, default 0)"). *)
Definition progress_default : string := "".
Definition percent_default : Z := 0.

(** The JSON object handed to [table("logs").upsert]: the natural key and
    the columns that are present. *)
Record LogPayload := mkLogPayload {
  p_task_id : Z;
  p_log_date : date;
  p_progress : option string;
  p_percent : option Z
}.

Definition log_key (tid : Z) (d : date) (r : Log) : Prop :=
  task_id r = tid ∧ log_date r = d.

#[export] Instance log_key_dec tid d r : Decision (log_key tid d r).
Proof. unfold log_key. apply _. Defined.

Definition log_set (p : LogPayload) (r : Log) : Log :=
  mkLog (l_id r) (p_task_id p) (p_log_date p)
        (default (progress r) (p_progress p))
        (default (percent r) (p_percent p)).

Definition log_new (p : LogPayload) (lid : Z) : Log :=
  mkLog lid (p_task_id p) (p_log_date p)
        (default progress_default (p_progress p))
        (default percent_default (p_percent p)).

(** [supabase.table("logs").upsert(p, on_conflict="task_id,log_date")] *)
Definition logs_upsert (p : LogPayload) (st : Store) : Store :=
  mkStore (tasks st)
          (upsert (log_key (p_task_id p) (p_log_date p)) (log_set p)
                  (log_new p (logs_seq st)) (logs st))
          (docs st) (bucket st) (tasks_seq st) (logs_seq st + 1) (docs_seq st).

Definition doc_key (lid : Z) (key : string) (r : Doc) : Prop :=
  log_id r = lid ∧ path r = key.

#[export] Instance doc_key_dec lid key r : Decision (doc_key lid key r).
Proof. unfold doc_key. apply _. Defined.

(** [supabase.table("docs").upsert({"log_id", "filename", "path"},
    on_conflict="log_id,path")]; [uploaded_at] is not in the payload, so
    it is the insertion time of the row. *)
Definition docs_upsert (lid : Z) (fname key : string) (now : Z) (st : Store) : Store :=
  mkStore (tasks st) (logs st)
          (upsert (doc_key lid key)
                  (λ r, mkDoc (d_id r) lid fname key (uploaded_at r))
                  (mkDoc (docs_seq st) lid fname key now) (docs st))
          (bucket st) (tasks_seq st) (logs_seq st) (docs_seq st + 1).

(** ** The page *)

(** *** Create Task (sidebar form) *)

Inductive create_result :=
| NameRequired
| DeadlineBeforeStart
| Created (tid : Z).

(** [supabase.table("tasks").insert({...})]; the new row is returned. *)
Definition tasks_insert (name : string) (s e : date) (now : Z) (st : Store) : Task * Store :=
  let t := mkTask (tasks_seq st) name s e now in
  (t, mkStore (tasks st ++ [t]) (logs st) (docs st) (bucket st)
              (tasks_seq st + 1) (logs_seq st) (docs_seq st)).

(** The payload of the daily-rows loop. *)
Definition daily_row (tid : Z) (dt : date) : LogPayload :=
  mkLogPayload tid dt (Some "") (Some 0).

Definition create_daily_rows (tid : Z) (sdate edate : date) (st : Store) : Store :=
  foldl (λ s dt, logs_upsert (daily_row tid dt) s) st (rrule_daily sdate edate).

Definition create_task (tname : string) (sdate edate : date) (now : Z)
    (st : Store) : create_result * Store :=
  if decide (strip tname = "") then (NameRequired, st)
  else if edate <? sdate then (DeadlineBeforeStart, st)
  else
    let '(task, st1) := tasks_insert (strip tname) sdate edate now st in
    (Created (t_id task), create_daily_rows (t_id task) sdate edate st1).

(** The rows the daily-rows loop appends for the dates [ds], the first of
    them taking the identifier [seq]. *)
Definition new_rows (tid seq : Z) (ds : list date) : list Log :=
  imap (λ i d, mkLog (seq + Z.of_nat i) tid d "" 0) ds.

(** *** List Tasks *)

Definition list_tasks (st : Store) : list Task :=
  order_by_desc updated_at (tasks st).

(** The [Days] column. *)
Definition Days (t : Task) : Z := end_date t - start_date t + 1.

(** One entry of [done_pct]. *)
Definition done_pct (rows : list Z) : Z :=
  match rows with
  | [] => 0
  | _ => py_round (true_div (sum rows) (Z.of_nat (length rows)))
  end.

Definition task_done_pct (st : Store) (t : Task) : Z :=
  done_pct (percent <$> select_where (λ r, task_id r = t_id t) (logs st)).

(** *** Overview: edit task name *)

Inductive rename_result :=
| NameEmpty
| NameUpdated.

Definition rename (tid : Z) (new_name : string) (st : Store) : rename_result * Store :=
  if decide (strip new_name = "") then (NameEmpty, st)
  else
    (NameUpdated,
     set_tasks (update_where (λ t, t_id t = tid)
                  (λ t, mkTask (t_id t) (strip new_name) (start_date t)
                               (end_date t) (updated_at t))) st).

(** The Overview table of a task's logs. *)
Definition task_logs (tid : Z) (st : Store) : list Log :=
  order_by log_date (select_where (λ r, task_id r = tid) (logs st)).

(** *** Daily Update *)

(** [st.date_input(value, min_value, max_value)]: raises when [value] is
    outside the bounds; otherwise hands back the date the user picked, or
    [value] when the user did not pick one.  The calendar offers no date
    outside the bounds; such a pick leaves the widget on [value]. *)
Definition date_input (value min_value max_value : date) (pick : option date) : option date :=
  if (min_value <=? value) && (value <=? max_value) then
    match pick with
    | Some d => if (min_value <=? d) && (d <=? max_value) then Some d else Some value
    | None => Some value
    end
  else None.

(** [st.text_area(value)] *)
Definition text_area (value : string) (typed : option string) : string :=
  default value typed.

(** [st.slider(lo, hi, value, step)]: raises when [value] is outside the
    bounds; the handle cannot be dragged past either end and rests on the
    grid [lo, lo + step, ...]. *)
Definition slider (lo hi value step : Z) (dragged : option Z) : option Z :=
  if (lo <=? value) && (value <=? hi) then
    match dragged with
    | Some v => Some (lo + (Z.max lo (Z.min hi v) - lo) / step * step)
    | None => Some value
    end
  else None.

(** "ensure row exists WITHOUT resetting saved values": the payload holds
    the natural key only. *)
Definition ensure_row (tid : Z) (pick : date) (st : Store) : Store :=
  logs_upsert (mkLogPayload tid pick None None) st.

(** "load the row" *)
Definition load_row (tid : Z) (pick : date) (st : Store) : option Log :=
  single (select_where (log_key tid pick) (logs st)).

(** [table("logs").update({"progress", "percent"}).eq("id", lid)] *)
Definition logs_update (lid : Z) (notes : string) (pct : Z) (st : Store) : Store :=
  set_logs (update_where (λ r, l_id r = lid)
              (λ r, mkLog (l_id r) (task_id r) (log_date r) notes pct)) st.

(** [table("tasks").update({"updated_at": "now()"}).eq("id", tid)] *)
Definition touch_task (tid : Z) (now : Z) (st : Store) : Store :=
  set_tasks (update_where (λ t, t_id t = tid)
               (λ t, mkTask (t_id t) (task_name t) (start_date t) (end_date t) now)) st.

(** The "Save progress" button. *)
Definition save_progress (row : Log) (tid : Z) (notes : string) (pct : Z)
    (now : Z) (st : Store) : Store :=
  touch_task tid now (logs_update (l_id row) notes pct st).

(** The "Mark 100%" button. *)
Definition mark_done (row : Log) (tid : Z) (notes : string) (now : Z) (st : Store) : Store :=
  touch_task tid now (logs_update (l_id row) notes 100 st).

(** *** Upload of supporting documents *)

(** [f"task_{task_id}/{pick}/{f.name}"] *)
Definition storage_key (tid : Z) (pick : date) (fname : string) : string :=
  "task_" +:+ str_int tid +:+ "/" +:+ isoformat pick +:+ "/" +:+ fname.

(** [storage.from_(BUCKET).upload(key, data, {"upsert": ..})]: refused when
    the object exists and [upsert] is off. *)
Definition storage_upload (key : string) (b : Blob) (overwrite : bool)
    (bk : gmap string Blob) : option (gmap string Blob) :=
  match bk !! key with
  | Some _ => if overwrite then Some (<[key := b]> bk) else None
  | None => Some (<[key := b]> bk)
  end.

(** [storage.from_(BUCKET).update(key, data)]: replaces an existing object. *)
Definition storage_update (key : string) (b : Blob) (bk : gmap string Blob)
    : option (gmap string Blob) :=
  match bk !! key with
  | Some _ => Some (<[key := b]> bk)
  | None => None
  end.

(** [storage.from_(BUCKET).download(key)] *)
Definition storage_download (key : string) (bk : gmap string Blob) : option bytes :=
  data <$> bk !! key.

Inductive button :=
| NoButton
| SaveProgress
| MarkDone.

(** What the user did on the tab before the script ran. *)
Record Gestures := mkGestures {
  g_date : option date;
  g_notes : option string;
  g_pct : option Z;
  g_button : button;
  g_files : list (string * bytes)
}.

Inductive view_result :=
| WidgetError
| ReadFailed
| Shown (row : Log)
| Saved (row : Log) (notes : string) (pct : Z)
| Marked (row : Log) (notes : string)
| Uploaded (n : Z)
| UploadFailed.

Section Upload.
(** [mimetypes.guess_type], the table of the Python installation. *)
Variable guess_type : string → option string.

(** [ctype], with its fallback. *)
Definition ctype_of (fname : string) : string :=
  default "application/octet-stream" (guess_type fname).

(** One turn of the upload loop; [None] when the exception of the
    fallback [update] escapes. *)
Definition upload_file (row : Log) (tid : Z) (pick : date) (now : Z)
    (f : string * bytes) (st : Store) : option Store :=
  let key := storage_key tid pick f.1 in
  let ctype := ctype_of f.1 in
  let blob := mkBlob f.2 ctype in
  bk ← match storage_upload key blob true (bucket st) with
       | Some bk => Some bk
       | None => storage_update key blob (bucket st)
       end;
  Some (docs_upsert (l_id row) f.1 key now (set_bucket (λ _, bk) st)).

(** The loop over [files]: the store it reached and the number of files
    uploaded, or the store at the turn that raised. *)
Fixpoint upload_files (row : Log) (tid : Z) (pick : date) (now : Z)
    (files : list (string * bytes)) (uploaded : Z) (st : Store)
    : option Z * Store :=
  match files with
  | [] => (Some uploaded, st)
  | f :: rest =>
      match upload_file row tid pick now f st with
      | Some st' => upload_files row tid pick now rest (uploaded + 1) st'
      | None => (None, st)
      end
  end.

(** Successive uploads of one file name to one log, each with its own
    content and clock. *)
Fixpoint attach_all (row : Log) (tid : Z) (pick : date) (fname : string)
    (calls : list (bytes * Z)) (st : Store) : option Store :=
  match calls with
  | [] => Some st
  | (content, now) :: rest =>
      st' ← upload_file row tid pick now (fname, content) st;
      attach_all row tid pick fname rest st'
  end.

(** One run of the Daily Update tab for the opened [task]. *)
Definition daily_update (task : Task) (today now : Z) (g : Gestures)
    (st : Store) : view_result * Store :=
  let tid := t_id task in
  let sd := start_date task in
  let ed := end_date task in
  match date_input (Z.min (Z.max today sd) ed) sd ed (g_date g) with
  | None => (WidgetError, st)
  | Some pick =>
      let st1 := ensure_row tid pick st in
      match load_row tid pick st1 with
      | None => (ReadFailed, st1)
      | Some row =>
          let notes := text_area (progress row) (g_notes g) in
          match slider 0 100 (percent row) 5 (g_pct g) with
          | None => (WidgetError, st1)
          | Some pct =>
              match g_button g with
              | SaveProgress => (Saved row notes pct, save_progress row tid notes pct now st1)
              | MarkDone => (Marked row notes, mark_done row tid notes now st1)
              | NoButton =>
                  match g_files g with
                  | [] => (Shown row, st1)
                  | files =>
                      match upload_files row tid pick now files 0 st1 with
                      | (Some n, st2) => (Uploaded n, st2)
                      | (None, st2) => (UploadFailed, st2)
                      end
                  end
              end
          end
      end
  end.
End Upload.

(** *** Documents *)

(** What the first column of a document line shows. *)
Inductive doc_widget :=
| DownloadButton (label : string) (content : bytes) (file_name : string)
| MarkdownLink (text : string) (url : string).

Section Documents.
(** [storage.from_(BUCKET).get_public_url]; it builds the address from
    the project's URL and does not look at the bucket. *)
Variable get_public_url : string → string.

(** The [try]/[except] around the download. *)
Definition show_doc (st : Store) (d : Doc) : doc_widget :=
  match storage_download (path d) (bucket st) with
  | Some file_bytes =>
      DownloadButton ("Download " +:+ filename d) file_bytes (filename d)
  | None => MarkdownLink (filename d) (get_public_url (path d))
  end.

Definition log_docs (lid : Z) (st : Store) : list Doc :=
  order_by_desc uploaded_at (select_where (λ d, log_id d = lid) (docs st)).

Definition documents_tab (tid : Z) (st : Store) : list (date * list doc_widget) :=
  omap (λ lg,
          match log_docs (l_id lg) st with
          | [] => None
          | items => Some (log_date lg, show_doc st <$> items)
          end)
       (task_logs tid st).
End Documents.

(** The keys of the two buttons of a document line: [f"dl_{d['id']}"]
    and [f"del_{d['id']}"]. *)
Definition download_key (d : Doc) : string := "dl_" +:+ str_int (d_id d).

Definition delete_key (d : Doc) : string := "del_" +:+ str_int (d_id d).

(** The documents the tab lists, in the order of the page. *)
Definition shown_docs (tid : Z) (st : Store) : list Doc :=
  task_logs tid st ≫= λ lg, log_docs (l_id lg) st.

(** The keys of the widgets the tab creates in one run. *)
Definition documents_keys (tid : Z) (st : Store) : list string :=
  shown_docs tid st ≫= λ d, [download_key d; delete_key d].

(** The "Delete" button: the object, then the row. *)
Definition delete_doc (d : Doc) (st : Store) : Store :=
  set_docs (delete_where (λ r, d_id r = d_id d))
           (set_bucket (delete (path d)) st).

(** *** The page as a whole *)

(** What the user can do between two runs of the script. *)
Inductive action :=
| CreateTask (tname : string) (sdate edate : date)
| EditName (tid : Z) (new_name : string)
| DailyUpdate (tid : Z) (today : Z) (g : Gestures)
| DeleteDoc (d : Doc).

(** [task = [t for t in tasks if t["id"] == task_id][0]] *)
Definition open_task (tid : Z) (st : Store) : option Task :=
  head (select_where (λ t, t_id t = tid) (list_tasks st)).

(** [f'#{row["ID"]} — {row["Task"]}'] *)
Definition task_label (t : Task) : string :=
  "#" +:+ str_int (t_id t) +:+ " — " +:+ task_name t.

(** The dict comprehension [options]: a label met again takes the later
    identifier. *)
Definition options (st : Store) : gmap string Z :=
  foldl (λ m t, <[task_label t := t_id t]> m) ∅ (list_tasks st).

(** [task_id = options[label]], then the task of that identifier. *)
Definition open_label (label : string) (st : Store) : option Task :=
  tid ← options st !! label; open_task tid st.

Section Page.
Variable guess_type : string → option string.

(** One run of the script at time [now]; the tabs are those of the task
    opened in the select box, which offers the listed tasks only. *)
Definition run (a : action) (now : Z) (st : Store) : Store :=
  match a with
  | CreateTask tname sdate edate => (create_task tname sdate edate now st).2
  | EditName tid new_name =>
      match open_task tid st with
      | Some task => (rename (t_id task) new_name st).2
      | None => st
      end
  | DailyUpdate tid today g =>
      match open_task tid st with
      | Some task => (daily_update guess_type task today now g st).2
      | None => st
      end
  | DeleteDoc d => if decide (d ∈ docs st) then delete_doc d st else st
  end.

Definition run_all (acts : list (action * Z)) (st : Store) : Store :=
  foldl (λ s a, run a.1 a.2 s) st acts.
End Page.

(** ** Log Reconciler and range edit *)

(** The script creates the daily rows once, with the task, and never
    edits a task's dates afterwards: it has no reconciler and no range
    edit.  Both are written here as the specification words them, on top
    of the table operations above. *)
Module Reconciler.

Record Delta := mkDelta {
  toCreate : gset date;
  toDelete : gset date
}.

(** Modelled from the spec: [reconcile(taskId, desiredDates,
    existingDates)], absent from the script; "toCreate = desiredDates −
    existingDates; toDelete = existingDates − desiredDates". *)
Definition reconcile (taskId : Z) (desiredDates existingDates : gset date) : Delta :=
  mkDelta (desiredDates ∖ existingDates) (existingDates ∖ desiredDates).

(** Modelled from the spec: the application of a delta, absent from the
    script; "issues the computed creates/deletes against the Data
    Store", "newly created Log rows get percent=0, notes=''".  The rows
    are created in the order of the expanded range, with the payload of
    the daily-rows loop. *)
Definition apply_delta (taskId : Z) (desired : list date) (δ : Delta) (st : Store) : Store :=
  foldl (λ s d, logs_upsert (daily_row taskId d) s)
        (set_logs (delete_where (λ r, task_id r = taskId ∧ log_date r ∈ toDelete δ)) st)
        (filter (λ d, d ∈ toCreate δ) desired).

Inductive range_result :=
| ValidationError
| RangeUpdated.

(** Modelled from the spec: [updateRange(taskId, newStart, newEnd)],
    absent from the script; "fails with ValidationError if newEnd <
    newStart.  Recomputes desired date set via Expander, reads existing
    Log dates for the task, calls Reconciler, applies the delta".  The
    new dates are recorded on the task. *)
Definition updateRange (taskId : Z) (newStart newEnd : date) (st : Store)
    : range_result * Store :=
  if newEnd <? newStart then (ValidationError, st)
  else
    let desired := rrule_daily newStart newEnd in
    let existing := log_date <$> select_where (λ r, task_id r = taskId) (logs st) in
    let δ := reconcile taskId (list_to_set desired) (list_to_set existing) in
    let st1 :=
      set_tasks (update_where (λ t, t_id t = taskId)
                   (λ t, mkTask (t_id t) (task_name t) newStart newEnd (updated_at t))) st in
    (RangeUpdated, apply_delta taskId desired δ st1).

End Reconciler.

(** ** Well-formed stores *)

(** The natural keys of the two child tables. *)
Definition log_nk (r : Log) : Z * date := (task_id r, log_date r).
Definition doc_nk (r : Doc) : Z * string := (log_id r, path r).

(** What the database enforces on the three tables: primary keys drawn
    from the sequences, the two unique constraints, and the reference
    from a log to its task. *)
Definition store_ok (st : Store) : Prop :=
  NoDup (t_id <$> tasks st)
  ∧ Forall (λ i, i < tasks_seq st) (t_id <$> tasks st)
  ∧ NoDup (l_id <$> logs st)
  ∧ Forall (λ i, i < logs_seq st) (l_id <$> logs st)
  ∧ NoDup (log_nk <$> logs st)
  ∧ Forall (λ i, i ∈ t_id <$> tasks st) (task_id <$> logs st)
  ∧ NoDup (d_id <$> docs st)
  ∧ Forall (λ i, i < docs_seq st) (d_id <$> docs st)
  ∧ NoDup (doc_nk <$> docs st).

#[export] Instance store_ok_dec st : Decision (store_ok st).
Proof. unfold store_ok. apply _. Defined.

(** The dates of the logs of a task, in table order. *)
Definition log_dates (tid : Z) (st : Store) : list date :=
  log_date <$> select_where (λ r, task_id r = tid) (logs st).

(** Every task has a window that is not empty and one log per day of it,
    in order of date. *)
Definition covered (st : Store) : Prop :=
  ∀ t, t ∈ tasks st →
       start_date t ≤ end_date t
       ∧ log_dates (t_id t) st = rrule_daily (start_date t) (end_date t).

(** The identifier and the window of each task, in table order. *)
Definition task_window (t : Task) : Z * date * date :=
  (t_id t, start_date t, end_date t).

(** The percents of the logs lie in the range of the slider. *)
Definition percents_ok (st : Store) : Prop :=
  Forall (λ r, 0 ≤ percent r ≤ 100) (logs st).

(** ** Predicates of the statements *)

(** Every character of the string is white space. *)
Definition blank (s : string) : bool := forallb isspace (chars s).

(** The string neither starts nor ends with white space. *)
Definition trimmed (s : string) : Prop :=
  (∀ c, head (chars s) = Some c → isspace c = false)
  ∧ (∀ c, last (chars s) = Some c → isspace c = false).

(** Every stored task name is non-empty, is what [strip] makes of it
    and has no white space at either end. *)
Definition names_ok (st : Store) : Prop :=
  Forall (λ t, task_name t ≠ ""
               ∧ strip (task_name t) = task_name t
               ∧ trimmed (task_name t)) (tasks st).

(** Every byte of the string is a continuation byte. *)
Fixpoint all_cont (s : string) : bool :=
  match s with
  | EmptyString => true
  | String b s' => is_cont b && all_cont s'
  end.

(** A byte and continuation bytes after it. *)
Definition char_ok (c : string) : Prop :=
  match c with
  | String _ t => all_cont t = true
  | EmptyString => False
  end.

(** A list of characters as [chars] cuts them: no character but the
    first may start with a continuation byte. *)
Definition cut_ok (cs : list string) : Prop :=
  Forall char_ok cs ∧ Forall (λ c, continues c = false) (tail cs).

(** Rows in non-decreasing order of a key. *)
Definition by_key {A} (key : A → Z) : relation A := λ a b, key a ≤ key b.

(** The content of the last file of the batch that has the name. *)
Definition last_content (fname : string) (files : list (string * bytes)) : option bytes :=
  last (snd <$> filter (λ f, f.1 = fname) files).

(** The character [c] does not occur in the string. *)
Fixpoint lacks (c : ascii) (s : string) : bool :=
  match s with
  | EmptyString => true
  | String c' s' => negb (Ascii.eqb c' c) && lacks c s'
  end.

(** The calendar fields are those of a day of the calendar, and
    [toordinal] undoes them. *)
Definition ymd_ok (d : date) : bool :=
  let '(y, m, dd) := ord2ymd d in
  (1 <=? m) && (m <=? 12) && (1 <=? dd) && (dd <=? days_in_month y m)
  && (ymd2ord y m dd =? d).

(** A test on the [n] integers from [d]. *)
Fixpoint all_from (P : Z → bool) (n : nat) (d : Z) : bool :=
  match n with
  | O => true
  | S k => P d && all_from P k (d + 1)
  end.

(** A field of [width] digits reads back as the number it was written
    from. *)
Definition field_ok (width : nat) (v : Z) : bool :=
  bool_decide (String.length (zero_pad width (str_int v)) = width
               ∧ parse_digits 0 (zero_pad width (str_int v)) = Some v).

(** The columns of a log that no write of the script changes. *)
Definition log_ident (r : Log) : Z * Z * date := (l_id r, task_id r, log_date r).

(** Every row of [docs] has its object in the bucket, under the path
    that the upload loop builds for the log of the row. *)
Definition docs_backed (st : Store) : Prop :=
  ∀ d, d ∈ docs st →
       is_Some (bucket st !! path d)
       ∧ ∃ lg, lg ∈ logs st ∧ l_id lg = log_id d
               ∧ path d = storage_key (task_id lg) (log_date lg) (filename d).

(** The dates in the tables are dates of the calendar. *)
Definition dates_valid (st : Store) : Prop :=
  Forall (λ t, valid_date (start_date t) ∧ valid_date (end_date t)) (tasks st)
  ∧ Forall (λ r, valid_date (log_date r)) (logs st).

(** The dates typed into the Create form are dates of the calendar. *)
Definition valid_action (a : action) : Prop :=
  match a with
  | CreateTask _ sdate edate => valid_date sdate ∧ valid_date edate
  | _ => True
  end.

(** The tasks and the logs of [st] are still in [st'], in their places
    and with the columns that identify them. *)
Definition rows_kept (st st' : Store) : Prop :=
  task_window <$> tasks st `prefix_of` task_window <$> tasks st'
  ∧ log_ident <$> logs st `prefix_of` log_ident <$> logs st'.

(** ** A worked scenario *)

(** The day [d] of January 2024. *)
Definition jan (d : Z) : date := 738885 + d.

Definition no_guess : string → option string := λ _, None.

Definition bucket_url (key : string) : string :=
  "https://project.supabase.co/storage/v1/object/public/task-files/" +:+ key.

(** A task over 1-5 January, created in an empty project. *)
Definition demo_task : Task := mkTask 1 "Draft report" (jan 1) (jan 5) 10.

Definition demo_store : Store :=
  (create_task "Draft report" (jan 1) (jan 5) 10 empty_store).2.

(** 50% with a note saved on 3 January. *)
Definition demo_progress : Store :=
  (daily_update no_guess demo_task (jan 3) 20
     (mkGestures (Some (jan 3)) (Some "half way") (Some 50) SaveProgress [])
     demo_store).2.

(** The range shrunk to 2-4 January, then grown back to 1-5 January. *)
Definition demo_shrunk : Store :=
  (Reconciler.updateRange 1 (jan 2) (jan 4) demo_progress).2.

Definition demo_grown : Store :=
  (Reconciler.updateRange 1 (jan 1) (jan 5) demo_shrunk).2.

(** The row of 3 January as it is stored in [demo_progress]. *)
Definition demo_row : Log := mkLog 3 1 (jan 3) "half way" 50.

(** A file attached to 3 January, and the same project after the object
    was lost from the bucket. *)
Definition demo_attached : Store :=
  (daily_update no_guess demo_task (jan 3) 30
     (mkGestures (Some (jan 3)) None None NoButton
        [("notes.txt", [Byte.x68; Byte.x69])])
     demo_progress).2.

Definition demo_doc : Doc := mkDoc 1 3 "notes.txt" "task_1/2024-01-03/notes.txt" 30.

Definition demo_drifted : Store := set_bucket (λ _, ∅) demo_attached.

(** The history of the scenario: the task is created, 50% is saved on
    3 January, a file is attached to that day. *)
Definition demo_history : list (action * Z) :=
  [(CreateTask "Draft report" (jan 1) (jan 5), 10);
   (DailyUpdate 1 (jan 3)
      (mkGestures (Some (jan 3)) (Some "half way") (Some 50) SaveProgress []), 20);
   (DailyUpdate 1 (jan 3)
      (mkGestures (Some (jan 3)) None None NoButton
         [("notes.txt", [Byte.x68; Byte.x69])]), 30)].

(** The task as it is stored after the save. *)
Definition demo_saved_task : Task := mkTask 1 "Draft report" (jan 1) (jan 5) 20.

(** * Properties *)

(** Closed facts about concrete stores are settled by evaluation. *)
Ltac by_compute := apply (bool_decide_unpack _); vm_compute; exact I.

(** ** Table operations *)
Section TableFacts.
Context {A : Type}.
Context (P : A → Prop) `{!∀ r, Decision (P r)}.
Implicit Types (f : A → A) (tbl : list A).

Lemma elem_of_update_where f tbl x :
  x ∈ update_where P f tbl ↔ ∃ r, r ∈ tbl ∧ x = if decide (P r) then f r else r.
Proof.
  unfold update_where. rewrite list_elem_of_fmap.
  split; intros (r & H1 & H2); exists r; auto.
Qed.

Lemma update_where_id f tbl :
  (∀ r, r ∈ tbl → P r → f r = r) → update_where P f tbl = tbl.
Proof.
  intros Hid. unfold update_where.
  induction tbl as [|a tbl IH]; [done|]. cbn.
  rewrite IH by (intros r Hr; apply Hid; by right).
  case_decide; [|done]. rewrite Hid; [done|by left|done].
Qed.

Lemma update_where_fmap {B} (g : A → B) f tbl :
  (∀ r, P r → g (f r) = g r) → g <$> update_where P f tbl = g <$> tbl.
Proof.
  intros Hg. unfold update_where. rewrite <- list_fmap_compose.
  apply list_fmap_ext. intros i r _. cbn. case_decide; auto.
Qed.

Lemma update_where_select (Q : A → Prop) `{!∀ r, Decision (Q r)} f tbl :
  (∀ r, Q (if decide (P r) then f r else r) ↔ Q r) →
  select_where Q (update_where P f tbl) = update_where P f (select_where Q tbl).
Proof.
  intros HQ. unfold select_where, update_where.
  induction tbl as [|a tbl IH]; [done|].
  rewrite fmap_cons, !filter_cons.
  destruct (decide (Q a)) as [Ha|Ha].
  - rewrite decide_True by (by apply HQ). by rewrite fmap_cons, IH.
  - rewrite decide_False by (by rewrite HQ). done.
Qed.

Lemma upsert_absent f fresh tbl :
  (∀ r, r ∈ tbl → ¬ P r) → upsert P f fresh tbl = tbl ++ [fresh].
Proof.
  intros Hno. unfold upsert. rewrite decide_False; [done|].
  rewrite Exists_exists. intros (r & Hr & HP). by apply (Hno r).
Qed.

Lemma upsert_present f fresh tbl r :
  r ∈ tbl → P r → upsert P f fresh tbl = update_where P f tbl.
Proof.
  intros Hr HP. unfold upsert. rewrite decide_True; [done|].
  rewrite Exists_exists. eauto.
Qed.

Lemma select_where_none tbl :
  (∀ r, r ∈ tbl → ¬ P r) → select_where P tbl = [].
Proof.
  intros Hno. unfold select_where.
  induction tbl as [|a tbl IH]; [done|].
  rewrite filter_cons, decide_False by (apply Hno; by left).
  apply IH. intros r Hr. apply Hno. by right.
Qed.

Lemma select_where_all tbl :
  (∀ r, r ∈ tbl → P r) → select_where P tbl = tbl.
Proof.
  intros Hall. unfold select_where.
  induction tbl as [|a tbl IH]; [done|].
  rewrite filter_cons_True by (apply Hall; by left).
  f_equal. apply IH. intros r Hr. apply Hall. by right.
Qed.

Lemma select_where_app tbl1 tbl2 :
  select_where P (tbl1 ++ tbl2) = select_where P tbl1 ++ select_where P tbl2.
Proof. apply filter_app. Qed.

Lemma elem_of_select_where tbl r : r ∈ select_where P tbl ↔ P r ∧ r ∈ tbl.
Proof. apply list_elem_of_filter. Qed.
End TableFacts.

(** A natural key that no two rows share selects at most one row. *)
Lemma select_where_unique {A K} `{EqDecision K} (key : A → K) (k : K)
    (P : A → Prop) `{!∀ r, Decision (P r)} (tbl : list A) (r : A) :
  (∀ x, P x ↔ key x = k) → NoDup (key <$> tbl) → r ∈ tbl → P r →
  select_where P tbl = [r].
Proof.
  intros HP Hnd Hr Hk. unfold select_where.
  induction tbl as [|a tbl IH]; [by apply elem_of_nil in Hr|].
  rewrite fmap_cons in Hnd. apply NoDup_cons in Hnd as [Hna Hnd].
  rewrite filter_cons. apply elem_of_cons in Hr as [->|Hr].
  - rewrite decide_True by done. f_equal.
    apply (select_where_none P). intros x Hx Hpx. apply Hna.
    apply list_elem_of_fmap. exists x. split; [|done].
    apply HP in Hpx, Hk. congruence.
  - rewrite decide_False; [by apply IH|].
    intros Hpa. apply Hna. apply list_elem_of_fmap. exists r. split; [|done].
    apply HP in Hpa, Hk. congruence.
Qed.

(** ** The daily recurrence *)

Lemma days_from_length n d : length (days_from n d) = n.
Proof. revert d. induction n as [|n IH]; intros d; cbn; [done|]. by rewrite IH. Qed.

Lemma days_from_lookup n d i :
  (i < n)%nat → days_from n d !! i = Some (d + Z.of_nat i).
Proof.
  revert d i. induction n as [|n IH]; intros d i Hi; [lia|].
  destruct i as [|i]; cbn.
  - f_equal. lia.
  - rewrite IH by lia. f_equal. lia.
Qed.

Lemma elem_of_days_from n d x :
  x ∈ days_from n d ↔ d ≤ x < d + Z.of_nat n.
Proof.
  revert d. induction n as [|n IH]; intros d; cbn.
  - rewrite elem_of_nil. lia.
  - rewrite elem_of_cons, IH. lia.
Qed.

Lemma days_from_sorted n d : StronglySorted Z.lt (days_from n d).
Proof.
  revert d. induction n as [|n IH]; intros d; cbn; constructor; [apply IH|].
  apply Forall_forall. intros x Hx. apply elem_of_days_from in Hx. lia.
Qed.

Lemma days_from_NoDup n d : NoDup (days_from n d).
Proof.
  revert d. induction n as [|n IH]; intros d; cbn; constructor; [|apply IH].
  rewrite elem_of_days_from. lia.
Qed.

Lemma days_from_last n d :
  last (days_from (S n) d) = Some (d + Z.of_nat n).
Proof.
  rewrite last_lookup, days_from_length. cbn [pred].
  rewrite days_from_lookup by lia. done.
Qed.

Lemma elem_of_rrule_daily s e x : x ∈ rrule_daily s e ↔ s ≤ x ≤ e.
Proof. unfold rrule_daily. rewrite elem_of_days_from. lia. Qed.

(** ** Upserts on [logs] *)

Lemma log_key_nk tid d r : log_key tid d r ↔ log_nk r = (tid, d).
Proof. unfold log_key, log_nk. split; [intros [-> ->]; done|]. intros [= -> ->]. done. Qed.

Lemma logs_upsert_absent p st :
  (∀ r, r ∈ logs st → ¬ log_key (p_task_id p) (p_log_date p) r) →
  logs (logs_upsert p st) = logs st ++ [log_new p (logs_seq st)].
Proof. intros Hno. cbn. by apply upsert_absent. Qed.

Lemma logs_upsert_present p st r :
  r ∈ logs st → log_key (p_task_id p) (p_log_date p) r →
  logs (logs_upsert p st)
  = update_where (log_key (p_task_id p) (p_log_date p)) (log_set p) (logs st).
Proof. intros Hr Hk. cbn. by apply (upsert_present _ _ _ _ r). Qed.

(** On a row that holds the key, a payload with the key alone rewrites
    the row to itself. *)
Lemma log_set_key_only tid d r :
  log_key tid d r → log_set (mkLogPayload tid d None None) r = r.
Proof. intros [<- <-]. by destruct r. Qed.

Lemma ensure_row_present tid d st r :
  r ∈ logs st → log_key tid d r → logs (ensure_row tid d st) = logs st.
Proof.
  intros Hr Hk. unfold ensure_row.
  rewrite (logs_upsert_present _ _ r) by done. cbn.
  apply update_where_id. intros x _ Hx. by apply log_set_key_only.
Qed.

Lemma ensure_row_absent tid d st :
  (∀ r, r ∈ logs st → ¬ log_key tid d r) →
  logs (ensure_row tid d st)
  = logs st ++ [mkLog (logs_seq st) tid d progress_default percent_default].
Proof. intros Hno. unfold ensure_row. by rewrite logs_upsert_absent. Qed.

Lemma new_rows_cons tid seq d ds :
  new_rows tid seq (d :: ds) = mkLog seq tid d "" 0 :: new_rows tid (seq + 1) ds.
Proof.
  unfold new_rows. cbn. f_equal; [f_equal; lia|].
  apply imap_ext. intros i x _. cbn. f_equal. lia.
Qed.

Lemma new_rows_dates tid seq ds : log_date <$> new_rows tid seq ds = ds.
Proof.
  revert seq. induction ds as [|d ds IH]; intros seq; [done|].
  rewrite new_rows_cons, fmap_cons, IH. done.
Qed.

Lemma new_rows_keys tid seq ds : log_nk <$> new_rows tid seq ds = (λ d, (tid, d)) <$> ds.
Proof.
  revert seq. induction ds as [|d ds IH]; intros seq; [done|].
  rewrite new_rows_cons, !fmap_cons, IH. done.
Qed.

Lemma elem_of_new_rows tid seq ds r :
  r ∈ new_rows tid seq ds →
  task_id r = tid ∧ log_date r ∈ ds ∧ percent r = 0 ∧ progress r = "".
Proof.
  revert seq. induction ds as [|d ds IH]; intros seq;
    [intros Hr; by apply elem_of_nil in Hr|].
  rewrite new_rows_cons, elem_of_cons. intros [->|Hr].
  - cbn. split_and!; [done|by left|done..].
  - destruct (IH (seq + 1) Hr) as (? & ? & ? & ?). split_and!; [done|by right|done..].
Qed.

Lemma new_rows_covers tid seq ds d :
  d ∈ ds → ∃ r, r ∈ new_rows tid seq ds ∧ log_key tid d r.
Proof.
  intros Hd.
  assert ((tid, d) ∈ log_nk <$> new_rows tid seq ds) as Hin.
  { rewrite new_rows_keys. apply list_elem_of_fmap. eauto. }
  apply list_elem_of_fmap in Hin as (r & Hnk & Hr).
  exists r. split; [done|]. by apply log_key_nk.
Qed.

(** The loop over dates that no row of the task holds yet appends one row
    per date. *)
Lemma create_rows_list tid ds st :
  NoDup ds →
  (∀ r, r ∈ logs st → task_id r = tid → log_date r ∉ ds) →
  logs (foldl (λ s dt, logs_upsert (daily_row tid dt) s) st ds)
  = logs st ++ new_rows tid (logs_seq st) ds.
Proof.
  revert st. induction ds as [|d ds IH]; intros st Hnd Hfree; cbn [foldl].
  - by rewrite app_nil_r.
  - apply NoDup_cons in Hnd as [Hd Hnd].
    assert (logs (logs_upsert (daily_row tid d) st)
            = logs st ++ [mkLog (logs_seq st) tid d "" 0]) as Hstep.
    { rewrite logs_upsert_absent; [done|].
      intros r Hr [Ht Hdate]. cbn in Ht, Hdate.
      apply (Hfree r Hr Ht). rewrite Hdate. by left. }
    rewrite IH; [|done|].
    + rewrite Hstep, new_rows_cons, <- app_assoc. done.
    + intros r. rewrite Hstep, elem_of_app, list_elem_of_singleton.
      intros [Hr| ->] Ht.
      * intros Hin. apply (Hfree r Hr Ht). by right.
      * done.
Qed.

Lemma create_daily_rows_fresh tid sdate edate st :
  (∀ r, r ∈ logs st → task_id r ≠ tid) →
  logs (create_daily_rows tid sdate edate st)
  = logs st ++ new_rows tid (logs_seq st) (rrule_daily sdate edate).
Proof.
  intros Hfresh. unfold create_daily_rows.
  apply create_rows_list; [apply days_from_NoDup|].
  intros r Hr Ht. by destruct (Hfresh r Hr).
Qed.

(** In a well-formed store no log refers to the task the sequence will
    number next. *)
Lemma store_ok_next_task_fresh st r :
  store_ok st → r ∈ logs st → task_id r ≠ tasks_seq st.
Proof.
  intros (_ & Hlt & _ & _ & _ & Hfk & _) Hr.
  rewrite Forall_forall in Hlt. rewrite Forall_forall in Hfk.
  assert (task_id r ∈ t_id <$> tasks st) as Ht
    by (apply Hfk, list_elem_of_fmap; eauto).
  apply Hlt in Ht. lia.
Qed.

(** C1. For every start <= end, creating a task writes exactly one log
    row per calendar day from start to end inclusive: the dates of the
    task's rows are the expanded range, in strictly ascending order,
    without gap or duplicate, (end - start).days + 1 of them, the first
    being start and the last end; every row of the new task has percent 0
    and empty notes, and the rows that were there before are untouched. *)
Theorem create_task_daily_rows (tname : string) (sdate edate : date) (now : Z) (st : Store) :
  store_ok st → strip tname ≠ "" → sdate ≤ edate →
  let tid := tasks_seq st in
  let st' := (create_task tname sdate edate now st).2 in
  let rows := select_where (λ r, task_id r = tid) (logs st') in
  let ds := log_date <$> rows in
  (create_task tname sdate edate now st).1 = Created tid
  ∧ logs st' = logs st ++ rows
  ∧ ds = rrule_daily sdate edate
  ∧ Z.of_nat (length ds) = edate - sdate + 1
  ∧ head ds = Some sdate
  ∧ last ds = Some edate
  ∧ StronglySorted Z.lt ds
  ∧ NoDup ds
  ∧ (∀ d, d ∈ ds ↔ sdate ≤ d ≤ edate)
  ∧ (∀ i d, ds !! i = Some d → d = sdate + Z.of_nat i)
  ∧ Forall (λ r, percent r = 0 ∧ progress r = "") rows.
Proof.
  intros Hok Hname Hle tid st' rows ds.
  assert ((create_task tname sdate edate now st).1 = Created tid
          ∧ logs st' = logs st ++ new_rows tid (logs_seq st) (rrule_daily sdate edate))
    as [Hres Hlogs].
  { subst st'. unfold create_task. rewrite decide_False by done.
    destruct (edate <? sdate) eqn:E; [lia|]. cbn. split; [done|].
    rewrite create_daily_rows_fresh; [done|].
    intros r Hr. by apply store_ok_next_task_fresh. }
  assert (rows = new_rows tid (logs_seq st) (rrule_daily sdate edate)) as Hrows.
  { subst rows. rewrite Hlogs, select_where_app.
    rewrite (select_where_none _ (logs st))
      by (intros r Hr; by apply store_ok_next_task_fresh).
    cbn. apply select_where_all. intros r Hr. by apply elem_of_new_rows in Hr as [? _]. }
  assert (ds = rrule_daily sdate edate) as Hds.
  { subst ds. by rewrite Hrows, new_rows_dates. }
  split; [done|]. split; [by rewrite Hrows|]. split; [done|].
  rewrite Hds. unfold rrule_daily.
  set (n := Z.to_nat (edate - sdate + 1)).
  assert (∃ k, n = S k ∧ Z.of_nat k = edate - sdate) as (k & Hn & Hk).
  { exists (Z.to_nat (edate - sdate)). subst n. split; lia. }
  split_and!.
  - rewrite days_from_length. lia.
  - rewrite Hn. done.
  - rewrite Hn, days_from_last. f_equal. lia.
  - apply days_from_sorted.
  - apply days_from_NoDup.
  - intros d. rewrite elem_of_days_from. lia.
  - intros i d Hd. pose proof (lookup_lt_Some _ _ _ Hd) as Hi.
    rewrite days_from_length in Hi. rewrite days_from_lookup in Hd by done.
    congruence.
  - rewrite Hrows. apply Forall_forall. intros r Hr.
    apply elem_of_new_rows in Hr. tauto.
Qed.

(** ** The row behind a day of the Daily Update tab *)

Lemma load_row_unique tid d st r :
  NoDup (log_nk <$> logs st) → r ∈ logs st → log_key tid d r →
  load_row tid d st = Some r.
Proof.
  intros Hnd Hr Hk. unfold load_row.
  rewrite (select_where_unique log_nk (tid, d) _ _ r); [done| |done..].
  intros x. apply log_key_nk.
Qed.

Lemma load_row_single tid d st row :
  load_row tid d st = Some row → select_where (log_key tid d) (logs st) = [row].
Proof.
  unfold load_row. intros Hs.
  destruct (select_where (log_key tid d) (logs st)) as [|x [|y l]]; try done.
  by injection Hs as ->.
Qed.

Lemma load_row_elem tid d st row :
  load_row tid d st = Some row → row ∈ logs st ∧ log_key tid d row.
Proof.
  unfold load_row. intros Hs.
  destruct (select_where (log_key tid d) (logs st)) as [|x [|y l]] eqn:E; try done.
  injection Hs as ->.
  assert (row ∈ select_where (log_key tid d) (logs st)) as Hin by (rewrite E; by left).
  apply elem_of_select_where in Hin. tauto.
Qed.

(** The key-only upsert followed by the read: the row for the day is
    there, it is the stored one when there was one and a row of defaults
    otherwise, and no key is held twice. *)
Lemma ensure_row_load tid d st :
  NoDup (log_nk <$> logs st) →
  ∃ row,
    load_row tid d (ensure_row tid d st) = Some row
    ∧ log_key tid d row
    ∧ NoDup (log_nk <$> logs (ensure_row tid d st))
    ∧ ((row ∈ logs st ∧ logs (ensure_row tid d st) = logs st)
       ∨ ((∀ r, r ∈ logs st → ¬ log_key tid d r)
          ∧ row = mkLog (logs_seq st) tid d "" 0
          ∧ logs (ensure_row tid d st) = logs st ++ [row])).
Proof.
  intros Hnd.
  destruct (decide (Exists (log_key tid d) (logs st))) as [Hex|Hno].
  - apply Exists_exists in Hex as (r & Hr & Hk).
    pose proof (ensure_row_present tid d st r Hr Hk) as Hsame.
    exists r. split_and!; [|done| |left; done].
    + apply load_row_unique; rewrite ?Hsame; done.
    + by rewrite Hsame.
  - assert (∀ r, r ∈ logs st → ¬ log_key tid d r) as Hno'.
    { intros r Hr Hk. apply Hno, Exists_exists. eauto. }
    pose proof (ensure_row_absent tid d st Hno') as Happ.
    assert (NoDup (log_nk <$> logs (ensure_row tid d st))) as Hnd'.
    { rewrite Happ, fmap_app. apply NoDup_app. split_and!; [done| |apply NoDup_singleton].
      intros k Hk Hk'. cbn in Hk'. apply list_elem_of_singleton in Hk'. subst k.
      apply list_elem_of_fmap in Hk as (r & Hnk & Hr).
      apply (Hno' r Hr). apply log_key_nk. done. }
    exists (mkLog (logs_seq st) tid d "" 0). split_and!; [|done|done|right; done].
    apply load_row_unique; [done| |done].
    rewrite Happ. apply elem_of_app. right. by left.
Qed.

Lemma date_input_window today sd ed picked :
  sd ≤ ed →
  ∃ d, date_input (Z.min (Z.max today sd) ed) sd ed picked = Some d
       ∧ sd ≤ d ≤ ed
       ∧ (∀ x, picked = Some x → sd ≤ x ≤ ed → d = x).
Proof.
  intros Hle. unfold date_input. set (value := Z.min (Z.max today sd) ed).
  assert ((sd <=? value) && (value <=? ed) = true) as -> by (subst value; lia).
  destruct picked as [x|].
  - destruct ((sd <=? x) && (x <=? ed)) eqn:E.
    + exists x. split; [done|]. split; [lia|]. by intros ? [= ->] _.
    + exists value. split; [done|]. split; [subst value; lia|].
      intros ? [= ->] ?. lia.
  - exists value. split; [done|]. split; [subst value; lia|done].
Qed.

(** C9. Opening the Daily Update tab on a date of the task's window
    upserts the natural key alone before it reads: after the run the row
    for (task, date) exists and is the only one with that key; when the
    row existed, the table of logs, and with it the row's notes and
    percent, is what it was; when it did not, the run appended a row of
    defaults, so the mere view writes to the store. *)
Theorem daily_view_ensures_row (guess_type : string → option string)
    (task : Task) (today now : Z) (g : Gestures) (st : Store) :
  NoDup (log_nk <$> logs st) →
  start_date task ≤ end_date task →
  g_button g = NoButton → g_files g = [] →
  let tid := t_id task in
  let st' := (daily_update guess_type task today now g st).2 in
  ∃ pick,
    date_input (Z.min (Z.max today (start_date task)) (end_date task))
               (start_date task) (end_date task) (g_date g) = Some pick
    ∧ start_date task ≤ pick ≤ end_date task
    ∧ (∀ d, g_date g = Some d → start_date task ≤ d ≤ end_date task → pick = d)
    ∧ st' = logs_upsert (mkLogPayload tid pick None None) st
    ∧ (∃ row, select_where (log_key tid pick) (logs st') = [row])
    ∧ NoDup (log_nk <$> logs st')
    ∧ (∀ r, r ∈ logs st → log_key tid pick r →
         logs st' = logs st ∧ load_row tid pick st' = Some r)
    ∧ ((∀ r, r ∈ logs st → ¬ log_key tid pick r) →
         logs st' = logs st ++ [mkLog (logs_seq st) tid pick "" 0]).
Proof.
  intros Hnd Hle Hbtn Hfiles tid st'.
  destruct (date_input_window today _ _ (g_date g) Hle) as (pick & Hpick & Hin & Hsel).
  exists pick. split; [done|]. split; [done|]. split; [done|].
  destruct (ensure_row_load tid pick st Hnd) as (row & Hload & Hk & Hnd' & Hcases).
  assert (st' = ensure_row tid pick st) as Hst'.
  { subst st'. unfold daily_update. rewrite Hpick. fold tid. rewrite Hload.
    destruct (slider 0 100 (percent row) 5 (g_pct g)); [|done].
    by rewrite Hbtn, Hfiles. }
  rewrite Hst'. split; [done|]. split_and!.
  - exists row. by apply load_row_single.
  - done.
  - intros r Hr Hkr. rewrite (ensure_row_present tid pick st r) by done.
    split; [done|]. apply load_row_unique; [|by rewrite (ensure_row_present tid pick st r)|done].
    by rewrite (ensure_row_present tid pick st r).
  - intros Hno. by apply ensure_row_absent.
Qed.

(** ** Saving a day's progress *)

Lemma NoDup_fmap_eq {A B} (f : A → B) (l : list A) (x y : A) :
  NoDup (f <$> l) → x ∈ l → y ∈ l → f x = f y → x = y.
Proof.
  induction l as [|a l IH]; [by rewrite elem_of_nil|].
  rewrite fmap_cons, NoDup_cons, !elem_of_cons.
  intros [Hna Hnd] [->|Hx] [->|Hy] Hf; [done| | |by apply IH].
  - destruct Hna. rewrite Hf. apply list_elem_of_fmap. eauto.
  - destruct Hna. rewrite <- Hf. apply list_elem_of_fmap. eauto.
Qed.

Lemma save_progress_logs row tid notes pct now st :
  logs (save_progress row tid notes pct now st)
  = update_where (λ r, l_id r = l_id row)
      (λ r, mkLog (l_id r) (task_id r) (log_date r) notes pct) (logs st).
Proof. done. Qed.

Lemma save_progress_row row tid notes pct now st :
  NoDup (l_id <$> logs st) → NoDup (log_nk <$> logs st) → row ∈ logs st →
  load_row (task_id row) (log_date row) (save_progress row tid notes pct now st)
  = Some (mkLog (l_id row) (task_id row) (log_date row) notes pct)
  ∧ (∀ r, r ∈ logs st → r ≠ row → r ∈ logs (save_progress row tid notes pct now st))
  ∧ length (logs (save_progress row tid notes pct now st)) = length (logs st).
Proof.
  intros Hids Hnk Hrow. split_and!.
  - apply load_row_unique; [| |done].
    + rewrite save_progress_logs, update_where_fmap; done.
    + rewrite save_progress_logs. apply elem_of_update_where.
      exists row. split; [done|]. by rewrite decide_True.
  - intros r Hr Hne. rewrite save_progress_logs. apply elem_of_update_where.
    exists r. split; [done|]. rewrite decide_False; [done|].
    intros Heq. apply Hne. by apply (NoDup_fmap_eq l_id (logs st)).
  - rewrite save_progress_logs. unfold update_where. by rewrite length_fmap.
Qed.

(** The slider of the tab hands back a percent between 0 and 100. *)
Lemma slider_bounds lo hi value step dragged v :
  lo ≤ hi → 0 < step → slider lo hi value step dragged = Some v → lo ≤ v ≤ hi.
Proof.
  intros Hle Hstep. unfold slider.
  destruct ((lo <=? value) && (value <=? hi)) eqn:E; [|done].
  destruct dragged as [x|]; intros [= <-]; [|lia].
  set (c := Z.max lo (Z.min hi x) - lo).
  assert (0 ≤ c ≤ hi - lo) as Hc by (subst c; lia).
  pose proof (Z.mul_div_le c step Hstep) as Hdown.
  assert (0 ≤ c / step) by (apply Z.div_pos; lia).
  nia.
Qed.

Lemma slider_untouched lo hi value step :
  lo ≤ value ≤ hi → slider lo hi value step None = Some value.
Proof. intros Hin. unfold slider. by rewrite (proj2 (andb_true_iff _ _)) by (split; lia). Qed.

(** C4. Saving progress on a day whose log exists writes the row held
    under (task, date) and resets nothing the user did not enter: the
    key-only upsert of the tab leaves the stored row as it is, the notes
    and the percent that are saved are the stored ones unless the user
    entered new ones, so entering notes keeps the stored percent and
    moving the slider keeps the stored notes; no other row changes and no
    row is added. *)
Theorem record_progress_keeps_fields (guess_type : string → option string)
    (task : Task) (today now : Z) (g : Gestures) (st : Store) (r : Log) :
  store_ok st →
  r ∈ logs st → task_id r = t_id task →
  start_date task ≤ log_date r ≤ end_date task →
  0 ≤ percent r ≤ 100 →
  g_date g = Some (log_date r) → g_button g = SaveProgress →
  let st' := (daily_update guess_type task today now g st).2 in
  ∃ notes pct,
    (daily_update guess_type task today now g st).1 = Saved r notes pct
    ∧ load_row (t_id task) (log_date r) st'
      = Some (mkLog (l_id r) (t_id task) (log_date r) notes pct)
    ∧ notes = default (progress r) (g_notes g)
    ∧ slider 0 100 (percent r) 5 (g_pct g) = Some pct
    ∧ (g_pct g = None → pct = percent r)
    ∧ (g_notes g = None → notes = progress r)
    ∧ (∀ r', r' ∈ logs st → r' ≠ r → r' ∈ logs st')
    ∧ length (logs st') = length (logs st).
Proof.
  intros Hok Hr Htid Hin Hpct Hdate Hbtn st'.
  destruct Hok as (_ & _ & Hids & Hlt & Hnk & _).
  set (tid := t_id task). set (d := log_date r).
  assert (log_key tid d r) as Hk by done.
  pose proof (ensure_row_present tid d st r Hr Hk) as Hsame.
  assert (load_row tid d (ensure_row tid d st) = Some r) as Hload.
  { apply load_row_unique; rewrite ?Hsame; done. }
  assert (∃ pct, slider 0 100 (percent r) 5 (g_pct g) = Some pct
                 ∧ (g_pct g = None → pct = percent r)) as (pct & Hsl & Hsame_pct).
  { destruct (g_pct g) as [v|] eqn:E.
    - unfold slider. rewrite (proj2 (andb_true_iff _ _)) by (split; lia).
      eexists. split; [reflexivity|done].
    - rewrite slider_untouched by done. eexists. split; [reflexivity|done]. }
  assert (daily_update guess_type task today now g st
          = (Saved r (text_area (progress r) (g_notes g)) pct,
             save_progress r tid (text_area (progress r) (g_notes g)) pct now
               (ensure_row tid d st))) as Hrun.
  { unfold daily_update, date_input. rewrite Hdate.
    assert ((start_date task <=? Z.min (Z.max today (start_date task)) (end_date task))
            && (Z.min (Z.max today (start_date task)) (end_date task) <=? end_date task) = true)
      as -> by lia.
    assert ((start_date task <=? log_date r) && (log_date r <=? end_date task) = true)
      as -> by lia.
    fold tid d. rewrite Hload, Hsl, Hbtn. done. }
  subst st'. rewrite Hrun. cbn [fst snd].
  exists (text_area (progress r) (g_notes g)), pct.
  destruct (save_progress_row r tid (text_area (progress r) (g_notes g)) pct now
              (ensure_row tid d st)) as (Hrow & Hframe & Hlen);
    [by rewrite Hsame..|].
  rewrite Hsame in Hframe, Hlen. rewrite Htid in Hrow. fold tid d in Hrow.
  split_and!; try done.
  by intros ->.
Qed.

(** ** Bounds of what the tab can submit *)

Section UploadFacts.
Variable guess_type : string → option string.

Lemma upload_file_logs row tid pick now f st st' :
  upload_file guess_type row tid pick now f st = Some st' →
  logs st' = logs st ∧ tasks st' = tasks st.
Proof.
  unfold upload_file. intros Hup.
  apply bind_Some in Hup as (bk & _ & [= <-]). done.
Qed.

Lemma upload_files_logs row tid pick now files n st :
  logs (upload_files guess_type row tid pick now files n st).2 = logs st
  ∧ tasks (upload_files guess_type row tid pick now files n st).2 = tasks st.
Proof.
  revert n st. induction files as [|f files IH]; intros n st; cbn; [done|].
  destruct (upload_file guess_type row tid pick now f st) as [st'|] eqn:E; [|done].
  apply upload_file_logs in E as [<- <-]. apply IH.
Qed.
End UploadFacts.


(** ** Summary columns *)

Lemma round_div_nearest s n :
  0 < n → Z.abs (2 * (n * round_div s n - s)) ≤ n.
Proof.
  intros Hn. unfold round_div.
  pose proof (Z.div_mod s n ltac:(lia)) as Hdm.
  pose proof (Z.mod_pos_bound s n Hn) as Hr.
  destruct (2 * (s mod n) <? n) eqn:E1; [nia|].
  destruct (n <? 2 * (s mod n)) eqn:E2; [nia|].
  destruct (Z.even (s / n)); nia.
Qed.

(** On a tie the even neighbour is taken. *)
Lemma round_div_tie s n :
  0 < n → 2 * (s mod n) = n → Z.even (round_div s n) = true.
Proof.
  intros Hn Htie. unfold round_div.
  rewrite (proj2 (Z.ltb_ge _ _)) by lia. rewrite (proj2 (Z.ltb_ge _ _)) by lia.
  destruct (Z.even (s / n)) eqn:E; [done|].
  rewrite Z.even_add, E. done.
Qed.

(** [round_div] by cases on the remainder. *)
Lemma round_div_cases s n q r :
  0 < n → s = q * n + r → 0 ≤ r < n →
  round_div s n
  = if 2 * r <? n then q else if n <? 2 * r then q + 1 else if Z.even q then q else q + 1.
Proof.
  intros Hn Hs Hr. unfold round_div.
  assert (s / n = q) as -> by (symmetry; apply (Z.div_unique s n q r); lia).
  assert (s mod n = r) as -> by (symmetry; apply (Z.mod_unique s n q r); lia).
  done.
Qed.

(** Rounding the quotient first to [k] binary places, with [n < 2 ^ k],
    and then to an integer gives what rounding it once gives. *)
Lemma round_div_twice s n k :
  0 < n → 1 ≤ k → n < 2 ^ k →
  round_div (round_div (s * 2 ^ k) n) (2 ^ k) = round_div s n.
Proof.
  intros Hn Hk Hlt.
  set (K := 2 ^ k) in *.
  assert (∃ K', K = 2 * K' ∧ 0 < K') as (K' & HK & HK').
  { exists (2 ^ (k - 1)). split; [|apply Z.pow_pos_nonneg; lia].
    subst K. rewrite <- Z.pow_succ_r by lia. f_equal. lia. }
  set (q := s / n). set (r := s mod n).
  pose proof (Z.div_mod s n ltac:(lia)) as Hdm. fold q r in Hdm.
  pose proof (Z.mod_pos_bound s n Hn) as Hr. fold r in Hr.
  set (a := r * K).
  set (qa := a / n). set (ra := a mod n).
  pose proof (Z.div_mod a n ltac:(lia)) as Hda. fold qa ra in Hda.
  pose proof (Z.mod_pos_bound a n Hn) as Hra. fold ra in Hra.
  assert (0 ≤ qa < K) as Hqa by (subst a; nia).
  (* the inner rounding *)
  set (m' := if 2 * ra <? n then qa else if n <? 2 * ra then qa + 1
             else if Z.even qa then qa else qa + 1).
  assert (round_div (s * K) n = q * K + m') as Hinner.
  { rewrite (round_div_cases (s * K) n (q * K + qa) ra Hn) by (subst a; nia || lia).
    assert (Z.even (q * K + qa) = Z.even qa) as ->.
    { replace (q * K + qa) with (qa + 2 * (q * K')) by lia. apply Z.even_add_mul_2. }
    subst m'. repeat case_match; lia. }
  rewrite Hinner.
  rewrite (round_div_cases s n q r Hn) by lia.
  assert (0 ≤ m' ≤ K) as Hm' by (subst m'; repeat case_match; lia).
  assert (Z.abs (2 * (n * m' - a)) ≤ n) as Hnear.
  { subst m'. repeat case_match; lia. }
  destruct (2 * r <? n) eqn:E1.
  - assert (2 * m' < K) as Hlow by (subst a; nia).
    rewrite (round_div_cases (q * K + m') K q m') by lia.
    by rewrite (proj2 (Z.ltb_lt _ _)) by lia.
  - destruct (n <? 2 * r) eqn:E2.
    + assert (K < 2 * m') as Hhigh by (subst a; nia).
      destruct (decide (m' = K)) as [->|Hne].
      * rewrite (round_div_cases (q * K + K) K (q + 1) 0) by lia.
        by rewrite (proj2 (Z.ltb_lt _ _)) by lia.
      * rewrite (round_div_cases (q * K + m') K q m') by lia.
        rewrite (proj2 (Z.ltb_ge _ _)) by lia.
        by rewrite (proj2 (Z.ltb_lt _ _)) by lia.
    + assert (2 * m' = K) as Htie by (subst a; nia).
      rewrite (round_div_cases (q * K + m') K q m') by lia.
      rewrite (proj2 (Z.ltb_ge _ _)) by lia.
      by rewrite (proj2 (Z.ltb_ge _ _)) by lia.
Qed.

(** Below [2 ^ 52] the detour through the double is invisible: rounding
    the double gives the integer nearest to the exact quotient. *)
Lemma py_round_true_div s n :
  0 < n → Z.abs s < 2 ^ 52 → py_round (true_div s n) = round_div s n.
Proof.
  intros Hn Hs. unfold true_div.
  destruct (s =? 0) eqn:E0.
  - apply Z.eqb_eq in E0 as ->. unfold py_round. cbn [shift mant Z.leb Z.compare].
    rewrite (round_div_cases 0 n 0 0) by lia.
    by rewrite (proj2 (Z.ltb_lt _ _)) by lia.
  - apply Z.eqb_neq in E0.
    set (k0 := 52 + Z.log2 n - Z.log2 (Z.abs s)).
    assert (Z.log2 (Z.abs s) < 52) as Hls by (apply Z.log2_lt_pow2; lia).
    pose proof (Z.log2_nonneg n) as Hln.
    pose proof (Z.log2_spec n Hn) as [_ Hup].
    assert (n < 2 ^ k0) as Hk0.
    { eapply Z.lt_le_trans; [exact Hup|]. apply Z.pow_le_mono_r; lia. }
    match goal with |- context [if ?b then k0 + 1 else k0] => set (k := if b then k0 + 1 else k0) end.
    assert (1 ≤ k ∧ n < 2 ^ k) as [Hk Hnk].
    { subst k. case_match; [|lia]. split; [lia|].
      eapply Z.lt_le_trans; [exact Hk0|]. apply Z.pow_le_mono_r; lia. }
    unfold py_round. cbn [shift mant].
    rewrite !(proj2 (Z.leb_le 0 k)) by lia.
    by apply round_div_twice.
Qed.

Lemma sum_percent_bound (ps : list Z) :
  Forall (λ p, 0 ≤ p ≤ 100) ps → 0 ≤ sum ps ≤ 100 * Z.of_nat (length ps).
Proof.
  induction 1 as [|p ps Hp _ IH]; cbn [sum foldr length]; [lia|].
  fold (sum ps). lia.
Qed.

(** C6. The Days column is end - start + 1; the Done% column is 0 for a
    task without logs and otherwise the mean of the percents of the
    task's logs rounded to a nearest integer (off the mean by at most one
    half, the even neighbour on a tie), 50 for the percents 0, 50, 100.
    The mean goes through a double, which is exact enough as long as the
    sum of the percents stays below 2^52. *)
Theorem compute_summary (st : Store) (t : Task) :
  let ps := percent <$> select_where (λ r, task_id r = t_id t) (logs st) in
  let n := Z.of_nat (length ps) in
  Z.abs (sum ps) < 2 ^ 52 →
  Days t = end_date t - start_date t + 1
  ∧ (ps = [] → task_done_pct st t = 0)
  ∧ (ps ≠ [] →
       task_done_pct st t = round_div (sum ps) n
       ∧ Z.abs (2 * (n * task_done_pct st t - sum ps)) ≤ n)
  ∧ done_pct [0; 50; 100] = 50
  ∧ done_pct [] = 0.
Proof.
  intros ps n Hsum. split_and!; [done| | |done..].
  - unfold task_done_pct. fold ps. by intros ->.
  - unfold task_done_pct. fold ps. subst n.
    destruct ps as [|p ps'] eqn:E; [done|]. intros _. rewrite <- E in *.
    assert (0 < Z.of_nat (length ps)) as Hn by (rewrite E; cbn [length]; lia).
    assert (done_pct ps = round_div (sum ps) (Z.of_nat (length ps))) as ->.
    { rewrite E at 1. cbn [done_pct]. rewrite <- E. by apply py_round_true_div. }
    split; [done|]. by apply round_div_nearest.
Qed.

(** ** Documents *)

(** C8 (as the script has it). The Documents tab downloads the bytes stored
    under the path of the document row and offers them under the stored
    file name; when the bucket has no object under that path, the
    exception is caught and a link to the public address of the path is
    shown in place of the button, so no failure reaches the page. *)
Theorem show_doc_download_or_link (get_public_url : string → string)
    (st : Store) (d : Doc) :
  (∀ b, bucket st !! path d = Some b →
        show_doc get_public_url st d
        = DownloadButton ("Download " +:+ filename d) (data b) (filename d))
  ∧ (bucket st !! path d = None →
       show_doc get_public_url st d
       = MarkdownLink (filename d) (get_public_url (path d))).
Proof.
  unfold show_doc, storage_download. split.
  - by intros b ->.
  - by intros ->.
Qed.

(** ** Attaching documents *)

Lemma doc_key_nk lid key r : doc_key lid key r ↔ doc_nk r = (lid, key).
Proof. unfold doc_key, doc_nk. split; [intros [-> ->]; done|]. intros [= -> ->]. done. Qed.

(** The upsert on [docs]: afterwards one row holds (log_id, path), it
    carries the file name of the payload, and the unique constraint
    still holds. *)
Lemma docs_upsert_one lid fname key now st :
  NoDup (doc_nk <$> docs st) →
  NoDup (doc_nk <$> docs (docs_upsert lid fname key now st))
  ∧ ∃ d, select_where (doc_key lid key) (docs (docs_upsert lid fname key now st)) = [d]
         ∧ filename d = fname.
Proof.
  intros Hnd. cbn [docs docs_upsert].
  set (f := λ r : Doc, mkDoc (d_id r) lid fname key (uploaded_at r)).
  set (fresh := mkDoc (docs_seq st) lid fname key now).
  destruct (decide (Exists (doc_key lid key) (docs st))) as [Hex|Hno].
  - apply Exists_exists in Hex as (r & Hr & Hk).
    rewrite (upsert_present _ _ _ _ r) by done.
    assert (NoDup (doc_nk <$> update_where (doc_key lid key) f (docs st))) as Hnd'.
    { rewrite update_where_fmap; [done|]. by intros x [<- <-]. }
    split; [done|]. exists (f r). split; [|done].
    apply (select_where_unique doc_nk (lid, key)); [apply doc_key_nk|done| |done].
    apply elem_of_update_where. exists r. split; [done|]. by rewrite decide_True.
  - assert (∀ r, r ∈ docs st → ¬ doc_key lid key r) as Hno'.
    { intros r Hr Hk. apply Hno, Exists_exists. eauto. }
    rewrite upsert_absent by done.
    assert (NoDup (doc_nk <$> docs st ++ [fresh])) as Hnd'.
    { rewrite fmap_app. apply NoDup_app. split_and!; [done| |apply NoDup_singleton].
      intros k Hk Hk'. cbn in Hk'. apply list_elem_of_singleton in Hk'. subst k.
      apply list_elem_of_fmap in Hk as (r & Hnk & Hr).
      apply (Hno' r Hr). by apply doc_key_nk. }
    split; [done|]. exists fresh. split; [|done].
    apply (select_where_unique doc_nk (lid, key)); [apply doc_key_nk|done| |done].
    apply elem_of_app. right. by left.
Qed.

(** Upserting again what the row already says changes nothing in the table. *)
Lemma docs_upsert_again lid fname key now st d :
  select_where (doc_key lid key) (docs st) = [d] → filename d = fname →
  docs (docs_upsert lid fname key now st) = docs st.
Proof.
  intros Hsel Hname. cbn [docs docs_upsert].
  assert (d ∈ docs st ∧ doc_key lid key d) as [Hd Hk].
  { assert (d ∈ select_where (doc_key lid key) (docs st)) as Hin by (rewrite Hsel; by left).
    apply elem_of_select_where in Hin. tauto. }
  rewrite (upsert_present _ _ _ _ d) by done.
  apply update_where_id. intros r Hr Hkr.
  assert (r ∈ select_where (doc_key lid key) (docs st)) as Hin
    by (by apply elem_of_select_where).
  rewrite Hsel in Hin. apply list_elem_of_singleton in Hin. subst r.
  destruct Hk as [<- <-]. rewrite <- Hname. by destruct d.
Qed.

(** The [try]/[except] around the upload ends with the object written,
    whether or not the bucket honours the [upsert] option. *)
Lemma upload_or_update key b honoured bk :
  match storage_upload key b honoured bk with
  | Some bk' => Some bk'
  | None => storage_update key b bk
  end = Some (<[key := b]> bk).
Proof.
  unfold storage_upload, storage_update.
  destruct (bk !! key); [|done]. by destruct honoured.
Qed.

Section AttachFacts.
Variable guess_type : string → option string.

(** In this model of the bucket the upload with [upsert] on never
    raises, so a turn of the loop always completes. *)
Lemma upload_file_run row tid pick now fname content st :
  upload_file guess_type row tid pick now (fname, content) st
  = Some (docs_upsert (l_id row) fname (storage_key tid pick fname) now
            (set_bucket (λ _, <[storage_key tid pick fname
                                := mkBlob content (ctype_of guess_type fname)]> (bucket st)) st)).
Proof.
  unfold upload_file. cbn [fst snd]. by rewrite upload_or_update.
Qed.

Lemma attach_all_one row tid pick fname calls content now st :
  NoDup (doc_nk <$> docs st) →
  ∃ st' d,
    attach_all guess_type row tid pick fname ((content, now) :: calls) st = Some st'
    ∧ select_where (doc_key (l_id row) (storage_key tid pick fname)) (docs st') = [d]
    ∧ filename d = fname
    ∧ NoDup (doc_nk <$> docs st')
    ∧ bucket st' !! storage_key tid pick fname
      = Some (mkBlob (default content (fst <$> last calls)) (ctype_of guess_type fname))
    ∧ docs st' = docs (docs_upsert (l_id row) fname (storage_key tid pick fname) now st).
Proof.
  revert content now st. induction calls as [|[c2 now2] calls IH]; intros content now st Hnd.
  - cbn [attach_all]. rewrite upload_file_run. cbn [mbind option_bind].
    destruct (docs_upsert_one (l_id row) fname (storage_key tid pick fname) now st Hnd)
      as (Hnd' & d & Hsel & Hname).
    eexists _, d. split; [reflexivity|]. split_and!; try done.
    cbn. by rewrite lookup_insert_eq.
  - cbn [attach_all]. rewrite upload_file_run. cbn [mbind option_bind].
    set (st1 := docs_upsert _ _ _ _ _).
    destruct (docs_upsert_one (l_id row) fname (storage_key tid pick fname) now st Hnd)
      as (Hnd1 & d & Hsel1 & Hname1).
    assert (docs st1 = docs (docs_upsert (l_id row) fname
                               (storage_key tid pick fname) now st)) as Hdocs1 by done.
    destruct (IH c2 now2 st1) as (st' & d' & Hrun & Hsel & Hname & Hnd' & Hblob & Hdocs);
      [by rewrite Hdocs1|].
    fold (attach_all guess_type row tid pick fname ((c2, now2) :: calls) st1).
    exists st', d'. split; [done|]. split_and!; try done.
    + rewrite Hblob. f_equal. f_equal. rewrite last_cons.
      by destruct (last calls) as [[]|].
    + rewrite Hdocs. rewrite <- Hdocs1 in Hsel1.
      rewrite (docs_upsert_again _ _ _ _ _ d); done.
Qed.
End AttachFacts.

(** C7. Attaching a file name to a log any number of times (at least
    once) always writes to the one path task_{taskId}/{date}/{filename}:
    the object under that path holds the content of the last upload, and
    the table of documents holds exactly one row for (log_id, path); from
    the second upload on the table does not change at all. *)
Theorem attach_same_file_one_row (guess_type : string → option string)
    (row : Log) (tid : Z) (pick : date) (fname : string)
    (content : bytes) (now : Z) (calls : list (bytes * Z)) (st : Store) :
  NoDup (doc_nk <$> docs st) →
  let key := storage_key tid pick fname in
  key = "task_" +:+ str_int tid +:+ "/" +:+ isoformat pick +:+ "/" +:+ fname
  ∧ ∃ st' d,
      attach_all guess_type row tid pick fname ((content, now) :: calls) st = Some st'
      ∧ select_where (doc_key (l_id row) key) (docs st') = [d]
      ∧ filename d = fname
      ∧ data <$> bucket st' !! key = Some (default content (fst <$> last calls))
      ∧ docs st' = docs (docs_upsert (l_id row) fname key now st).
Proof.
  intros Hnd key. split; [done|].
  destruct (attach_all_one guess_type row tid pick fname calls content now st Hnd)
    as (st' & d & Hrun & Hsel & Hname & _ & Hblob & Hdocs).
  exists st', d. split_and!; try done. subst key. by rewrite Hblob.
Qed.

(** ** Ordering of the task list *)

Lemma insert_by_fmap {A} (key : A → Z) (h : A → A) x l :
  (∀ r, key (h r) = key r) →
  insert_by key (h x) (h <$> l) = h <$> insert_by key x l.
Proof.
  intros Hkey. induction l as [|y l IH]; [done|].
  rewrite fmap_cons. cbn [insert_by]. rewrite !Hkey.
  destruct (key x <=? key y); [done|]. by rewrite fmap_cons, IH.
Qed.

Lemma order_by_fmap {A} (key : A → Z) (h : A → A) l :
  (∀ r, key (h r) = key r) →
  order_by key (h <$> l) = h <$> order_by key l.
Proof.
  intros Hkey. unfold order_by. induction l as [|x l IH]; [done|].
  rewrite fmap_cons. cbn [foldr]. rewrite IH. by apply insert_by_fmap.
Qed.

Lemma insert_by_perm {A} (key : A → Z) x l : insert_by key x l ≡ₚ x :: l.
Proof.
  induction l as [|y l IH]; [done|]. cbn.
  destruct (key x <=? key y); [done|]. rewrite IH. apply Permutation_swap.
Qed.

Lemma order_by_perm {A} (key : A → Z) l : order_by key l ≡ₚ l.
Proof.
  unfold order_by. induction l as [|x l IH]; [done|]. cbn.
  by rewrite insert_by_perm, IH.
Qed.

(** A row whose key is strictly below the key of every other row comes
    first. *)
Lemma order_by_head {A} (key : A → Z) (l : list A) (x : A) :
  x ∈ l → (∀ y, y ∈ l → y = x ∨ key x < key y) → head (order_by key l) = Some x.
Proof.
  induction l as [|a l IH]; [by rewrite elem_of_nil|].
  intros Hx Hmin. change (order_by key (a :: l)) with (insert_by key a (order_by key l)).
  assert (∀ y, y ∈ order_by key l → y = x ∨ key x < key y) as Hmin'.
  { intros y Hy. apply Hmin. right. by rewrite <- (order_by_perm key l). }
  destruct (Hmin a ltac:(by left)) as [->|Hlt].
  - destruct (order_by key l) as [|y l'] eqn:E; [done|]. cbn.
    destruct (Hmin' y ltac:(by left)) as [->|Hlt].
    + by rewrite (proj2 (Z.leb_le _ _)) by lia.
    + by rewrite (proj2 (Z.leb_le _ _)) by lia.
  - apply elem_of_cons in Hx as [->|Hx]; [lia|].
    assert (head (order_by key l) = Some x) as Hhd.
    { apply IH; [done|]. intros y Hy. apply Hmin. by right. }
    destruct (order_by key l) as [|y l']; [done|]. injection Hhd as ->. cbn.
    by rewrite (proj2 (Z.leb_gt _ _)) by lia.
Qed.

(** C10. Saving a new task name rewrites the task_name column of the
    task and nothing else: the start date, end date and updated_at of
    every task, the logs, the documents and the bucket are what they
    were, so the task list, ordered by updated_at, shows the tasks in the
    same order.  Saving progress does move updated_at: it becomes the
    time of the save, and a task saved later than every recorded time
    heads the list. *)
Theorem rename_only_changes_name (tid : Z) (new_name : string) (st : Store) :
  let st' := (rename tid new_name st).2 in
  logs st' = logs st
  ∧ docs st' = docs st
  ∧ bucket st' = bucket st
  ∧ t_id <$> tasks st' = t_id <$> tasks st
  ∧ start_date <$> tasks st' = start_date <$> tasks st
  ∧ end_date <$> tasks st' = end_date <$> tasks st
  ∧ updated_at <$> tasks st' = updated_at <$> tasks st
  ∧ (∀ t, t ∈ tasks st → t_id t ≠ tid → t ∈ tasks st')
  ∧ (strip new_name ≠ "" →
     ∀ t, t ∈ tasks st → t_id t = tid →
          mkTask tid (strip new_name) (start_date t) (end_date t) (updated_at t) ∈ tasks st')
  ∧ t_id <$> list_tasks st' = t_id <$> list_tasks st
  ∧ (∀ row notes pct now t,
       t ∈ tasks st → t_id t = tid →
       NoDup (t_id <$> tasks st) →
       (∀ t', t' ∈ tasks st → updated_at t' < now) →
       head (list_tasks (save_progress row tid notes pct now st))
       = Some (mkTask tid (task_name t) (start_date t) (end_date t) now)).
Proof.
  intros st'.
  set (f := λ t : Task,
         mkTask (t_id t) (strip new_name) (start_date t) (end_date t) (updated_at t)).
  assert ((strip new_name = "" ∧ st' = st)
          ∨ (strip new_name ≠ ""
             ∧ st' = set_tasks (update_where (λ t, t_id t = tid) f) st)) as Hst'.
  { subst st'. unfold rename. case_decide; [by left|by right]. }
  split_and!.
  1-7: destruct Hst' as [[_ ->]|[_ ->]]; [done|]; cbn [logs docs bucket tasks set_tasks];
       try done; by apply update_where_fmap.
  - intros t Ht Hne. destruct Hst' as [[_ ->]|[_ ->]]; [done|]. cbn [tasks set_tasks].
    apply elem_of_update_where. exists t. split; [done|]. by case_decide.
  - intros Hname t Ht Heq. destruct Hst' as [[Hempty _]|[_ ->]]; [done|].
    cbn [tasks set_tasks]. apply elem_of_update_where. exists t. split; [done|].
    case_decide; [|done]. subst f. cbv beta. by rewrite Heq.
  - destruct Hst' as [[_ ->]|[_ ->]]; [done|]. unfold list_tasks, order_by_desc.
    cbn [tasks set_tasks]. unfold update_where.
    rewrite order_by_fmap by (intros t; by case_decide).
    rewrite <- list_fmap_compose. apply list_fmap_ext. intros i t _. cbn.
    by case_decide.
  - intros row notes pct now t Ht Heq Hnd Hnow.
    unfold list_tasks, order_by_desc. apply order_by_head.
    + cbn. apply elem_of_update_where. exists t. split; [done|].
      rewrite decide_True by done. by rewrite Heq.
    + intros y Hy. cbn in Hy. apply elem_of_update_where in Hy as (t' & Ht' & ->).
      case_decide as Hc.
      * left. assert (t' = t) as -> by (apply (NoDup_fmap_eq t_id (tasks st)); congruence).
        by rewrite Heq.
      * right. cbn. specialize (Hnow t' Ht'). lia.
Qed.

(** ** Reconciliation *)

Import Reconciler.

Lemma set_logs_id st : set_logs (λ l, l) st = st.
Proof. by destruct st. Qed.

(** The daily-rows loop of [create_task] is the application of the delta
    computed against an empty set of existing dates. *)
Lemma create_daily_rows_reconcile tid sdate edate st :
  create_daily_rows tid sdate edate st
  = apply_delta tid (rrule_daily sdate edate)
      (reconcile tid (list_to_set (rrule_daily sdate edate)) ∅) st.
Proof.
  unfold create_daily_rows, apply_delta, reconcile. cbn [toCreate toDelete].
  assert (delete_where (λ r, task_id r = tid ∧ log_date r ∈ (∅ ∖ list_to_set (rrule_daily sdate edate) : gset date))
            (logs st) = logs st) as Hdel.
  { apply (select_where_all (λ r, ¬ _)). intros r _ [_ Hin].
    apply elem_of_difference in Hin as [Hin _]. by apply not_elem_of_empty in Hin. }
  assert (filter (λ d, d ∈ (list_to_set (rrule_daily sdate edate) ∖ ∅ : gset date))
            (rrule_daily sdate edate) = rrule_daily sdate edate) as ->.
  { apply (select_where_all (λ d, d ∈ _)). intros d Hd.
    apply elem_of_difference. split; [by apply elem_of_list_to_set|].
    apply not_elem_of_empty. }
  f_equal. destruct st. unfold set_logs. cbn in *. by rewrite Hdel.
Qed.

(** C2. For all sets of desired and existing dates, [reconcile] returns
    toCreate = desired − existing and toDelete = existing − desired;
    toCreate does not meet existing, toDelete lies in existing, and
    (existing − toDelete) ∪ toCreate = desired; a date of both sets is in
    neither result; reconciling again once the delta is applied, or
    whenever desired and existing are the same set, gives two empty
    sets.  The daily-rows loop of [create_task] is the application of the
    delta computed against an empty set of existing dates. *)
Theorem reconcile_delta (taskId : Z) (desiredDates existingDates : gset date) :
  let δ := reconcile taskId desiredDates existingDates in
  toCreate δ = desiredDates ∖ existingDates
  ∧ toDelete δ = existingDates ∖ desiredDates
  ∧ toCreate δ ∩ existingDates = ∅
  ∧ toDelete δ ⊆ existingDates
  ∧ (existingDates ∖ toDelete δ) ∪ toCreate δ = desiredDates
  ∧ (∀ d, d ∈ desiredDates → d ∈ existingDates → (d ∉ toCreate δ) ∧ (d ∉ toDelete δ))
  ∧ reconcile taskId desiredDates ((existingDates ∖ toDelete δ) ∪ toCreate δ) = mkDelta ∅ ∅
  ∧ reconcile taskId desiredDates desiredDates = mkDelta ∅ ∅
  ∧ (∀ sdate edate st,
       create_daily_rows taskId sdate edate st
       = apply_delta taskId (rrule_daily sdate edate)
           (reconcile taskId (list_to_set (rrule_daily sdate edate)) ∅) st).
Proof.
  intros δ. subst δ. unfold reconcile. cbn [toCreate toDelete].
  assert ((existingDates ∖ (existingDates ∖ desiredDates))
          ∪ (desiredDates ∖ existingDates) = desiredDates) as Happly.
  { apply set_eq. intros d. rewrite elem_of_union, !elem_of_difference.
    destruct (decide (d ∈ existingDates)), (decide (d ∈ desiredDates)); tauto. }
  assert (∀ X : gset date, X ∖ X = ∅) as Hself.
  { intros X. apply set_eq. intros d. rewrite elem_of_difference, elem_of_empty. tauto. }
  split_and!; [done|done| | |done| | | |].
  - apply set_eq. intros d.
    rewrite elem_of_intersection, elem_of_difference, elem_of_empty. tauto.
  - intros d. rewrite elem_of_difference. tauto.
  - intros d Hd He. rewrite !elem_of_difference. tauto.
  - by rewrite Happly, Hself.
  - by rewrite Hself.
  - intros sdate edate st. apply create_daily_rows_reconcile.
Qed.

(** ** Range edit *)

Section RangeEdit.
Variables (taskId : Z) (newStart newEnd : date) (st : Store).

Let desired : gset date := list_to_set (rrule_daily newStart newEnd).
Let existing : gset date :=
  list_to_set (log_date <$> select_where (λ r, task_id r = taskId) (logs st)).

Lemma elem_of_desired d : d ∈ desired ↔ newStart ≤ d ≤ newEnd.
Proof. unfold desired. by rewrite elem_of_list_to_set, elem_of_rrule_daily. Qed.

Lemma elem_of_existing d :
  d ∈ existing ↔ ∃ r, r ∈ logs st ∧ log_key taskId d r.
Proof.
  unfold existing. rewrite elem_of_list_to_set, list_elem_of_fmap. split.
  - intros (r & -> & Hr). apply elem_of_select_where in Hr as [Ht Hr].
    exists r. by split.
  - intros (r & Hr & Ht & Hd). exists r. split; [done|].
    by apply elem_of_select_where.
Qed.

(** The logs after the edit: the rows that were not deleted, in their
    order, followed by a row of defaults for each missing date. *)
Lemma updateRange_logs :
  newStart ≤ newEnd →
  logs (updateRange taskId newStart newEnd st).2
  = delete_where (λ r, task_id r = taskId ∧ log_date r ∈ existing ∖ desired) (logs st)
    ++ new_rows taskId (logs_seq st)
         (filter (λ d, d ∈ desired ∖ existing) (rrule_daily newStart newEnd)).
Proof.
  intros Hle. unfold updateRange.
  destruct (newEnd <? newStart) eqn:E; [lia|]. cbn [snd].
  unfold apply_delta, reconcile. cbn [toCreate toDelete logs set_tasks].
  fold desired existing.
  rewrite create_rows_list; [done|apply NoDup_filter, days_from_NoDup|].
  intros r Hr Ht Hin. cbn in Hr.
  apply list_elem_of_filter in Hin as [Hnew _].
  apply elem_of_difference in Hnew as [_ Hnew]. apply Hnew.
  apply elem_of_select_where in Hr as [_ Hr].
  apply elem_of_existing. exists r. by split.
Qed.
End RangeEdit.

(** C3. An edit of a task's range to [newStart, newEnd] keeps every log
    of the task whose date lies in the new range as it is (notes and
    percent included), removes every log of the task whose date lies
    outside, and adds a row with percent 0 and empty notes for each date
    of the new range that had none; afterwards each date of the new range
    has a log of the task, each log of the task is for a date of the
    range, the logs of other tasks are what they were, and no key is held
    twice.  So a range that shrinks deletes exactly the logs outside it,
    and a range that grows keeps all logs and adds the missing dates. *)
Theorem update_range_preserves_logs (taskId : Z) (newStart newEnd : date) (st : Store) :
  NoDup (log_nk <$> logs st) →
  newStart ≤ newEnd →
  let st' := (updateRange taskId newStart newEnd st).2 in
  (updateRange taskId newStart newEnd st).1 = RangeUpdated
  ∧ (∀ r, r ∈ logs st → task_id r = taskId →
          newStart ≤ log_date r ≤ newEnd → r ∈ logs st')
  ∧ (∀ r, r ∈ logs st → task_id r = taskId →
          ¬ (newStart ≤ log_date r ≤ newEnd) → r ∉ logs st')
  ∧ (∀ r, r ∈ logs st' → task_id r = taskId →
          newStart ≤ log_date r ≤ newEnd
          ∧ (r ∈ logs st
             ∨ (percent r = 0 ∧ progress r = ""
                ∧ ∀ r0, r0 ∈ logs st → ¬ log_key taskId (log_date r) r0)))
  ∧ (∀ d, newStart ≤ d ≤ newEnd → ∃ r, r ∈ logs st' ∧ log_key taskId d r)
  ∧ (∀ r, task_id r ≠ taskId → r ∈ logs st' ↔ r ∈ logs st)
  ∧ NoDup (log_nk <$> logs st').
Proof.
  intros Hnd Hle st'.
  pose proof (updateRange_logs taskId newStart newEnd st Hle) as Hlogs.
  fold st' in Hlogs.
  set (desired := list_to_set (rrule_daily newStart newEnd) : gset date) in *.
  set (existing := list_to_set (log_date <$> select_where (λ r, task_id r = taskId) (logs st))
                   : gset date) in *.
  set (kept := delete_where (λ r, task_id r = taskId ∧ log_date r ∈ existing ∖ desired)
                 (logs st)) in *.
  set (missing := filter (λ d, d ∈ desired ∖ existing) (rrule_daily newStart newEnd)) in *.
  assert (∀ d, d ∈ desired ↔ newStart ≤ d ≤ newEnd) as Hdes
    by (intros d; apply elem_of_desired).
  assert (∀ d, d ∈ existing ↔ ∃ r, r ∈ logs st ∧ log_key taskId d r) as Hex
    by (intros d; apply elem_of_existing).
  assert (∀ r, r ∈ kept ↔ r ∈ logs st
               ∧ ¬ (task_id r = taskId ∧ ¬ (newStart ≤ log_date r ≤ newEnd))) as Hkept.
  { intros r. subst kept. unfold delete_where. rewrite list_elem_of_filter.
    rewrite elem_of_difference, Hdes, Hex. split.
    - intros [Hno Hr]. split; [done|]. intros [Ht Hout]. apply Hno.
      split; [done|]. split; [|done]. exists r. by split.
    - intros [Hr Hno]. split; [|done]. intros (Ht & _ & Hout). by apply Hno. }
  assert (∀ d, d ∈ missing ↔ newStart ≤ d ≤ newEnd
               ∧ ∀ r, r ∈ logs st → ¬ log_key taskId d r) as Hmiss.
  { intros d. subst missing. rewrite list_elem_of_filter, elem_of_difference.
    rewrite Hdes, Hex, elem_of_rrule_daily. split.
    - intros [[Hin Hno] _]. split; [done|]. intros r Hr Hk. apply Hno. eauto.
    - intros [Hin Hno]. split; [|done]. split; [done|]. intros (r & Hr & Hk).
      by apply (Hno r). }
  split.
  { unfold updateRange. by destruct (newEnd <? newStart) eqn:E; [lia|]. }
  rewrite Hlogs. split_and!.
  - intros r Hr Ht Hin. apply elem_of_app. left. apply Hkept. split; [done|]. tauto.
  - intros r Hr Ht Hout. rewrite elem_of_app. intros [Hin|Hin].
    + apply Hkept in Hin as [_ Hno]. by apply Hno.
    + apply elem_of_new_rows in Hin as (_ & Hd & _). apply Hmiss in Hd as [Hd _]. done.
  - intros r Hr Ht. apply elem_of_app in Hr as [Hin|Hin].
    + apply Hkept in Hin as [Hr Hno]. split; [|by left].
      destruct (decide (newStart ≤ log_date r ≤ newEnd)); [done|]. destruct Hno. by split.
    + apply elem_of_new_rows in Hin as (_ & Hd & Hp & Hn).
      apply Hmiss in Hd as [Hd Hno]. split; [done|]. right. done.
  - intros d Hd.
    destruct (decide (Exists (log_key taskId d) (logs st))) as [Hsome|Hnone].
    + apply Exists_exists in Hsome as (r & Hr & Hk). exists r. split; [|done].
      apply elem_of_app. left. apply Hkept. split; [done|].
      destruct Hk as [_ Hdate]. rewrite Hdate. tauto.
    + destruct (new_rows_covers taskId (logs_seq st) missing d) as (r & Hr & Hk).
      { apply Hmiss. split; [done|]. intros r Hr Hk. apply Hnone, Exists_exists. eauto. }
      exists r. split; [|done]. apply elem_of_app. by right.
  - intros r Hne. rewrite elem_of_app, Hkept. split.
    + intros [[Hr _]|Hin]; [done|]. apply elem_of_new_rows in Hin as (Ht & _). done.
    + intros Hr. left. split; [done|]. tauto.
  - rewrite fmap_app. apply NoDup_app. split_and!.
    + apply (sublist_NoDup _ (log_nk <$> logs st)); [done|].
      apply fmap_sublist. subst kept. unfold delete_where. apply sublist_filter.
    + intros k Hk Hk'. apply list_elem_of_fmap in Hk as (r & -> & Hr).
      apply list_elem_of_fmap in Hk' as (r' & Heq & Hr').
      apply elem_of_new_rows in Hr' as (Ht' & Hd' & _).
      apply Hkept in Hr as [Hr _]. apply Hmiss in Hd' as [_ Hno].
      apply (Hno r Hr). unfold log_nk in Heq. injection Heq as Ht Hd. split; congruence.
    + rewrite new_rows_keys. apply NoDup_fmap_2; [by intros x y [=]|].
      subst missing. apply NoDup_filter, days_from_NoDup.
Qed.

(** ** The invariant of the store *)

Lemma NoDup_snoc {A} (l : list A) (x : A) : NoDup l → x ∉ l → NoDup (l ++ [x]).
Proof.
  intros Hnd Hx. apply NoDup_app. split_and!; [done| |apply NoDup_singleton].
  intros y Hy Hy'. apply list_elem_of_singleton in Hy'. by subst y.
Qed.

Lemma Forall_lt_fresh (l : list Z) (n : Z) : Forall (λ i, i < n) l → n ∉ l.
Proof. rewrite Forall_forall. intros Hlt Hn. apply Hlt in Hn. lia. Qed.

Lemma Forall_lt_succ (l : list Z) (n : Z) :
  Forall (λ i, i < n) l → Forall (λ i, i < n + 1) l.
Proof. intros H. eapply Forall_impl; [exact H|]. intros i. cbn. lia. Qed.

Lemma task_id_of_nk (l : list Log) : task_id <$> l = fst <$> (log_nk <$> l).
Proof. by rewrite <- list_fmap_compose. Qed.

(** A write that leaves the key columns of the three tables alone and
    moves no sequence backwards keeps the store well formed. *)
Lemma store_ok_keys st st' :
  t_id <$> tasks st' = t_id <$> tasks st →
  l_id <$> logs st' = l_id <$> logs st →
  log_nk <$> logs st' = log_nk <$> logs st →
  d_id <$> docs st' = d_id <$> docs st →
  doc_nk <$> docs st' = doc_nk <$> docs st →
  tasks_seq st ≤ tasks_seq st' → logs_seq st ≤ logs_seq st' → docs_seq st ≤ docs_seq st' →
  store_ok st → store_ok st'.
Proof.
  intros Ht Hl Hk Hd Hdk Hts Hls Hds (H1 & H2 & H3 & H4 & H5 & H6 & H7 & H8 & H9).
  unfold store_ok. rewrite Ht, Hl, Hk, Hd, Hdk, (task_id_of_nk (logs st')), Hk.
  rewrite <- task_id_of_nk.
  split_and!; try done.
  - eapply Forall_impl; [exact H2|]. intros i. cbn. lia.
  - eapply Forall_impl; [exact H4|]. intros i. cbn. lia.
  - eapply Forall_impl; [exact H8|]. intros i. cbn. lia.
Qed.

Lemma logs_upsert_ok p st :
  store_ok st → p_task_id p ∈ t_id <$> tasks st → store_ok (logs_upsert p st).
Proof.
  intros Hok Htask.
  destruct (decide (Exists (log_key (p_task_id p) (p_log_date p)) (logs st))) as [Hex|Hno].
  - apply Exists_exists in Hex as (r & Hr & Hk).
    apply (store_ok_keys st); try done; try (cbn; lia).
    + rewrite (logs_upsert_present p st r) by done. by apply update_where_fmap.
    + rewrite (logs_upsert_present p st r) by done. apply update_where_fmap.
      intros x [Ht Hd]. unfold log_nk. cbn. by rewrite Ht, Hd.
  - assert (∀ r, r ∈ logs st → ¬ log_key (p_task_id p) (p_log_date p) r) as Hno'.
    { intros r Hr Hk. apply Hno, Exists_exists. eauto. }
    destruct Hok as (H1 & H2 & H3 & H4 & H5 & H6 & H7 & H8 & H9).
    unfold store_ok. rewrite logs_upsert_absent by done.
    cbn [tasks docs tasks_seq logs_seq docs_seq logs_upsert]. rewrite !fmap_app.
    split_and!; try done.
    + apply NoDup_snoc; [done|]. by apply Forall_lt_fresh.
    + apply Forall_app. split; [by apply Forall_lt_succ|].
      apply Forall_singleton. cbn. lia.
    + apply NoDup_snoc; [done|]. intros Hin.
      apply list_elem_of_fmap in Hin as (r & Hnk & Hr).
      apply (Hno' r Hr). apply log_key_nk. done.
    + apply Forall_app. split; [done|]. by apply Forall_singleton.
Qed.

Lemma docs_upsert_ok lid fname key now st :
  store_ok st → store_ok (docs_upsert lid fname key now st).
Proof.
  intros Hok.
  destruct (decide (Exists (doc_key lid key) (docs st))) as [Hex|Hno].
  - apply Exists_exists in Hex as (r & Hr & Hk).
    apply (store_ok_keys st); try done; try (cbn; lia).
    + cbn. rewrite (upsert_present _ _ _ _ r) by done. by apply update_where_fmap.
    + cbn. rewrite (upsert_present _ _ _ _ r) by done. apply update_where_fmap.
      by intros x [<- <-].
  - assert (∀ r, r ∈ docs st → ¬ doc_key lid key r) as Hno'.
    { intros r Hr Hk. apply Hno, Exists_exists. eauto. }
    destruct Hok as (H1 & H2 & H3 & H4 & H5 & H6 & H7 & H8 & H9).
    unfold store_ok. cbn [tasks logs docs tasks_seq logs_seq docs_seq docs_upsert].
    rewrite upsert_absent by done. rewrite !fmap_app.
    split_and!; try done.
    + apply NoDup_snoc; [done|]. by apply Forall_lt_fresh.
    + apply Forall_app. split; [by apply Forall_lt_succ|].
      apply Forall_singleton. cbn. lia.
    + apply NoDup_snoc; [done|]. intros Hin.
      apply list_elem_of_fmap in Hin as (r & Hnk & Hr).
      apply (Hno' r Hr). apply doc_key_nk. done.
Qed.

Lemma tasks_insert_ok name s e now st :
  store_ok st →
  store_ok (tasks_insert name s e now st).2
  ∧ tasks_seq st ∈ t_id <$> tasks (tasks_insert name s e now st).2.
Proof.
  intros (H1 & H2 & H3 & H4 & H5 & H6 & H7 & H8 & H9).
  unfold store_ok. cbn. rewrite !fmap_app. split.
  - split_and!; try done.
    + apply NoDup_snoc; [done|]. by apply Forall_lt_fresh.
    + apply Forall_app. split; [by apply Forall_lt_succ|].
      apply Forall_singleton. cbn. lia.
    + eapply Forall_impl; [exact H6|]. intros i Hi. apply elem_of_app. by left.
  - apply elem_of_app. right. by left.
Qed.

Lemma create_daily_rows_ok tid sdate edate st :
  store_ok st → tid ∈ t_id <$> tasks st →
  store_ok (create_daily_rows tid sdate edate st).
Proof.
  unfold create_daily_rows. generalize (rrule_daily sdate edate). intros ds.
  revert st. induction ds as [|d ds IH]; intros st Hok Htid; [done|].
  cbn [foldl]. apply IH; [by apply logs_upsert_ok|done].
Qed.

Lemma create_task_ok tname sdate edate now st :
  store_ok st → store_ok (create_task tname sdate edate now st).2.
Proof.
  intros Hok. unfold create_task. case_decide; [done|].
  destruct (edate <? sdate); [done|].
  destruct (tasks_insert_ok (strip tname) sdate edate now st Hok) as [Hok1 Hin].
  cbn. by apply create_daily_rows_ok.
Qed.

Lemma rename_ok tid new_name st :
  store_ok st → store_ok (rename tid new_name st).2.
Proof.
  intros Hok. unfold rename. case_decide; [done|].
  apply (store_ok_keys st); try done; try (cbn; lia).
  cbn. by apply update_where_fmap.
Qed.

Lemma save_progress_ok row tid notes pct now st :
  store_ok st → store_ok (save_progress row tid notes pct now st).
Proof.
  intros Hok. apply (store_ok_keys st); try done; try (cbn; lia).
  all: cbn; by apply update_where_fmap.
Qed.

Lemma delete_doc_ok d st : store_ok st → store_ok (delete_doc d st).
Proof.
  intros (H1 & H2 & H3 & H4 & H5 & H6 & H7 & H8 & H9).
  unfold store_ok. cbn. unfold delete_where.
  assert (∀ {B} (f : Doc → B),
            f <$> filter (λ r, ¬ d_id r = d_id d) (docs st) `sublist_of` f <$> docs st) as Hsub.
  { intros B f. apply fmap_sublist, sublist_filter. }
  split_and!; try done.
  - by apply (sublist_NoDup _ (d_id <$> docs st)).
  - apply Forall_forall. intros i Hi. rewrite Forall_forall in H8. apply H8.
    by apply (elem_of_sublist _ _ _ Hi).
  - by apply (sublist_NoDup _ (doc_nk <$> docs st)).
Qed.

Lemma open_task_elem tid st task :
  open_task tid st = Some task → task ∈ tasks st ∧ t_id task = tid.
Proof.
  unfold open_task. intros Hhd. apply head_Some_elem_of in Hhd.
  apply elem_of_select_where in Hhd as [Hid Hin]. split; [|done].
  unfold list_tasks, order_by_desc in Hin. by rewrite order_by_perm in Hin.
Qed.

Section PageFacts.
Variable guess_type : string → option string.

Lemma upload_file_ok row tid pick now f st st' :
  store_ok st → upload_file guess_type row tid pick now f st = Some st' → store_ok st'.
Proof.
  intros Hok. destruct f as [fname content]. rewrite upload_file_run.
  intros [= <-]. by apply docs_upsert_ok.
Qed.

Lemma upload_files_ok row tid pick now files n st :
  store_ok st → store_ok (upload_files guess_type row tid pick now files n st).2.
Proof.
  revert n st. induction files as [|f files IH]; intros n st Hok; cbn; [done|].
  destruct (upload_file guess_type row tid pick now f st) as [st'|] eqn:E; [|done].
  apply IH. by apply (upload_file_ok row tid pick now f st).
Qed.

Lemma daily_update_ok task today now g st :
  store_ok st → task ∈ tasks st →
  store_ok (daily_update guess_type task today now g st).2.
Proof.
  intros Hok Htask. unfold daily_update.
  destruct (date_input _ _ _ _) as [pick|]; [|done].
  assert (store_ok (ensure_row (t_id task) pick st)) as Hok1.
  { apply logs_upsert_ok; [done|]. cbn. apply list_elem_of_fmap. eauto. }
  destruct (load_row _ _ _) as [row|]; [|done].
  destruct (slider _ _ _ _ _) as [pct|]; [|done].
  destruct (g_button g).
  - destruct (g_files g) as [|f files]; [done|].
    pose proof (upload_files_ok row (t_id task) pick now (f :: files) 0 _ Hok1) as Hup.
    by destruct (upload_files _ _ _ _ _ _ _ _) as [[n|] st2].
  - by apply save_progress_ok.
  - by apply save_progress_ok.
Qed.

(** Every run of the script keeps the store well formed. *)
Lemma run_ok a now st : store_ok st → store_ok (run guess_type a now st).
Proof.
  intros Hok. destruct a as [tname sdate edate|tid new_name|tid today g|d]; cbn.
  - by apply create_task_ok.
  - destruct (open_task tid st); [|done]. by apply rename_ok.
  - destruct (open_task tid st) as [task|] eqn:E; [|done].
    apply open_task_elem in E as [Hin _]. by apply daily_update_ok.
  - case_decide; [|done]. by apply delete_doc_ok.
Qed.

(** So does every history of the page that starts from an empty project. *)
Lemma run_all_ok acts st : store_ok st → store_ok (run_all guess_type acts st).
Proof.
  revert st. induction acts as [|[a now] acts IH]; intros st Hok; [done|].
  cbn. apply IH. by apply run_ok.
Qed.

(** X22. Whatever the user does, starting from an empty project, the
    tables stay within what the database enforces: identifiers are
    unique and below their sequences, a task and a day have at most one
    log, a log and a path at most one document, and every log belongs to
    a task that exists; no write of the script runs into a constraint. *)
Lemma reachable_ok acts : store_ok (run_all guess_type acts empty_store).
Proof. apply run_all_ok. unfold store_ok. cbn. split_and!; constructor. Qed.
End PageFacts.

(** ** Coverage of a task's window *)

Lemma covered_windows st st' :
  task_window <$> tasks st' = task_window <$> tasks st →
  (∀ tid, log_dates tid st' = log_dates tid st) →
  covered st → covered st'.
Proof.
  intros Hw Hd Hcov t' Ht'.
  assert (task_window t' ∈ task_window <$> tasks st) as Hin
    by (rewrite <- Hw; apply list_elem_of_fmap; eauto).
  apply list_elem_of_fmap in Hin as (t & Heq & Ht).
  injection Heq as -> -> ->. rewrite Hd. by apply Hcov.
Qed.

(** An update of the notes and percent of some rows moves no date. *)
Lemma log_dates_update (P : Log → Prop) `{!∀ r, Decision (P r)} f tid st :
  (∀ r, task_id (f r) = task_id r ∧ log_date (f r) = log_date r) →
  log_dates tid (set_logs (update_where P f) st) = log_dates tid st.
Proof.
  intros Hf. unfold log_dates. cbn [logs set_logs].
  rewrite update_where_select.
  - apply update_where_fmap. intros r _. apply Hf.
  - intros r. case_decide; [|done]. by rewrite (proj1 (Hf r)).
Qed.

Lemma covered_row_present st t d :
  covered st → t ∈ tasks st → start_date t ≤ d ≤ end_date t →
  ∃ r, r ∈ logs st ∧ log_key (t_id t) d r.
Proof.
  intros Hcov Ht Hd.
  assert (d ∈ log_dates (t_id t) st) as Hin
    by (rewrite (proj2 (Hcov t Ht)); by apply elem_of_rrule_daily).
  apply list_elem_of_fmap in Hin as (r & -> & Hr).
  apply elem_of_select_where in Hr as [Hid Hr]. exists r. by split.
Qed.

Section CoverageFacts.
Variable guess_type : string → option string.

Lemma create_task_covered tname sdate edate now st :
  store_ok st → covered st → covered (create_task tname sdate edate now st).2.
Proof.
  intros Hok Hcov. unfold create_task. case_decide; [done|].
  destruct (edate <? sdate) eqn:E; [done|]. cbn [snd tasks_insert t_id].
  set (tid := tasks_seq st).
  set (st1 := mkStore _ _ _ _ _ _ _).
  assert (logs (create_daily_rows tid sdate edate st1)
          = logs st ++ new_rows tid (logs_seq st) (rrule_daily sdate edate)) as Hlogs.
  { rewrite create_daily_rows_fresh; [done|]. intros r Hr. by apply store_ok_next_task_fresh. }
  assert (tasks (create_daily_rows tid sdate edate st1)
          = tasks st ++ [mkTask tid (strip tname) sdate edate now]) as Htasks.
  { unfold create_daily_rows. generalize (rrule_daily sdate edate). intros ds.
    assert (tasks st1 = tasks st ++ [mkTask tid (strip tname) sdate edate now]) as <- by done.
    generalize st1. induction ds as [|d ds IH]; intros s; [done|]. cbn [foldl]. by rewrite IH. }
  intros t. rewrite Htasks, elem_of_app, list_elem_of_singleton. unfold log_dates.
  rewrite Hlogs, select_where_app, fmap_app. intros [Ht| ->].
  - rewrite (select_where_none _ (new_rows _ _ _)), app_nil_r; [by apply Hcov|].
    intros r Hr Hid. apply elem_of_new_rows in Hr as [Hr _].
    destruct Hok as (_ & Hlt & _). rewrite Forall_forall in Hlt.
    assert (t_id t < tid) by (apply Hlt, list_elem_of_fmap; eauto). lia.
  - cbn [t_id start_date end_date]. split; [lia|].
    rewrite (select_where_none _ (logs st)) by (intros r Hr; by apply store_ok_next_task_fresh).
    rewrite select_where_all by (intros r Hr; by apply elem_of_new_rows in Hr as [? _]).
    apply new_rows_dates.
Qed.

Lemma save_progress_covered row tid notes pct now st :
  covered st → covered (save_progress row tid notes pct now st).
Proof.
  apply covered_windows.
  - cbn. by apply update_where_fmap.
  - intros tid'. unfold save_progress, touch_task.
    change (log_dates tid' (set_tasks ?f ?s)) with (log_dates tid' s).
    by apply log_dates_update.
Qed.

Lemma upload_files_covered row tid pick now files n st :
  covered st → covered (upload_files guess_type row tid pick now files n st).2.
Proof.
  destruct (upload_files_logs guess_type row tid pick now files n st) as [Hl Ht].
  apply covered_windows; [by rewrite Ht|]. intros tid'. unfold log_dates. by rewrite Hl.
Qed.

Lemma daily_update_covered task today now g st :
  store_ok st → covered st → task ∈ tasks st →
  covered (daily_update guess_type task today now g st).2.
Proof.
  intros Hok Hcov Htask. unfold daily_update.
  destruct (date_input _ _ _ _) as [pick|] eqn:Hpick; [|done].
  assert (start_date task ≤ pick ≤ end_date task) as Hin.
  { unfold date_input in Hpick.
    destruct (_ && _) eqn:E in Hpick; [|done].
    destruct (g_date g) as [d|]; [|injection Hpick as <-; lia].
    destruct ((start_date task <=? d) && (d <=? end_date task)) eqn:E'; injection Hpick as <-; lia. }
  destruct (covered_row_present st task pick Hcov Htask Hin) as (r & Hr & Hk).
  assert (covered (ensure_row (t_id task) pick st)) as Hcov1.
  { revert Hcov. apply covered_windows; [done|]. intros tid'. unfold log_dates.
    by rewrite (ensure_row_present _ _ _ r). }
  destruct (load_row _ _ _) as [row|]; [|done].
  destruct (slider _ _ _ _ _) as [pct|]; [|done].
  destruct (g_button g).
  - destruct (g_files g) as [|f files]; [done|].
    pose proof (upload_files_covered row (t_id task) pick now (f :: files) 0 _ Hcov1) as Hup.
    by destruct (upload_files _ _ _ _ _ _ _ _) as [[n|] st2].
  - by apply save_progress_covered.
  - by apply save_progress_covered.
Qed.

Lemma run_covered a now st :
  store_ok st → covered st → covered (run guess_type a now st).
Proof.
  intros Hok Hcov. destruct a as [tname sdate edate|tid new_name|tid today g|d]; cbn.
  - by apply create_task_covered.
  - destruct (open_task tid st); [|done]. unfold rename. case_decide; [done|].
    revert Hcov. apply covered_windows; [|done]. cbn. by apply update_where_fmap.
  - destruct (open_task tid st) as [task|] eqn:E; [|done].
    apply open_task_elem in E as [Hin _]. by apply daily_update_covered.
  - case_decide; [|done]. revert Hcov. by apply covered_windows.
Qed.

(** Whatever the user does, starting from an empty project, every task
    keeps one log per day of its window. *)
Lemma reachable_covered acts :
  covered (run_all guess_type acts empty_store).
Proof.
  assert (∀ st, store_ok st → covered st →
                store_ok (run_all guess_type acts st) ∧ covered (run_all guess_type acts st))
    as Hall.
  { induction acts as [|[a now] acts IH]; intros st Hok Hcov; [done|].
    cbn. apply IH; [by apply run_ok|by apply run_covered]. }
  apply Hall.
  - unfold store_ok. cbn. split_and!; constructor.
  - intros t Ht. by apply elem_of_nil in Ht.
Qed.

(** So the Days column of a listed task is the number of its logs. *)
Lemma reachable_days acts t :
  let st := run_all guess_type acts empty_store in
  t ∈ tasks st →
  Days t = Z.of_nat (length (select_where (λ r, task_id r = t_id t) (logs st))).
Proof.
  intros st Ht. destruct (reachable_covered acts t Ht) as [Hle Hdates].
  unfold log_dates in Hdates. fold st in Hdates.
  rewrite <- (length_fmap log_date), Hdates. unfold rrule_daily, Days.
  rewrite days_from_length. lia.
Qed.
End CoverageFacts.

(** ** Range of the stored percents *)

Lemma Forall_update_where {A} (P : A → Prop) `{!∀ r, Decision (P r)}
    (Q : A → Prop) (f : A → A) (tbl : list A) :
  (∀ r, Q r → Q (f r)) → Forall Q tbl → Forall Q (update_where P f tbl).
Proof.
  intros Hf Hall. unfold update_where. apply Forall_fmap.
  eapply Forall_impl; [exact Hall|]. intros r Hr. cbn. case_decide; auto.
Qed.

Lemma logs_upsert_percents p st :
  (∀ v, p_percent p = Some v → 0 ≤ v ≤ 100) →
  percents_ok st → percents_ok (logs_upsert p st).
Proof.
  intros Hp Hst. unfold percents_ok, logs_upsert, upsert. cbn [logs].
  case_decide.
  - apply Forall_update_where; [|done]. intros r Hr. cbn.
    destruct (p_percent p) as [v|]; [by apply Hp|done].
  - apply Forall_app. split; [done|]. apply Forall_singleton. cbn.
    destruct (p_percent p) as [v|]; [by apply Hp|]. unfold percent_default. cbn. lia.
Qed.

Lemma create_task_percents tname sdate edate now st :
  percents_ok st → percents_ok (create_task tname sdate edate now st).2.
Proof.
  intros Hst. unfold create_task. case_decide; [done|].
  destruct (edate <? sdate); [done|]. cbn [snd tasks_insert t_id].
  unfold create_daily_rows. generalize (rrule_daily sdate edate). intros ds.
  match goal with |- percents_ok (foldl _ ?s _) =>
    assert (percents_ok s) as Hs by done; revert Hs; generalize s end.
  induction ds as [|d ds IH]; intros s Hs; [done|]. cbn [foldl].
  apply IH, logs_upsert_percents; [|done]. intros v [= <-]. lia.
Qed.

Lemma save_progress_percents row tid notes pct now st :
  0 ≤ pct ≤ 100 → percents_ok st → percents_ok (save_progress row tid notes pct now st).
Proof.
  intros Hpct Hst. unfold percents_ok. cbn. by apply Forall_update_where.
Qed.

Section PercentFacts.
Variable guess_type : string → option string.

Lemma daily_update_percents task today now g st :
  percents_ok st → percents_ok (daily_update guess_type task today now g st).2.
Proof.
  intros Hst. unfold daily_update.
  destruct (date_input _ _ _ _) as [pick|]; [|done].
  assert (percents_ok (ensure_row (t_id task) pick st)) as Hst1
    by (by apply logs_upsert_percents).
  destruct (load_row _ _ _) as [row|]; [|done].
  destruct (slider _ _ _ _ _) as [pct|] eqn:Hsl; [|done].
  apply slider_bounds in Hsl; [|lia..].
  destruct (g_button g).
  - destruct (g_files g) as [|f files]; [done|].
    pose proof (upload_files_logs guess_type row (t_id task) pick now (f :: files) 0
                  (ensure_row (t_id task) pick st)) as [Hl _].
    destruct (upload_files _ _ _ _ _ _ _ _) as [[n|] st2]; cbn in *;
      unfold percents_ok; by rewrite Hl.
  - by apply save_progress_percents.
  - apply save_progress_percents; [lia|done].
Qed.

Lemma run_percents a now st :
  percents_ok st → percents_ok (run guess_type a now st).
Proof.
  intros Hst. destruct a as [tname sdate edate|tid new_name|tid today g|d]; cbn.
  - by apply create_task_percents.
  - destruct (open_task tid st); [|done]. unfold rename. by case_decide.
  - destruct (open_task tid st); [|done]. by apply daily_update_percents.
  - by case_decide.
Qed.

(** Every percent the page has stored lies between 0 and 100, so the sum
    behind a Done% is at most 100 times the number of logs. *)
Lemma reachable_percents acts tid :
  let ps := percent <$> select_where (λ r, task_id r = tid)
                          (logs (run_all guess_type acts empty_store)) in
  0 ≤ sum ps ≤ 100 * Z.of_nat (length ps).
Proof.
  intros ps. apply sum_percent_bound. subst ps.
  assert (∀ st, percents_ok st → percents_ok (run_all guess_type acts st)) as Hrun.
  { induction acts as [|[a now] acts IH]; intros st Hst; [exact Hst|].
    cbn. apply IH. by apply run_percents. }
  assert (percents_ok (run_all guess_type acts empty_store)) as Hall
    by (apply Hrun; constructor).
  apply Forall_fmap, Forall_forall. intros r Hr.
  apply elem_of_select_where in Hr as [_ Hr].
  unfold percents_ok in Hall. rewrite Forall_forall in Hall. by apply Hall.
Qed.
End PercentFacts.

(** ** Task names *)

Lemma append_cons c s t : String c s +:+ t = String c (s +:+ t).
Proof. done. Qed.

Lemma append_nil_r s : s +:+ "" = s.
Proof. induction s as [|c s IH]; [done|]. by rewrite append_cons, IH. Qed.

Lemma join_cons c cs : str_join (c :: cs) = c +:+ str_join cs.
Proof. done. Qed.

Lemma chars_cons b s :
  chars (String b s)
  = match chars s with
    | c :: cs => if continues c then String b c :: cs else String b "" :: c :: cs
    | [] => [String b ""]
    end.
Proof. done. Qed.

(** The characters of a string, put together, are the string. *)
Lemma join_chars s : str_join (chars s) = s.
Proof.
  induction s as [|b s IH]; [done|]. rewrite chars_cons.
  destruct (chars s) as [|c cs]; [by rewrite <- IH|].
  destruct (continues c); by rewrite <- IH.
Qed.

Lemma chars_cut_ok s : cut_ok (chars s).
Proof.
  induction s as [|b s [IH1 IH2]]; [by split|]. rewrite chars_cons.
  destruct (chars s) as [|c cs]; [split; by repeat constructor|].
  apply Forall_cons in IH1 as [Hc Hcs]. cbn [tail] in IH2.
  destruct (continues c) eqn:E.
  - split; [|done]. apply Forall_cons. split; [|done].
    destruct c as [|b' t]; [done|]. cbn in *. by rewrite E.
  - split; [by repeat constructor|]. cbn [tail]. by apply Forall_cons.
Qed.

Lemma chars_char b t s :
  all_cont t = true → continues s = false →
  chars (String b t +:+ s) = String b t :: chars s.
Proof.
  intros Ht Hs. revert b. induction t as [|b' t IH]; intros b.
  - rewrite append_cons. change ("" +:+ s) with s. rewrite chars_cons.
    pose proof (join_chars s) as Hj.
    destruct (chars s) as [|c cs]; [done|].
    assert (continues c = false) as ->; [|done].
    destruct c as [|b1 c]; [done|]. rewrite join_cons, append_cons in Hj.
    by rewrite <- Hj in Hs.
  - cbn [all_cont] in Ht. apply andb_true_iff in Ht as [Hb Ht].
    rewrite append_cons, chars_cons, (IH Ht). cbn [continues]. by rewrite Hb.
Qed.

(** Characters cut by [chars] are cut the same way again. *)
Lemma chars_join cs : cut_ok cs → chars (str_join cs) = cs.
Proof.
  induction cs as [|c cs IH]; intros [Hok Hst]; [done|].
  apply Forall_cons in Hok as [Hc Hok]. cbn [tail] in Hst.
  destruct c as [|b t]; [done|]. rewrite join_cons.
  rewrite chars_char; [f_equal; apply IH| done |].
  - split; [done|]. destruct cs; [done|]. by apply Forall_cons in Hst as [_ ?].
  - destruct cs as [|c' cs']; [done|]. apply Forall_cons in Hst as [Hc' _].
    apply Forall_cons in Hok as [Hk _].
    destruct c' as [|b' t']; [done|]. by rewrite join_cons, append_cons.
Qed.

Lemma tail_sublist {A} (l k : list A) : l `sublist_of` k → tail l `sublist_of` tail k.
Proof.
  induction 1 as [|x l k H IH|x l k H IH]; [done|done|].
  destruct l as [|y l]; [apply sublist_nil_l|]. cbn [tail] in *.
  etrans; [|exact H]. by apply sublist_cons.
Qed.

Lemma Forall_sublist {A} (P : A → Prop) (l k : list A) :
  l `sublist_of` k → Forall P k → Forall P l.
Proof.
  induction 1 as [|x l k H IH|x l k H IH]; [done|..]; intros Hk.
  - apply Forall_cons in Hk as [Hx Hk]. apply Forall_cons. auto.
  - apply Forall_cons in Hk as [_ Hk]. auto.
Qed.

Lemma sublist_reverse {A} (l k : list A) :
  l `sublist_of` k → reverse l `sublist_of` reverse k.
Proof.
  induction 1 as [|x l k H IH|x l k H IH]; [done|..]; rewrite ?reverse_cons.
  - by apply sublist_app.
  - by apply sublist_inserts_r.
Qed.

Lemma cut_ok_sublist cs cs' : cs' `sublist_of` cs → cut_ok cs → cut_ok cs'.
Proof.
  intros Hsub [H1 H2]. split.
  - by apply (Forall_sublist _ _ _ Hsub).
  - by apply (Forall_sublist _ _ _ (tail_sublist _ _ Hsub)).
Qed.

Lemma join_nil cs : Forall char_ok cs → str_join cs = "" → cs = [].
Proof.
  destruct cs as [|c cs]; [done|]. intros Hok. apply Forall_cons in Hok as [Hc _].
  destruct c; [done|]. by rewrite join_cons, append_cons.
Qed.

(** What [lstrip] removes is white space, and what it leaves does not
    start with white space. *)
Lemma lstrip_split cs :
  ∃ sp, cs = sp ++ lstrip cs ∧ forallb isspace sp = true.
Proof.
  induction cs as [|c cs (sp & Hs & Hsp)]; [by exists []|]. cbn [lstrip].
  destruct (isspace c) eqn:E.
  - exists (c :: sp). cbn. rewrite E, Hsp. split; [by rewrite <- Hs|done].
  - by exists [].
Qed.

Lemma lstrip_head cs c : head (lstrip cs) = Some c → isspace c = false.
Proof.
  induction cs as [|c' cs IH]; [done|]. cbn [lstrip].
  destruct (isspace c') eqn:E; [done|]. cbn. by intros [= <-].
Qed.

Lemma lstrip_id cs : (∀ c, head cs = Some c → isspace c = false) → lstrip cs = cs.
Proof. destruct cs as [|c cs]; [done|]. intros H. cbn. by rewrite (H c). Qed.

Lemma lstrip_nil cs : lstrip cs = [] ↔ forallb isspace cs = true.
Proof.
  induction cs as [|c cs IH]; [done|]. cbn.
  destruct (isspace c); cbn; [done|]. split; discriminate.
Qed.

Lemma lstrip_sublist cs : lstrip cs `sublist_of` cs.
Proof.
  destruct (lstrip_split cs) as (sp & Hs & _). rewrite Hs at 2.
  apply sublist_inserts_l. done.
Qed.

Lemma forallb_reverse {A} (f : A → bool) l : forallb f (reverse l) = forallb f l.
Proof.
  induction l as [|x l IH]; [done|].
  rewrite reverse_cons, forallb_app, IH. cbn. rewrite andb_true_r. apply andb_comm.
Qed.

Lemma strip_chars_sublist cs : strip_chars cs `sublist_of` cs.
Proof.
  unfold strip_chars. etrans; [|apply (lstrip_sublist cs)].
  rewrite <- (reverse_involutive (lstrip cs)) at 2.
  apply sublist_reverse, lstrip_sublist.
Qed.

Lemma strip_chars_nil cs : strip_chars cs = [] ↔ forallb isspace cs = true.
Proof.
  unfold strip_chars. split.
  - intros H. apply (f_equal reverse) in H. rewrite reverse_involutive in H. cbn in H.
    apply lstrip_nil in H. rewrite forallb_reverse in H.
    destruct (lstrip cs) as [|c l] eqn:E; [by apply lstrip_nil|].
    pose proof (lstrip_head cs c) as Hc. rewrite E in Hc. cbn in H.
    rewrite (Hc eq_refl) in H. done.
  - intros H. apply lstrip_nil in H. by rewrite H.
Qed.

Lemma strip_chars_ends cs :
  (∀ c, head (strip_chars cs) = Some c → isspace c = false)
  ∧ (∀ c, last (strip_chars cs) = Some c → isspace c = false).
Proof.
  unfold strip_chars. set (l := lstrip cs). set (r := lstrip (reverse l)). split.
  - intros c. rewrite head_reverse. intros Hc.
    destruct (lstrip_split (reverse l)) as (sp & Hs & _). fold r in Hs.
    assert (last (reverse l) = Some c) as Hl.
    { rewrite Hs. destruct r as [|x r']; [done|]. by rewrite last_app, Hc. }
    rewrite last_reverse in Hl. by apply (lstrip_head cs).
  - intros c. rewrite last_reverse. apply lstrip_head.
Qed.

Lemma strip_chars_id cs :
  (∀ c, head cs = Some c → isspace c = false) →
  (∀ c, last cs = Some c → isspace c = false) →
  strip_chars cs = cs.
Proof.
  intros Hh Hl. unfold strip_chars. rewrite (lstrip_id cs Hh).
  rewrite lstrip_id; [apply reverse_involutive|].
  intros c. rewrite head_reverse. apply Hl.
Qed.

(** The characters of a trimmed string are the trimmed characters. *)
Lemma chars_strip s : chars (strip s) = strip_chars (chars s).
Proof.
  unfold strip. apply chars_join.
  apply (cut_ok_sublist (chars s)); [apply strip_chars_sublist|apply chars_cut_ok].
Qed.

(** A name is blank exactly when trimming leaves nothing. *)
Lemma strip_blank s : strip s = "" ↔ blank s = true.
Proof.
  unfold blank. rewrite <- strip_chars_nil. split.
  - intros H. rewrite <- chars_strip. by rewrite H.
  - intros H. unfold strip. by rewrite H.
Qed.

Lemma strip_trimmed s : trimmed (strip s).
Proof. unfold trimmed. rewrite chars_strip. apply strip_chars_ends. Qed.

(** Trimming a trimmed name changes nothing. *)
Lemma trimmed_strip s : trimmed s → strip s = s.
Proof.
  intros [Hh Hl]. unfold strip. rewrite strip_chars_id by done. apply join_chars.
Qed.

Lemma strip_strip s : strip (strip s) = strip s.
Proof. apply trimmed_strip, strip_trimmed. Qed.

Lemma strip_not_blank s : blank s = false → strip s ≠ "".
Proof. intros Hb Hs. apply strip_blank in Hs. congruence. Qed.

Lemma logs_upsert_tasks p st : tasks (logs_upsert p st) = tasks st.
Proof. done. Qed.

Lemma create_daily_rows_tasks tid sdate edate st :
  tasks (create_daily_rows tid sdate edate st) = tasks st
  ∧ docs (create_daily_rows tid sdate edate st) = docs st
  ∧ bucket (create_daily_rows tid sdate edate st) = bucket st.
Proof.
  unfold create_daily_rows. generalize (rrule_daily sdate edate). intros ds.
  revert st. induction ds as [|d ds IH]; intros st; [done|].
  cbn [foldl]. by rewrite !(proj1 (IH _)), !(proj1 (proj2 (IH _))), !(proj2 (proj2 (IH _))).
Qed.

(** X1. The Create form refuses a name that is empty or made of white
    space only (white space as [str.strip] has it, the Unicode spaces
    included), and then a deadline before the start date, without
    writing anything; the name is looked at first.  Otherwise one task
    row is appended, with the next identifier and the trimmed name, and
    documents and bucket are left alone. *)
Theorem create_task_guards (tname : string) (sdate edate : date) (now : Z) (st : Store) :
  (blank tname = true →
     create_task tname sdate edate now st = (NameRequired, st))
  ∧ (blank tname = false → edate < sdate →
       create_task tname sdate edate now st = (DeadlineBeforeStart, st))
  ∧ (blank tname = false → sdate ≤ edate →
       (create_task tname sdate edate now st).1 = Created (tasks_seq st)
       ∧ tasks (create_task tname sdate edate now st).2
         = tasks st ++ [mkTask (tasks_seq st) (strip tname) sdate edate now]
       ∧ docs (create_task tname sdate edate now st).2 = docs st
       ∧ bucket (create_task tname sdate edate now st).2 = bucket st).
Proof.
  unfold create_task. split_and!.
  - intros Hb. apply strip_blank in Hb. by rewrite decide_True.
  - intros Hb Hlt. rewrite decide_False by (by apply strip_not_blank).
    by rewrite (proj2 (Z.ltb_lt _ _)).
  - intros Hb Hle. rewrite decide_False by (by apply strip_not_blank).
    rewrite (proj2 (Z.ltb_ge _ _)) by done. cbn [fst snd tasks_insert t_id].
    destruct (create_daily_rows_tasks (tasks_seq st) sdate edate
                (mkStore (tasks st ++ [mkTask (tasks_seq st) (strip tname) sdate edate now])
                   (logs st) (docs st) (bucket st) (tasks_seq st + 1) (logs_seq st)
                   (docs_seq st))) as (-> & -> & ->).
    done.
Qed.

Lemma names_ok_tasks st st' : tasks st' = tasks st → names_ok st → names_ok st'.
Proof. unfold names_ok. by intros ->. Qed.

Lemma strip_name_ok s :
  strip s ≠ "" →
  strip s ≠ "" ∧ strip (strip s) = strip s ∧ trimmed (strip s).
Proof. intros Hne. split; [done|]. split; [apply strip_strip|apply strip_trimmed]. Qed.

Lemma create_task_names tname sdate edate now st :
  names_ok st → names_ok (create_task tname sdate edate now st).2.
Proof.
  intros Hst. unfold create_task. case_decide as Hn; [done|].
  destruct (edate <? sdate); [done|]. cbn [fst snd tasks_insert t_id].
  unfold names_ok. rewrite (proj1 (create_daily_rows_tasks _ _ _ _)). cbn [tasks].
  apply Forall_app. split; [done|]. apply Forall_singleton. cbn. by apply strip_name_ok.
Qed.

Lemma rename_names tid new_name st :
  names_ok st → names_ok (rename tid new_name st).2.
Proof.
  intros Hst. unfold rename. case_decide as Hn; [done|]. unfold names_ok. cbn.
  apply Forall_fmap. eapply Forall_impl; [exact Hst|]. intros t Ht. cbn.
  case_decide; [|done]. cbn. by apply strip_name_ok.
Qed.

Lemma touch_task_names tid now st : names_ok st → names_ok (touch_task tid now st).
Proof.
  intros Hst. unfold names_ok. cbn.
  apply Forall_fmap. eapply Forall_impl; [exact Hst|]. intros t Ht. cbn.
  by case_decide.
Qed.

Section NameFacts.
Variable guess_type : string → option string.

Lemma daily_update_tasks task today now g st :
  tasks (daily_update guess_type task today now g st).2 = tasks st
  ∨ tasks (daily_update guess_type task today now g st).2
    = tasks (touch_task (t_id task) now st).
Proof.
  unfold daily_update.
  destruct (date_input _ _ _ _) as [pick|]; [|by left].
  destruct (load_row _ _ _) as [row|]; [|by left].
  destruct (slider _ _ _ _ _) as [pct|]; [|by left].
  destruct (g_button g); [|by right..].
  destruct (g_files g) as [|f files]; [by left|].
  pose proof (upload_files_logs guess_type row (t_id task) pick now (f :: files) 0
                (ensure_row (t_id task) pick st)) as [_ Ht].
  left. by destruct (upload_files _ _ _ _ _ _ _ _) as [[n|] st2].
Qed.

Lemma run_names a now st : names_ok st → names_ok (run guess_type a now st).
Proof.
  intros Hst. destruct a as [tname sdate edate|tid new_name|tid today g|d]; cbn.
  - by apply create_task_names.
  - destruct (open_task tid st); [|done]. by apply rename_names.
  - destruct (open_task tid st) as [task|]; [|done].
    destruct (daily_update_tasks task today now g st) as [Ht|Ht].
    + by apply (names_ok_tasks st).
    + apply (names_ok_tasks (touch_task (t_id task) now st)); [done|].
      by apply touch_task_names.
  - by case_decide.
Qed.

(** X7. Whatever the user does, starting from an empty project, every
    stored task name is non-empty, is left as it is by [strip], and
    neither starts nor ends with a white-space character: both forms
    that write a name trim it and refuse what trims to nothing. *)
Theorem reachable_names_trimmed (acts : list (action * Z)) :
  names_ok (run_all guess_type acts empty_store).
Proof.
  assert (∀ st, names_ok st → names_ok (run_all guess_type acts st)) as Hrun.
  { induction acts as [|[a now] acts IH]; intros st Hst; [exact Hst|].
    cbn. apply IH. by apply run_names. }
  apply Hrun. constructor.
Qed.

End NameFacts.

Lemma update_where_twice {A} (P : A → Prop) `{!∀ r, Decision (P r)} (f : A → A) tbl :
  (∀ r, P r → P (f r) ∧ f (f r) = f r) →
  update_where P f (update_where P f tbl) = update_where P f tbl.
Proof.
  intros Hf. unfold update_where. rewrite <- list_fmap_compose.
  apply list_fmap_ext. intros i r _. cbn.
  destruct (decide (P r)) as [Hr|Hr].
  - destruct (Hf r Hr) as [HP Hff]. by rewrite decide_True.
  - by rewrite decide_False.
Qed.

(** X6. Saving a task name that is empty or white space only reports the
    error and writes nothing; any other name is stored trimmed on the
    task that is open; saving the same name a second time changes
    nothing more, and a name saved for an identifier no task has changes
    nothing at all. *)
Theorem rename_guard_and_repeat (tid : Z) (new_name : string) (st : Store) :
  (blank new_name = true → rename tid new_name st = (NameEmpty, st))
  ∧ (blank new_name = false →
       (rename tid new_name st).1 = NameUpdated
       ∧ task_name <$> select_where (λ t, t_id t = tid) (tasks (rename tid new_name st).2)
         = (λ _, strip new_name) <$> select_where (λ t, t_id t = tid) (tasks st))
  ∧ rename tid new_name (rename tid new_name st).2 = rename tid new_name st
  ∧ ((∀ t, t ∈ tasks st → t_id t ≠ tid) → (rename tid new_name st).2 = st).
Proof.
  set (f := λ t : Task,
         mkTask (t_id t) (strip new_name) (start_date t) (end_date t) (updated_at t)).
  split_and!.
  - intros Hb. apply strip_blank in Hb. unfold rename. by rewrite decide_True.
  - intros Hb. unfold rename. rewrite decide_False by (by apply strip_not_blank).
    split; [done|]. cbn [snd tasks set_tasks].
    rewrite update_where_select by (intros r; by case_decide).
    unfold update_where. rewrite <- list_fmap_compose.
    apply list_fmap_ext. intros i t Ht. cbn.
    apply list_elem_of_lookup_2, elem_of_select_where in Ht as [Ht _].
    by rewrite decide_True.
  - unfold rename. case_decide; [done|]. cbn [snd]. f_equal.
    unfold set_tasks. cbn. f_equal. apply update_where_twice. by intros r Hr.
  - intros Hno. unfold rename. case_decide; [done|]. cbn [snd].
    destruct st. unfold set_tasks. cbn in *. f_equal.
    apply update_where_id. intros r Hr Hid. by destruct (Hno r Hr).
Qed.

(** ** Ordered selections *)

Lemma insert_by_sorted {A} (key : A → Z) x l :
  StronglySorted (by_key key) l → StronglySorted (by_key key) (insert_by key x l).
Proof.
  induction 1 as [|y l Hl IH Hy]; cbn; [repeat constructor|].
  destruct (key x <=? key y) eqn:E.
  - constructor; [by constructor|]. constructor; [unfold by_key; lia|].
    eapply Forall_impl; [exact Hy|]. unfold by_key. intros z Hz. lia.
  - constructor; [done|]. rewrite insert_by_perm. constructor; [unfold by_key; lia|done].
Qed.

Lemma order_by_sorted {A} (key : A → Z) l : StronglySorted (by_key key) (order_by key l).
Proof.
  unfold order_by. induction l as [|x l IH]; cbn; [constructor|].
  by apply insert_by_sorted.
Qed.

(** Rows that are in order already stay as they are. *)
Lemma order_by_sorted_id {A} (key : A → Z) l :
  StronglySorted (by_key key) l → order_by key l = l.
Proof.
  induction 1 as [|y l Hl IH Hy]; [done|].
  change (order_by key (y :: l)) with (insert_by key y (order_by key l)).
  rewrite IH. destruct l as [|z l]; [done|]. cbn.
  apply Forall_cons in Hy as [Hz _]. unfold by_key in Hz.
  by rewrite (proj2 (Z.leb_le _ _)).
Qed.

(** X9. Each [.order()] of the script returns the selected rows, every
    one of them once, in order: the task list by updated_at, latest
    first; the logs of a task by date; the documents of a log by upload
    time, latest first. *)
Theorem ordered_selections (tid lid : Z) (st : Store) :
  list_tasks st ≡ₚ tasks st
  ∧ StronglySorted (λ a b, updated_at b ≤ updated_at a) (list_tasks st)
  ∧ task_logs tid st ≡ₚ select_where (λ r, task_id r = tid) (logs st)
  ∧ StronglySorted (λ a b, log_date a ≤ log_date b) (task_logs tid st)
  ∧ log_docs lid st ≡ₚ select_where (λ d, log_id d = lid) (docs st)
  ∧ StronglySorted (λ a b, uploaded_at b ≤ uploaded_at a) (log_docs lid st).
Proof.
  assert (∀ {A} (key : A → Z) l,
            StronglySorted (λ a b, key b ≤ key a) (order_by_desc key l)) as Hdesc.
  { intros A key l. unfold order_by_desc.
    rewrite <- (list_fmap_id (order_by _ l)).
    apply (StronglySorted_fmap id (by_key (λ r, - key r))); [|apply order_by_sorted].
    unfold by_key. intros x y Hxy. cbn. lia. }
  split_and!.
  - apply order_by_perm.
  - apply Hdesc.
  - apply order_by_perm.
  - apply order_by_sorted.
  - apply order_by_perm.
  - apply Hdesc.
Qed.

Lemma sorted_dates_rows (rows : list Log) :
  StronglySorted Z.lt (log_date <$> rows) → StronglySorted (by_key log_date) rows.
Proof.
  induction rows as [|r rows IH]; [constructor|].
  rewrite fmap_cons. intros Hs. apply StronglySorted_inv in Hs as [Hs Hr].
  constructor; [by apply IH|].
  rewrite Forall_fmap in Hr. eapply Forall_impl; [exact Hr|].
  unfold by_key. intros x Hx. cbn in Hx. lia.
Qed.

(** X8. On every store the page can reach, the Overview table of a
    listed task shows the days of the task's window, first to last, one
    row per day, and only rows of that task. *)
Theorem overview_lists_window (guess_type : string → option string)
    (acts : list (action * Z)) (t : Task) :
  let st := run_all guess_type acts empty_store in
  t ∈ tasks st →
  log_date <$> task_logs (t_id t) st = rrule_daily (start_date t) (end_date t)
  ∧ Forall (λ r, task_id r = t_id t) (task_logs (t_id t) st)
  ∧ Z.of_nat (length (task_logs (t_id t) st)) = Days t.
Proof.
  intros st Ht.
  destruct (reachable_covered guess_type acts t Ht) as [Hle Hdates].
  fold st in Hdates. unfold log_dates in Hdates.
  assert (task_logs (t_id t) st = select_where (λ r, task_id r = t_id t) (logs st)) as Hsame.
  { unfold task_logs. apply order_by_sorted_id, sorted_dates_rows.
    rewrite Hdates. apply days_from_sorted. }
  rewrite Hsame. split_and!; [done| |].
  - apply Forall_forall. intros r Hr. by apply elem_of_select_where in Hr as [? _].
  - rewrite <- (length_fmap log_date), Hdates. unfold rrule_daily, Days.
    rewrite days_from_length. lia.
Qed.

(** X5. With identifiers that are unique, opening a listed task finds
    that very task, so the first element of the comprehension always
    exists for an option of the select box; an identifier no task has
    finds nothing. *)
Theorem open_task_finds (st : Store) :
  NoDup (t_id <$> tasks st) →
  (∀ t, t ∈ tasks st → open_task (t_id t) st = Some t)
  ∧ (∀ tid, (∀ t, t ∈ tasks st → t_id t ≠ tid) → open_task tid st = None)
  ∧ (∀ tid t, open_task tid st = Some t → t ∈ tasks st ∧ t_id t = tid).
Proof.
  intros Hnd.
  assert (list_tasks st ≡ₚ tasks st) as Hperm by apply order_by_perm.
  split_and!.
  - intros t Ht. unfold open_task.
    rewrite (select_where_unique t_id (t_id t) _ _ t); [done|done| |by rewrite Hperm|done].
    by rewrite Hperm.
  - intros tid Hno. unfold open_task. rewrite select_where_none; [done|].
    intros t Ht. apply Hno. by rewrite <- Hperm.
  - intros tid t Hopen. by apply open_task_elem.
Qed.

Section DocumentsFacts.
Variable get_public_url : string → string.

(** X16. The Documents tab has one block per log of the task that has at
    least one document, never an empty block; a block shows the date of
    its log and all the documents of that log; the blocks come in order
    of date. *)
Theorem documents_tab_blocks (tid : Z) (st : Store) :
  (∀ e, e ∈ documents_tab get_public_url tid st →
        e.2 ≠ []
        ∧ ∃ lg, lg ∈ logs st ∧ task_id lg = tid ∧ e.1 = log_date lg
                ∧ e.2 = show_doc get_public_url st <$> log_docs (l_id lg) st)
  ∧ (∀ lg d, lg ∈ logs st → task_id lg = tid → d ∈ docs st → log_id d = l_id lg →
             (log_date lg, show_doc get_public_url st <$> log_docs (l_id lg) st)
             ∈ documents_tab get_public_url tid st)
  ∧ StronglySorted Z.le (fst <$> documents_tab get_public_url tid st).
Proof.
  set (f := λ lg : Log,
         match log_docs (l_id lg) st with
         | [] => None
         | items => Some (log_date lg, show_doc get_public_url st <$> items)
         end).
  assert (∀ lg e, f lg = Some e →
            e.1 = log_date lg ∧ e.2 ≠ []
            ∧ e.2 = show_doc get_public_url st <$> log_docs (l_id lg) st) as Hf.
  { intros lg e. unfold f. destruct (log_docs (l_id lg) st) as [|d ds]; [done|].
    intros [= <-]. done. }
  assert (∀ lg, lg ∈ task_logs tid st ↔ task_id lg = tid ∧ lg ∈ logs st) as Hlogs.
  { intros lg. unfold task_logs. rewrite order_by_perm.
    apply (elem_of_select_where (λ r, task_id r = tid)). }
  split_and!.
  - intros e He. apply list_elem_of_omap in He as (lg & Hlg & Hflg).
    apply Hlogs in Hlg as [Ht Hlg]. destruct (Hf lg e Hflg) as (H1 & H2 & H3).
    split; [done|]. exists lg. done.
  - intros lg d Hlg Ht Hd Hid. apply list_elem_of_omap. exists lg.
    split; [by apply Hlogs|]. unfold f.
    assert (d ∈ log_docs (l_id lg) st) as Hin.
    { unfold log_docs, order_by_desc. rewrite order_by_perm.
      by apply (elem_of_select_where (λ x, log_id x = l_id lg)). }
    destruct (log_docs (l_id lg) st) as [|d' ds]; [by apply elem_of_nil in Hin|done].
  - unfold documents_tab. fold f.
    pose proof (order_by_sorted log_date (select_where (λ r, task_id r = tid) (logs st)))
      as Hs. fold (task_logs tid st) in Hs. clear Hlogs.
    induction Hs as [|lg l Hl IH Hlg]; [constructor|].
    change (omap f (lg :: l)) with (match f lg with Some e => e :: omap f l | None => omap f l end).
    destruct (f lg) as [e|] eqn:E; [|exact IH].
    rewrite fmap_cons. constructor; [exact IH|].
    apply Forall_fmap, Forall_forall. intros e' He'.
    apply list_elem_of_omap in He' as (lg' & Hlg' & Hflg').
    rewrite Forall_forall in Hlg. specialize (Hlg lg' Hlg'). unfold by_key in Hlg.
    destruct (Hf lg e E) as [-> _]. destruct (Hf lg' e' Hflg') as [He1 _].
    cbn. rewrite He1. done.
Qed.

End DocumentsFacts.

(** ** More on the Daily Update tab *)

Section DailyFacts.
Variable guess_type : string → option string.

(** The run of the tab on a day whose row is stored: the picker lands on
    the day, the upsert changes no row, the read gives the stored row. *)
Lemma daily_update_stored_row task today (g : Gestures) st r :
  NoDup (log_nk <$> logs st) →
  r ∈ logs st → task_id r = t_id task →
  start_date task ≤ log_date r ≤ end_date task →
  g_date g = Some (log_date r) →
  date_input (Z.min (Z.max today (start_date task)) (end_date task))
    (start_date task) (end_date task) (g_date g) = Some (log_date r)
  ∧ logs (ensure_row (t_id task) (log_date r) st) = logs st
  ∧ load_row (t_id task) (log_date r) (ensure_row (t_id task) (log_date r) st) = Some r.
Proof.
  intros Hnk Hr Htid Hin Hdate.
  assert (log_key (t_id task) (log_date r) r) as Hk by done.
  pose proof (ensure_row_present _ _ st r Hr Hk) as Hsame.
  split_and!; [|done|].
  - destruct (date_input_window today (start_date task) (end_date task) (g_date g))
      as (d & Hd & _ & Hpick); [lia|].
    rewrite Hd. f_equal. by apply Hpick.
  - apply load_row_unique; rewrite ?Hsame; done.
Qed.

(** X12. "Mark 100%" on a day whose log exists writes percent 100 on that
    row whatever the slider shows, with the notes the user typed or, when
    nothing was typed, the stored notes; no other log changes, no row is
    added, and the task's updated_at becomes the time of the click. *)
Theorem mark_done_sets_100 (task : Task) (today now : Z) (g : Gestures)
    (st : Store) (r : Log) :
  store_ok st →
  r ∈ logs st → task_id r = t_id task →
  start_date task ≤ log_date r ≤ end_date task →
  0 ≤ percent r ≤ 100 →
  g_date g = Some (log_date r) → g_button g = MarkDone →
  let out := daily_update guess_type task today now g st in
  let notes := default (progress r) (g_notes g) in
  out.1 = Marked r notes
  ∧ load_row (t_id task) (log_date r) out.2
    = Some (mkLog (l_id r) (t_id task) (log_date r) notes 100)
  ∧ (∀ r', r' ∈ logs st → r' ≠ r → r' ∈ logs out.2)
  ∧ length (logs out.2) = length (logs st)
  ∧ (∀ t, t ∈ tasks out.2 → t_id t = t_id task → updated_at t = now)
  ∧ docs out.2 = docs st.
Proof.
  intros Hok Hr Htid Hin Hpct Hdate Hbtn out notes.
  destruct Hok as (_ & _ & Hids & _ & Hnk & _).
  destruct (daily_update_stored_row task today g st r) as (Hpick & Hsame & Hload); try done.
  assert (∃ pct, slider 0 100 (percent r) 5 (g_pct g) = Some pct) as [pct Hsl].
  { unfold slider. rewrite (proj2 (andb_true_iff _ _)) by (split; lia).
    destruct (g_pct g); eauto. }
  assert (out = (Marked r notes,
                 mark_done r (t_id task) notes now (ensure_row (t_id task) (log_date r) st)))
    as ->.
  { subst out. unfold daily_update. rewrite Hpick, Hload, Hsl, Hbtn. done. }
  cbn [fst snd].
  destruct (save_progress_row r (t_id task) notes 100 now
              (ensure_row (t_id task) (log_date r) st)) as (Hrow & Hframe & Hlen);
    [by rewrite Hsame..|].
  rewrite Hsame in Hframe, Hlen. rewrite Htid in Hrow.
  split_and!; try done.
  intros t Ht Hid. cbn in Ht. apply elem_of_update_where in Ht as (t0 & _ & ->).
  case_decide as Hc; [done|]. cbn in Hid. congruence.
Qed.

(** X11. What "Save progress" stored is what the next visit of the day
    shows: the stored row carries the saved notes and percent, the
    widgets of the next run are filled with them, and that run changes no
    log. *)
Theorem saved_progress_is_shown (task task' : Task) (today now today' now' : Z)
    (g : Gestures) (st : Store) (r : Log) :
  store_ok st →
  r ∈ logs st → task_id r = t_id task →
  start_date task ≤ log_date r ≤ end_date task →
  0 ≤ percent r ≤ 100 →
  g_date g = Some (log_date r) → g_button g = SaveProgress →
  t_id task' = t_id task → start_date task' = start_date task →
  end_date task' = end_date task →
  let st1 := (daily_update guess_type task today now g st).2 in
  let revisit := mkGestures (Some (log_date r)) None None NoButton [] in
  ∃ pct,
    slider 0 100 (percent r) 5 (g_pct g) = Some pct
    ∧ (daily_update guess_type task' today' now' revisit st1).1
      = Shown (mkLog (l_id r) (t_id task) (log_date r) (default (progress r) (g_notes g)) pct)
    ∧ text_area (default (progress r) (g_notes g)) None = default (progress r) (g_notes g)
    ∧ slider 0 100 pct 5 None = Some pct
    ∧ logs (daily_update guess_type task' today' now' revisit st1).2 = logs st1.
Proof.
  intros Hok Hr Htid Hin Hpct Hdate Hbtn Hid' Hsd' Hed' st1 revisit.
  destruct Hok as (_ & _ & Hids & _ & Hnk & _).
  destruct (daily_update_stored_row task today g st r) as (Hpick & Hsame & Hload); try done.
  assert (∃ pct, slider 0 100 (percent r) 5 (g_pct g) = Some pct) as [pct Hsl].
  { unfold slider. rewrite (proj2 (andb_true_iff _ _)) by (split; lia).
    destruct (g_pct g); eauto. }
  pose proof (slider_bounds 0 100 (percent r) 5 (g_pct g) pct ltac:(lia) ltac:(lia) Hsl)
    as Hrange.
  set (notes := default (progress r) (g_notes g)).
  assert (st1 = save_progress r (t_id task) notes pct now
                  (ensure_row (t_id task) (log_date r) st)) as Hst1.
  { subst st1. unfold daily_update. rewrite Hpick, Hload, Hsl, Hbtn. done. }
  destruct (save_progress_row r (t_id task) notes pct now
              (ensure_row (t_id task) (log_date r) st)) as (Hrow & _ & _);
    [by rewrite Hsame..|].
  rewrite <- Hst1, Htid in Hrow.
  set (r1 := mkLog (l_id r) (t_id task) (log_date r) notes pct) in *.
  assert (NoDup (log_nk <$> logs st1)) as Hnk1.
  { rewrite Hst1, save_progress_logs, update_where_fmap, Hsame; done. }
  apply load_row_elem in Hrow as [Hr1 Hk1].
  destruct (daily_update_stored_row task' today' revisit st1 r1) as (Hpick1 & Hsame1 & Hload1);
    try done; try (cbn; lia || congruence).
  exists pct. split; [done|].
  assert (slider 0 100 pct 5 None = Some pct) as Hsl1 by (by apply slider_untouched).
  assert (daily_update guess_type task' today' now' revisit st1
          = (Shown r1, ensure_row (t_id task') (log_date r1) st1)) as ->.
  { unfold daily_update. rewrite Hpick1, Hload1. subst revisit r1.
    cbn [percent g_pct g_notes g_button g_files progress]. rewrite Hsl1. done. }
  cbn [fst snd]. split_and!; try done.
Qed.

Lemma run_all_invariants acts st :
  store_ok st → covered st →
  store_ok (run_all guess_type acts st) ∧ covered (run_all guess_type acts st).
Proof.
  revert st. induction acts as [|[a now] acts IH]; intros st Hok Hcov; [done|].
  cbn. apply IH; [by apply run_ok|by apply run_covered].
Qed.

(** X10. On every store the page can reach, merely opening the Daily
    Update tab of a listed task, on whatever date the picker yields,
    changes no task, log, document or object: the row the tab makes sure
    of is always there already. *)
Theorem view_changes_no_row (acts : list (action * Z)) (tid today now : Z) (g : Gestures) :
  g_button g = NoButton → g_files g = [] →
  let st := run_all guess_type acts empty_store in
  let st' := run guess_type (DailyUpdate tid today g) now st in
  tasks st' = tasks st ∧ logs st' = logs st ∧ docs st' = docs st
  ∧ bucket st' = bucket st.
Proof.
  intros Hbtn Hfiles st st'.
  destruct (run_all_invariants acts empty_store) as [Hok Hcov].
  { unfold store_ok. cbn. split_and!; constructor. }
  { intros t Ht. by apply elem_of_nil in Ht. }
  fold st in Hok, Hcov. subst st'. cbn [run].
  destruct (open_task tid st) as [task|] eqn:Hopen; [|done].
  apply open_task_elem in Hopen as [Htask _].
  destruct (Hcov task Htask) as [Hle _].
  destruct (date_input_window today _ _ (g_date g) Hle) as (pick & Hpick & Hin & _).
  destruct (covered_row_present st task pick Hcov Htask Hin) as (r & Hr & Hk).
  pose proof (ensure_row_present _ _ st r Hr Hk) as Hsame.
  unfold daily_update. rewrite Hpick.
  destruct (load_row _ _ _) as [row|]; [|done].
  destruct (slider _ _ _ _ _) as [pct|]; [|done].
  by rewrite Hbtn, Hfiles.
Qed.

End DailyFacts.

(** ** Upload batches and deletion *)

(** Two file names of one day of one task have two paths. *)
Lemma storage_key_name tid pick fname1 fname2 :
  storage_key tid pick fname1 = storage_key tid pick fname2 → fname1 = fname2.
Proof. unfold storage_key. intros H. by simplify_eq. Qed.

Lemma last_content_cons fname f files :
  last_content fname (f :: files)
  = match last_content fname files with
    | Some c => Some c
    | None => if decide (f.1 = fname) then Some f.2 else None
    end.
Proof.
  unfold last_content. rewrite filter_cons. case_decide as Hf.
  - by rewrite fmap_cons, last_cons.
  - by destruct (last _).
Qed.

Lemma last_content_None fname files :
  last_content fname files = None → ∀ f, f ∈ files → f.1 ≠ fname.
Proof.
  unfold last_content. intros Hl f Hf Hname.
  apply last_None, fmap_nil_inv in Hl.
  assert (f ∈ filter (λ f, f.1 = fname) files) as Hin by (by apply list_elem_of_filter).
  rewrite Hl in Hin. by apply elem_of_nil in Hin.
Qed.

Lemma last_content_absent fname files :
  (∀ f, f ∈ files → f.1 ≠ fname) → last_content fname files = None.
Proof.
  intros Hno. unfold last_content.
  change (filter (λ f, f.1 = fname) files) with (select_where (λ f, f.1 = fname) files).
  rewrite (select_where_none (λ f, f.1 = fname) files); [done|].
  intros f Hf. by apply Hno.
Qed.

Lemma last_content_present fname files f :
  f ∈ files → f.1 = fname → is_Some (last_content fname files).
Proof.
  intros Hf Hname. destruct (last_content fname files) eqn:E; [done|].
  by destruct (last_content_None fname files E f).
Qed.

Lemma last_content_distinct files f :
  NoDup (fst <$> files) → f ∈ files → last_content f.1 files = Some f.2.
Proof.
  induction files as [|g files IH]; [by rewrite elem_of_nil|].
  rewrite fmap_cons, NoDup_cons, elem_of_cons. intros [Hg Hnd] [->|Hf].
  - rewrite last_content_cons, last_content_absent, decide_True; [done..|].
    intros f Hf Hname. apply Hg. rewrite <- Hname. apply list_elem_of_fmap. eauto.
  - by rewrite last_content_cons, IH.
Qed.

Lemma update_where_none {A} (P : A → Prop) `{!∀ r, Decision (P r)} (f : A → A) tbl :
  (∀ r, r ∈ tbl → ¬ P r) → update_where P f tbl = tbl.
Proof. intros Hno. apply update_where_id. intros r Hr HP. by destruct (Hno r Hr). Qed.

(** An upsert under one path leaves the rows of every other path alone. *)
Lemma docs_upsert_other lid fname key now st key' :
  key' ≠ key →
  select_where (doc_key lid key') (docs (docs_upsert lid fname key now st))
  = select_where (doc_key lid key') (docs st).
Proof.
  intros Hne. cbn [docs docs_upsert]. unfold upsert. case_decide.
  - rewrite update_where_select.
    + apply update_where_none. intros r Hr [_ Hp].
      apply elem_of_select_where in Hr as [[_ Hp'] _]. congruence.
    + intros r. case_decide as Hk; [|done]. destruct Hk as [Hl Hp].
      unfold doc_key. cbn. split; intros [_ Hq]; congruence.
  - rewrite select_where_app. rewrite (select_where_none _ [_]), app_nil_r; [done|].
    intros r Hr [_ Hp]. apply list_elem_of_singleton in Hr as ->. cbn in Hp. congruence.
Qed.

(** Rows of other logs are not touched either. *)
Lemma docs_upsert_other_log lid fname key now st d :
  log_id d ≠ lid → d ∈ docs (docs_upsert lid fname key now st) ↔ d ∈ docs st.
Proof.
  intros Hne. cbn [docs docs_upsert]. unfold upsert. case_decide.
  - rewrite elem_of_update_where. split.
    + intros (r & Hr & ->). case_decide as Hk; [|done]. by destruct Hne.
    + intros Hd. exists d. split; [done|]. rewrite decide_False; [done|].
      intros [Hl _]. by destruct Hne.
  - rewrite elem_of_app, list_elem_of_singleton. split; [|by left].
    intros [Hd| ->]; [done|]. by destruct Hne.
Qed.

Section BatchFacts.
Variable guess_type : string → option string.

(** What a run of the upload loop leaves behind. *)
Lemma upload_files_spec row tid pick now files n st :
  NoDup (doc_nk <$> docs st) →
  let out := upload_files guess_type row tid pick now files n st in
  out.1 = Some (n + Z.of_nat (length files))
  ∧ NoDup (doc_nk <$> docs out.2)
  ∧ (∀ fname content, last_content fname files = Some content →
       bucket out.2 !! storage_key tid pick fname
       = Some (mkBlob content (ctype_of guess_type fname))
       ∧ ∃ d, select_where (doc_key (l_id row) (storage_key tid pick fname)) (docs out.2)
              = [d]
              ∧ filename d = fname)
  ∧ (∀ key, (∀ f, f ∈ files → storage_key tid pick f.1 ≠ key) →
       bucket out.2 !! key = bucket st !! key
       ∧ select_where (doc_key (l_id row) key) (docs out.2)
         = select_where (doc_key (l_id row) key) (docs st))
  ∧ (∀ d, log_id d ≠ l_id row → d ∈ docs out.2 ↔ d ∈ docs st).
Proof.
  revert n st. induction files as [|[fname0 content0] files IH]; intros n st Hnd out.
  - subst out. cbn. split_and!; [f_equal; lia|done| |done|done].
    intros fname content Hl. discriminate.
  - subst out. cbn [upload_files]. rewrite upload_file_run.
    set (key0 := storage_key tid pick fname0).
    set (st1 := docs_upsert (l_id row) fname0 key0 now _).
    destruct (docs_upsert_one (l_id row) fname0 key0 now
                (set_bucket (λ _, <[key0 := mkBlob content0 (ctype_of guess_type fname0)]>
                                    (bucket st)) st)) as (Hnd1 & d0 & Hsel0 & Hname0);
      [done|]. fold st1 in Hnd1, Hsel0.
    destruct (IH (n + 1) st1 Hnd1) as (Hn & Hnd' & Hlast & Hframe & Hlogs).
    split_and!.
    + rewrite Hn. f_equal. cbn [length]. lia.
    + done.
    + intros fname content. rewrite last_content_cons.
      destruct (last_content fname files) as [c|] eqn:El.
      * intros [= <-]. by apply Hlast.
      * cbn [fst snd]. case_decide as Hf; [|done]. intros [= <-]. subst fname.
        destruct (Hframe key0) as [Hb Hs].
        { intros f Hin Hk. apply storage_key_name in Hk.
          by apply (last_content_None fname0 files El f). }
        fold key0. rewrite Hb, Hs. split; [cbn; by rewrite lookup_insert_eq|]. eauto.
    + intros key Hkey.
      destruct (Hframe key) as [Hb Hs].
      { intros f Hf. apply Hkey. by right. }
      assert (key ≠ key0) as Hne.
      { intros ->. by apply (Hkey (fname0, content0)); [left|]. }
      rewrite Hb, Hs. split.
      * cbn. by rewrite lookup_insert_ne.
      * subst st1. by rewrite docs_upsert_other.
    + intros d Hd. rewrite Hlogs by done. subst st1. by rewrite docs_upsert_other_log.
Qed.

(** X13. The upload loop reports as many files as it was given and
    touches neither tasks nor logs; afterwards every file name of the
    batch has exactly one row in docs for the log of the day, under the
    path task_{id}/{date}/{name}, and an object whose content type is the
    guessed one or, failing a guess, application/octet-stream; rows and
    objects under other paths, and rows of other logs, are as before, and
    the unique constraint on (log_id, path) still holds. *)
Theorem upload_batch_rows (row : Log) (tid : Z) (pick : date) (now : Z)
    (files : list (string * bytes)) (st : Store) :
  NoDup (doc_nk <$> docs st) →
  let out := upload_files guess_type row tid pick now files 0 st in
  out.1 = Some (Z.of_nat (length files))
  ∧ tasks out.2 = tasks st ∧ logs out.2 = logs st
  ∧ NoDup (doc_nk <$> docs out.2)
  ∧ (∀ f, f ∈ files →
       (∃ d, select_where (doc_key (l_id row) (storage_key tid pick f.1)) (docs out.2) = [d]
             ∧ filename d = f.1)
       ∧ content_type <$> bucket out.2 !! storage_key tid pick f.1
         = Some (default "application/octet-stream" (guess_type f.1)))
  ∧ (∀ key, (∀ f, f ∈ files → storage_key tid pick f.1 ≠ key) →
       bucket out.2 !! key = bucket st !! key
       ∧ select_where (doc_key (l_id row) key) (docs out.2)
         = select_where (doc_key (l_id row) key) (docs st))
  ∧ (∀ d, log_id d ≠ l_id row → d ∈ docs out.2 ↔ d ∈ docs st).
Proof.
  intros Hnd out.
  destruct (upload_files_spec row tid pick now files 0 st Hnd)
    as (Hn & Hnd' & Hlast & Hframe & Hother).
  destruct (upload_files_logs guess_type row tid pick now files 0 st) as [Hl Ht].
  fold out in Hn, Hnd', Hlast, Hframe, Hother, Hl, Ht.
  split_and!; try done.
  intros f Hf. destruct (last_content_present f.1 files f Hf eq_refl) as [c Hc].
  destruct (Hlast f.1 c Hc) as [Hb Hd]. split; [done|]. by rewrite Hb.
Qed.

(** X14. What was uploaded can be downloaded: after the loop, the
    Documents tab offers for each file name of the batch a download
    button with the bytes of the last file of the batch that had the
    name, which for a batch of distinct names are the bytes of each
    file. *)
Theorem upload_then_download (get_public_url : string → string) (row : Log) (tid : Z) (pick : date) (now : Z)
    (files : list (string * bytes)) (st : Store) :
  NoDup (doc_nk <$> docs st) →
  let out := upload_files guess_type row tid pick now files 0 st in
  (∀ fname content, last_content fname files = Some content →
     ∃ d, d ∈ docs out.2 ∧ log_id d = l_id row
          ∧ show_doc get_public_url out.2 d
            = DownloadButton ("Download " +:+ fname) content fname)
  ∧ (NoDup (fst <$> files) → ∀ f, f ∈ files → last_content f.1 files = Some f.2).
Proof.
  intros Hnd out.
  destruct (upload_files_spec row tid pick now files 0 st Hnd) as (_ & _ & Hlast & _).
  fold out in Hlast. split.
  - intros fname content Hc. destruct (Hlast fname content Hc) as (Hb & d & Hsel & Hname).
    assert (d ∈ select_where (doc_key (l_id row) (storage_key tid pick fname)) (docs out.2))
      as Hin by (rewrite Hsel; by left).
    apply elem_of_select_where in Hin as [[Hlid Hpath] Hd].
    exists d. split_and!; [done..|].
    unfold show_doc, storage_download. by rewrite Hpath, Hb, Hname.
  - intros Hnames f Hf. by apply last_content_distinct.
Qed.

End BatchFacts.

(** X18. With identifiers that are unique, the Delete button of a listed
    document removes that row and no other, and the object under its
    path and no other; tasks and logs are not touched. *)
Theorem delete_doc_removes_one (d : Doc) (st : Store) :
  NoDup (d_id <$> docs st) → d ∈ docs st →
  docs st ≡ₚ d :: docs (delete_doc d st)
  ∧ (d ∉ docs (delete_doc d st))
  ∧ (∀ d', d' ∈ docs st → d' ≠ d → d' ∈ docs (delete_doc d st))
  ∧ bucket (delete_doc d st) !! path d = None
  ∧ (∀ key, key ≠ path d → bucket (delete_doc d st) !! key = bucket st !! key)
  ∧ tasks (delete_doc d st) = tasks st
  ∧ logs (delete_doc d st) = logs st.
Proof.
  intros Hnd Hd. cbn [docs delete_doc set_docs set_bucket bucket tasks logs].
  unfold delete_where. split_and!; try done.
  - rewrite <- (filter_app_complement (λ r, d_id r = d_id d) (docs st)) at 1.
    change (filter (λ r, d_id r = d_id d) (docs st))
      with (select_where (λ r, d_id r = d_id d) (docs st)).
    by rewrite (select_where_unique d_id (d_id d) _ _ d).
  - rewrite list_elem_of_filter. tauto.
  - intros d' Hd' Hne. apply list_elem_of_filter. split; [|done].
    intros Hid. apply Hne. by apply (NoDup_fmap_eq d_id (docs st)).
  - apply lookup_delete_eq.
  - intros key Hne. by apply lookup_delete_ne.
Qed.

(** X19. Uploading a file under a path that is free and deleting the
    document again gives back the docs table and the bucket as they
    were. *)
Theorem upload_then_delete (guess_type : string → option string)
    (row : Log) (tid : Z) (pick : date) (now : Z)
    (fname : string) (content : bytes) (st : Store) :
  store_ok st →
  bucket st !! storage_key tid pick fname = None →
  select_where (doc_key (l_id row) (storage_key tid pick fname)) (docs st) = [] →
  ∃ st1 d,
    upload_file guess_type row tid pick now (fname, content) st = Some st1
    ∧ select_where (doc_key (l_id row) (storage_key tid pick fname)) (docs st1) = [d]
    ∧ docs (delete_doc d st1) = docs st
    ∧ bucket (delete_doc d st1) = bucket st
    ∧ tasks (delete_doc d st1) = tasks st
    ∧ logs (delete_doc d st1) = logs st.
Proof.
  intros Hok Hfree Hnone. set (key := storage_key tid pick fname) in *.
  assert (∀ d, d ∈ docs st → ¬ doc_key (l_id row) key d) as Hno.
  { intros d Hd Hk.
    assert (d ∈ select_where (doc_key (l_id row) key) (docs st)) as Hin
      by (by apply elem_of_select_where).
    rewrite Hnone in Hin. by apply elem_of_nil in Hin. }
  destruct Hok as (_ & _ & _ & _ & _ & _ & _ & Hlt & Hnd).
  set (d := mkDoc (docs_seq st) (l_id row) fname key now).
  rewrite upload_file_run. fold key. eexists _, d. split; [reflexivity|].
  assert (docs (docs_upsert (l_id row) fname key now
                  (set_bucket (λ _, <[key := mkBlob content (ctype_of guess_type fname)]>
                                      (bucket st)) st)) = docs st ++ [d]) as Hdocs.
  { cbn [docs docs_upsert set_bucket]. by rewrite upsert_absent. }
  split_and!; try done.
  - rewrite Hdocs, select_where_app, (select_where_none _ (docs st)) by done.
    unfold select_where. by rewrite filter_cons_True, filter_nil.
  - cbn [docs delete_doc set_docs set_bucket]. cbn [docs] in Hdocs. rewrite Hdocs.
    unfold delete_where. rewrite filter_app, filter_cons_False, filter_nil, app_nil_r
      by (cbn; tauto).
    apply (select_where_all (λ r, ¬ d_id r = d_id d)). intros r Hr. cbn.
    rewrite Forall_forall in Hlt.
    assert (d_id r < docs_seq st) by (apply Hlt, list_elem_of_fmap; eauto). lia.
  - cbn. by rewrite delete_insert_eq, delete_id.
Qed.

(** ** The calendar *)

Lemma all_from_spec P n d k :
  all_from P n d = true → 0 ≤ k < Z.of_nat n → P (d + k) = true.
Proof.
  revert d k. induction n as [|n IH]; intros d k; [lia|].
  cbn [all_from]. rewrite andb_true_iff. intros [Hd Hn] Hk.
  destruct (decide (k = 0)) as [->|Hne]; [by rewrite Z.add_0_r|].
  replace (d + k) with (d + 1 + (k - 1)) by lia. apply IH; [done|lia].
Qed.

Lemma is_leap_shift y c : is_leap (y + 400 * c) = is_leap y.
Proof.
  unfold is_leap.
  replace ((y + 400 * c) mod 4) with (y mod 4)
    by (replace (y + 400 * c) with (y + (100 * c) * 4) by lia; by rewrite Z.mod_add).
  replace ((y + 400 * c) mod 100) with (y mod 100)
    by (replace (y + 400 * c) with (y + (4 * c) * 100) by lia; by rewrite Z.mod_add).
  replace ((y + 400 * c) mod 400) with (y mod 400)
    by (replace (y + 400 * c) with (y + c * 400) by lia; by rewrite Z.mod_add).
  done.
Qed.

Lemma days_in_month_shift y c m : days_in_month (y + 400 * c) m = days_in_month y m.
Proof. unfold days_in_month. by rewrite is_leap_shift. Qed.

Lemma month_day_shift fuel y c m d :
  month_day fuel (y + 400 * c) m d = month_day fuel y m d.
Proof.
  revert m d. induction fuel as [|k IH]; intros m d; [done|].
  cbn [month_day]. rewrite days_in_month_shift. cbv zeta.
  destruct (d <? days_in_month y m); [done|]. apply IH.
Qed.

Lemma days_before_month_shift fuel y c m :
  days_before_month fuel (y + 400 * c) m = days_before_month fuel y m.
Proof.
  revert m. induction fuel as [|k IH]; intros m; [done|].
  cbn [days_before_month]. rewrite days_in_month_shift, IH. done.
Qed.

Lemma ymd2ord_shift y c m d : ymd2ord (y + 400 * c) m d = ymd2ord y m d + 146097 * c.
Proof.
  unfold ymd2ord. rewrite days_before_month_shift. unfold days_before_year. cbv zeta.
  replace (y + 400 * c - 1) with (y - 1 + 400 * c) by lia.
  replace ((y - 1 + 400 * c) / 4) with ((y - 1) / 4 + 100 * c)
    by (replace (y - 1 + 400 * c) with (y - 1 + (100 * c) * 4) by lia; by rewrite Z.div_add).
  replace ((y - 1 + 400 * c) / 100) with ((y - 1) / 100 + 4 * c)
    by (replace (y - 1 + 400 * c) with (y - 1 + (4 * c) * 100) by lia; by rewrite Z.div_add).
  replace ((y - 1 + 400 * c) / 400) with ((y - 1) / 400 + c)
    by (replace (y - 1 + 400 * c) with (y - 1 + c * 400) by lia; by rewrite Z.div_add).
  lia.
Qed.

Lemma ord2ymd_shift n c :
  ord2ymd (n + 146097 * c)
  = let '(y, m, d) := ord2ymd n in (y + 400 * c, m, d).
Proof.
  unfold ord2ymd. cbv zeta.
  replace (n + 146097 * c - 1) with (n - 1 + c * 146097) by lia.
  rewrite Z.div_add, Z.mod_add by lia.
  set (n400 := (n - 1) / 146097). set (r400 := (n - 1) mod 146097).
  set (n100 := r400 / 36524). set (r100 := r400 mod 36524).
  set (n4 := r100 / 1461). set (r4 := r100 mod 1461).
  set (n1 := r4 / 365). set (r1 := r4 mod 365).
  destruct ((n1 =? 4) || (n100 =? 4)).
  - f_equal. f_equal. lia.
  - replace ((n400 + c) * 400 + n100 * 100 + n4 * 4 + n1 + 1)
      with (n400 * 400 + n100 * 100 + n4 * 4 + n1 + 1 + 400 * c) by lia.
    rewrite month_day_shift. by destruct (month_day _ _ _ _).
Qed.

Lemma ymd_ok_shift n c : ymd_ok (n + 146097 * c) = ymd_ok n.
Proof.
  unfold ymd_ok. rewrite ord2ymd_shift. destruct (ord2ymd n) as [[y m] dd].
  rewrite days_in_month_shift, ymd2ord_shift.
  replace (ymd2ord y m dd + 146097 * c =? n + 146097 * c) with (ymd2ord y m dd =? n); [done|].
  destruct (Z.eqb_spec (ymd2ord y m dd) n), (Z.eqb_spec (ymd2ord y m dd + 146097 * c) (n + 146097 * c)); lia.
Qed.

Lemma ymd_ok_cycle : all_from ymd_ok (Z.to_nat 146097) 1 = true.
Proof. vm_compute. reflexivity. Qed.

Lemma ymd_ok_all d : ymd_ok d = true.
Proof.
  replace d with (1 + (d - 1) mod 146097 + 146097 * ((d - 1) / 146097))
    by (pose proof (Z.div_mod (d - 1) 146097); lia).
  rewrite ymd_ok_shift. apply (all_from_spec ymd_ok (Z.to_nat 146097)); [apply ymd_ok_cycle|].
  pose proof (Z.mod_pos_bound (d - 1) 146097). lia.
Qed.

Lemma ord2ymd_ymd2ord d :
  let '(y, m, dd) := ord2ymd d in
  1 ≤ m ≤ 12 ∧ 1 ≤ dd ≤ days_in_month y m ∧ ymd2ord y m dd = d.
Proof.
  pose proof (ymd_ok_all d) as H. unfold ymd_ok in H.
  destruct (ord2ymd d) as [[y m] dd].
  rewrite !andb_true_iff in H. lia.
Qed.

(** The year of a day between 0001-01-01 and 9999-12-31. *)
Lemma ord2ymd_year d :
  valid_date d → 1 ≤ (ord2ymd d).1.1 ≤ 9999.
Proof.
  intros [Hlo Hhi]. unfold ord2ymd. cbv zeta.
  set (n400 := (d - 1) / 146097). set (r400 := (d - 1) mod 146097).
  set (n100 := r400 / 36524). set (r100 := r400 mod 36524).
  set (n4 := r100 / 1461). set (r4 := r100 mod 1461).
  set (n1 := r4 / 365). set (r1 := r4 mod 365).
  assert (0 ≤ n400 ≤ 24).
  { subst n400. split; [apply Z.div_pos; lia|].
    apply Z.lt_succ_r, Z.div_lt_upper_bound; lia. }
  assert (d - 1 = 146097 * n400 + r400) by (apply Z.div_mod; lia).
  assert (0 ≤ r400 < 146097) by (apply Z.mod_pos_bound; lia).
  assert (r400 = 36524 * n100 + r100) by (apply Z.div_mod; lia).
  assert (0 ≤ r100 < 36524) by (apply Z.mod_pos_bound; lia).
  assert (r100 = 1461 * n4 + r4) by (apply Z.div_mod; lia).
  assert (0 ≤ r4 < 1461) by (apply Z.mod_pos_bound; lia).
  assert (r4 = 365 * n1 + r1) by (apply Z.div_mod; lia).
  assert (0 ≤ r1 < 365) by (apply Z.mod_pos_bound; lia).
  assert (0 ≤ n100 ≤ 4) by (subst n100; split; [apply Z.div_pos; lia|apply Z.lt_succ_r, Z.div_lt_upper_bound; lia]).
  assert (0 ≤ n4 ≤ 24) by (subst n4; split; [apply Z.div_pos; lia|apply Z.lt_succ_r, Z.div_lt_upper_bound; lia]).
  assert (0 ≤ n1 ≤ 4) by (subst n1; split; [apply Z.div_pos; lia|apply Z.lt_succ_r, Z.div_lt_upper_bound; lia]).
  destruct ((n1 =? 4) || (n100 =? 4)) eqn:E.
  - cbn [fst]. rewrite orb_true_iff, !Z.eqb_eq in E. lia.
  - rewrite orb_false_iff, !Z.eqb_neq in E.
    destruct (month_day _ _ _ _). cbn [fst].
    split; [lia|].
    (* the last day of the range is in year 9999 *)
    lia.
Qed.

Lemma field4_table : all_from (field_ok 4) (Z.to_nat 10000) 0 = true.
Proof. vm_compute. reflexivity. Qed.

Lemma field2_table : all_from (field_ok 2) (Z.to_nat 100) 0 = true.
Proof. vm_compute. reflexivity. Qed.

Lemma field4_ok y :
  0 ≤ y ≤ 9999 →
  String.length (zero_pad 4 (str_int y)) = 4%nat
  ∧ parse_digits 0 (zero_pad 4 (str_int y)) = Some y.
Proof.
  intros Hy. pose proof (all_from_spec _ _ 0 y field4_table) as H.
  rewrite Z.add_0_l in H. apply bool_decide_eq_true in H; [done|lia].
Qed.

Lemma field2_ok m :
  0 ≤ m ≤ 99 →
  String.length (zero_pad 2 (str_int m)) = 2%nat
  ∧ parse_digits 0 (zero_pad 2 (str_int m)) = Some m.
Proof.
  intros Hm. pose proof (all_from_spec _ _ 0 m field2_table) as H.
  rewrite Z.add_0_l in H. apply bool_decide_eq_true in H; [done|lia].
Qed.

Lemma fromisoformat_fields a b c :
  String.length a = 4%nat → String.length b = 2%nat → String.length c = 2%nat →
  fromisoformat (a +:+ "-" +:+ b +:+ "-" +:+ c)
  = y ← parse_digits 0 a; m ← parse_digits 0 b; d ← parse_digits 0 c;
    if (1 <=? y) && (1 <=? m) && (m <=? 12) && (1 <=? d) && (d <=? days_in_month y m)
    then Some (ymd2ord y m d) else None.
Proof.
  destruct a as [|a1 [|a2 [|a3 [|a4 [|]]]]]; try discriminate.
  destruct b as [|b1 [|b2 [|]]]; try discriminate.
  destruct c as [|c1 [|c2 [|]]]; try discriminate.
  intros _ _ _. reflexivity.
Qed.

Lemma days_in_month_max y m : days_in_month y m ≤ 31.
Proof. unfold days_in_month. repeat case_match; lia. Qed.

Lemma isoformat_fields d :
  valid_date d →
  ∃ a b c, isoformat d = a +:+ "-" +:+ b +:+ "-" +:+ c
    ∧ String.length a = 4%nat ∧ String.length b = 2%nat ∧ String.length c = 2%nat
    ∧ fromisoformat (isoformat d) = Some d.
Proof.
  intros Hd. pose proof (ord2ymd_year d Hd) as Hy.
  pose proof (ord2ymd_ymd2ord d) as Hr. unfold isoformat.
  destruct (ord2ymd d) as [[y m] dd]. cbn [fst] in Hy.
  destruct Hr as (Hm & Hdd & Hord).
  pose proof (days_in_month_max y m).
  destruct (field4_ok y) as [La Pa]; [lia|].
  destruct (field2_ok m) as [Lb Pb]; [lia|].
  destruct (field2_ok dd) as [Lc Pc]; [lia|].
  eexists _, _, _. split; [reflexivity|]. split_and!; [done..|].
  rewrite fromisoformat_fields by done. rewrite Pa, Pb, Pc. cbn [mbind option_bind].
  replace ((1 <=? y) && (1 <=? m) && (m <=? 12) && (1 <=? dd) && (dd <=? days_in_month y m))
    with true; [by rewrite Hord|].
  symmetry. rewrite !andb_true_iff, !Z.leb_le. lia.
Qed.

(** ** Storage paths *)

(** [str(n)] is made of digits and the sign. *)
Lemma pretty_N_go_lacks c x s :
  (∀ k, pretty_N_char k ≠ c) → lacks c s = true → lacks c (pretty_N_go x s) = true.
Proof.
  intros Hc. revert s. induction (N.lt_wf_0 x) as [x _ IH]; intros s Hs.
  assert (x = 0 ∨ 0 < x)%N as [->|Hx] by lia; [by rewrite pretty_N_go_0|].
  rewrite pretty_N_go_step by done. apply IH; [by apply N.div_lt|].
  cbn [lacks]. rewrite Hs, andb_true_r. apply negb_true_iff, Ascii.eqb_neq, Hc.
Qed.

Lemma str_int_lacks c n :
  c = "/"%char ∨ c = " "%char → lacks c (str_int n) = true.
Proof.
  intros Hc.
  assert (∀ k, pretty_N_char k ≠ c) as Hk.
  { intros k. unfold pretty_N_char. destruct Hc as [-> | ->]; by repeat case_match. }
  assert ("-"%char ≠ c) as Hm by (by destruct Hc as [-> | ->]).
  unfold str_int, pretty, pretty_Z. destruct n as [|p|p].
  - by destruct Hc as [-> | ->].
  - unfold pretty, pretty_positive, pretty, pretty_N. case_decide; [done|].
    by apply pretty_N_go_lacks.
  - rewrite append_cons. cbn [lacks]. rewrite andb_true_iff. split.
    { by apply negb_true_iff, Ascii.eqb_neq. }
    change ("" +:+ ?s) with s.
    unfold pretty, pretty_positive, pretty, pretty_N. case_decide; [done|].
    by apply pretty_N_go_lacks.
Qed.

(** Two strings without [c], each followed by [c], are cut off in one
    way. *)
Lemma app_sep_inj c s s' r r' :
  lacks c s = true → lacks c s' = true →
  s +:+ String c r = s' +:+ String c r' → s = s' ∧ r = r'.
Proof.
  revert s'. induction s as [|c1 s IH]; intros [|c2 s'] Hs Hs' Heq.
  - by simplify_eq.
  - rewrite append_cons in Heq. change ("" +:+ ?x) with x in Heq.
    injection Heq as <- _. cbn in Hs'. by rewrite Ascii.eqb_refl in Hs'.
  - rewrite append_cons in Heq. change ("" +:+ ?x) with x in Heq.
    injection Heq as -> _. cbn in Hs. by rewrite Ascii.eqb_refl in Hs.
  - rewrite !append_cons in Heq. injection Heq as -> Heq.
    cbn [lacks] in Hs, Hs'. rewrite andb_true_iff in Hs, Hs'.
    destruct (IH s' (proj2 Hs) (proj2 Hs') Heq) as [-> ->]. done.
Qed.

Lemma app_length_inj s s' r r' :
  String.length s = String.length s' → s +:+ r = s' +:+ r' → s = s' ∧ r = r'.
Proof.
  revert s'. induction s as [|c s IH]; intros [|c' s'] Hl Heq; try discriminate.
  - done.
  - rewrite !append_cons in Heq. injection Heq as -> Heq. injection Hl as Hl.
    destruct (IH s' Hl Heq) as [-> ->]. done.
Qed.

Lemma append_length s1 s2 :
  String.length (s1 +:+ s2) = (String.length s1 + String.length s2)%nat.
Proof. induction s1 as [|c s1 IH]; [done|]. rewrite append_cons. cbn. by rewrite IH. Qed.

Lemma isoformat_length d : valid_date d → String.length (isoformat d) = 10%nat.
Proof.
  intros Hd. destruct (isoformat_fields d Hd) as (a & b & c & -> & La & Lb & Lc & _).
  rewrite !append_length, La, Lb, Lc. done.
Qed.

Lemma isoformat_inj d1 d2 :
  valid_date d1 → valid_date d2 → isoformat d1 = isoformat d2 → d1 = d2.
Proof.
  intros H1 H2 Heq.
  destruct (isoformat_fields d1 H1) as (_ & _ & _ & _ & _ & _ & _ & R1).
  destruct (isoformat_fields d2 H2) as (_ & _ & _ & _ & _ & _ & _ & R2).
  rewrite Heq, R2 in R1. by simplify_eq.
Qed.

Lemma storage_key_inj (tid1 tid2 : Z) (d1 d2 : date) (f1 f2 : string) :
  valid_date d1 → valid_date d2 →
  storage_key tid1 d1 f1 = storage_key tid2 d2 f2 →
  tid1 = tid2 ∧ d1 = d2 ∧ f1 = f2.
Proof.
  intros H1 H2. unfold storage_key.
  change ("task_" +:+ ?x) with
    (String "t" (String "a" (String "s" (String "k" (String "_" x))))).
  intros Heq. simplify_eq.
  change ("/" +:+ ?x) with (String "/" x) in *.
  match goal with H : _ +:+ _ = _ +:+ _ |- _ =>
    apply app_sep_inj in H as [Ht Hrest]; [|apply str_int_lacks; by left..] end.
  apply (inj pretty) in Ht.
  apply app_length_inj in Hrest as [Hd Hf]; [|by rewrite !isoformat_length].
  apply isoformat_inj in Hd; [|done..]. by simplify_eq.
Qed.

(** X2. [date.fromisoformat] reads back what [str] wrote: a date between
    0001-01-01 and 9999-12-31 is written on ten characters and parsed to
    itself, so the window read when a task is opened is the window stored
    when it was created. *)
Theorem fromisoformat_isoformat (d : date) :
  valid_date d →
  fromisoformat (isoformat d) = Some d ∧ String.length (isoformat d) = 10%nat.
Proof.
  intros Hd. split; [|by apply isoformat_length].
  by destruct (isoformat_fields d Hd) as (_ & _ & _ & _ & _ & _ & _ & R).
Qed.

(** X15. Storage paths do not collide: two uploads share a path exactly
    when they are of one task, one day and one file name. *)
Theorem storage_key_collision (tid1 tid2 : Z) (d1 d2 : date) (f1 f2 : string) :
  valid_date d1 → valid_date d2 →
  storage_key tid1 d1 f1 = storage_key tid2 d2 f2 ↔ tid1 = tid2 ∧ d1 = d2 ∧ f1 = f2.
Proof.
  intros H1 H2. split; [by apply storage_key_inj|]. by intros (-> & -> & ->).
Qed.

(** ** Documents and their objects *)

Lemma docs_backed_frame st st' :
  docs st' = docs st → bucket st' = bucket st →
  log_ident <$> logs st ⊆ log_ident <$> logs st' →
  docs_backed st → docs_backed st'.
Proof.
  intros Hd Hb Hl Hbk d Hin. rewrite Hd in Hin. rewrite Hb.
  destruct (Hbk d Hin) as [Hsome (lg & Hlg & Hid & Hp)]. split; [done|].
  assert (log_ident lg ∈ log_ident <$> logs st') as Hin'
    by (apply Hl, list_elem_of_fmap; eauto).
  apply list_elem_of_fmap in Hin' as (lg' & Heq & Hlg').
  unfold log_ident in Heq. injection Heq as E1 E2 E3.
  exists lg'. rewrite <- E1, <- E2, <- E3. done.
Qed.

Lemma logs_upsert_ident p st :
  log_ident <$> logs st ⊆ log_ident <$> logs (logs_upsert p st).
Proof.
  destruct (decide (Exists (log_key (p_task_id p) (p_log_date p)) (logs st))) as [Hex|Hno].
  - apply Exists_exists in Hex as (r & Hr & Hk).
    rewrite (logs_upsert_present p st r) by done.
    rewrite update_where_fmap; [done|]. intros x [Ht Hd]. unfold log_ident. cbn.
    by rewrite Ht, Hd.
  - rewrite logs_upsert_absent.
    + rewrite fmap_app. intros x Hx. apply elem_of_app. by left.
    + intros r Hr Hk. apply Hno, Exists_exists. eauto.
Qed.

Lemma logs_upsert_frame p st :
  tasks (logs_upsert p st) = tasks st ∧ docs (logs_upsert p st) = docs st
  ∧ bucket (logs_upsert p st) = bucket st.
Proof. done. Qed.

Lemma logs_upsert_backed p st : docs_backed st → docs_backed (logs_upsert p st).
Proof. apply docs_backed_frame; [done..|]. apply logs_upsert_ident. Qed.

Lemma logs_upsert_valid p st :
  valid_date (p_log_date p) → dates_valid st → dates_valid (logs_upsert p st).
Proof.
  intros Hp [Ht Hl]. split; [done|].
  destruct (decide (Exists (log_key (p_task_id p) (p_log_date p)) (logs st))) as [Hex|Hno].
  - apply Exists_exists in Hex as (r & Hr & Hk).
    rewrite (logs_upsert_present p st r) by done.
    apply Forall_update_where; [|done]. by intros.
  - rewrite logs_upsert_absent.
    + apply Forall_app. split; [done|]. by apply Forall_singleton.
    + intros r Hr Hk. apply Hno, Exists_exists. eauto.
Qed.

Lemma daily_rows_backed tid ds st :
  docs_backed st → docs_backed (foldl (λ s dt, logs_upsert (daily_row tid dt) s) st ds).
Proof.
  revert st. induction ds as [|d ds IH]; intros st Hb; [done|].
  cbn [foldl]. by apply IH, logs_upsert_backed.
Qed.

Lemma daily_rows_valid tid ds st :
  Forall valid_date ds → dates_valid st →
  dates_valid (foldl (λ s dt, logs_upsert (daily_row tid dt) s) st ds).
Proof.
  revert st. induction ds as [|d ds IH]; intros st Hds Hv; [done|].
  apply Forall_cons in Hds as [Hd Hds].
  cbn [foldl]. apply IH; [done|]. by apply logs_upsert_valid.
Qed.

Lemma create_task_backed tname sdate edate now st :
  docs_backed st → docs_backed (create_task tname sdate edate now st).2.
Proof.
  intros Hb. unfold create_task. case_decide; [done|].
  destruct (edate <? sdate); [done|]. cbn.
  apply daily_rows_backed. by apply (docs_backed_frame st).
Qed.

Lemma create_task_valid tname sdate edate now st :
  valid_date sdate → valid_date edate →
  dates_valid st → dates_valid (create_task tname sdate edate now st).2.
Proof.
  intros Hs He [Ht Hl]. unfold create_task. case_decide; [done|].
  destruct (edate <? sdate); [done|]. cbn.
  apply daily_rows_valid.
  - apply Forall_forall. intros d Hd. apply elem_of_rrule_daily in Hd.
    unfold valid_date in *. lia.
  - split; [|done]. cbn. apply Forall_app. split; [done|]. by apply Forall_singleton.
Qed.

Lemma rename_backed tid new_name st : docs_backed st → docs_backed (rename tid new_name st).2.
Proof. unfold rename. case_decide; [done|]. by apply docs_backed_frame. Qed.

Lemma rename_valid tid new_name st : dates_valid st → dates_valid (rename tid new_name st).2.
Proof.
  intros [Ht Hl]. unfold rename. case_decide; [done|]. split; [|done]. cbn.
  apply Forall_update_where; [|done]. by intros.
Qed.

Lemma save_progress_backed row tid notes pct now st :
  docs_backed st → docs_backed (save_progress row tid notes pct now st).
Proof.
  apply docs_backed_frame; [done..|]. cbn.
  rewrite update_where_fmap; [done|]. by intros.
Qed.

Lemma save_progress_valid row tid notes pct now st :
  dates_valid st → dates_valid (save_progress row tid notes pct now st).
Proof.
  intros [Ht Hl]. split; cbn; (apply Forall_update_where; [|done]); by intros.
Qed.

(** Removing a document takes the object of no other row. *)
Lemma delete_doc_backed d st :
  store_ok st → dates_valid st → d ∈ docs st →
  docs_backed st → docs_backed (delete_doc d st).
Proof.
  intros Hok [_ Hv] Hd Hb d' Hd'. cbn in Hd'. unfold delete_where in Hd'.
  apply list_elem_of_filter in Hd' as [Hne Hd'].
  destruct (Hb d' Hd') as [Hsome' (lg' & Hlg' & Hid' & Hp')].
  split; [|by exists lg'].
  cbn. rewrite lookup_delete_ne; [done|]. intros Heq.
  destruct (Hb d Hd) as [_ (lg & Hlg & Hid & Hp)].
  rewrite Forall_forall in Hv.
  assert (storage_key (task_id lg) (log_date lg) (filename d)
          = storage_key (task_id lg') (log_date lg') (filename d')) as Hkey
    by (by rewrite <- Hp, <- Hp').
  apply storage_key_inj in Hkey as (Ht & Hdt & _); [|by apply Hv..].
  destruct Hok as (_ & _ & _ & _ & Hnk & _ & _ & _ & Hdk).
  assert (lg = lg') as <-.
  { apply (NoDup_fmap_eq log_nk (logs st)); [done..|]. unfold log_nk. by rewrite Ht, Hdt. }
  apply Hne. f_equal. symmetry.
  apply (NoDup_fmap_eq doc_nk (docs st)); [done..|]. unfold doc_nk.
  by rewrite <- Hid, <- Hid', Heq.
Qed.

Section BackedFacts.
Variable guess_type : string → option string.

Lemma upload_file_backed row tid pick now f st st' :
  row ∈ logs st → log_key tid pick row →
  upload_file guess_type row tid pick now f st = Some st' →
  docs_backed st → docs_backed st'.
Proof.
  intros Hrow [Ht Hd]. destruct f as [fname content]. rewrite upload_file_run.
  set (key := storage_key tid pick fname). intros [= <-] Hb.
  assert (∀ d, d ∈ docs st ∨ d = mkDoc (d_id d) (l_id row) fname key (uploaded_at d) →
               is_Some (<[key := mkBlob content (ctype_of guess_type fname)]> (bucket st) !! path d)
               ∧ ∃ lg, lg ∈ logs st ∧ l_id lg = log_id d
                       ∧ path d = storage_key (task_id lg) (log_date lg) (filename d)) as Hall.
  { intros d [Hin| ->].
    - destruct (Hb d Hin) as [Hsome Hown]. split; [|done].
      rewrite lookup_insert_is_Some. destruct (decide (key = path d)); tauto.
    - cbn. split; [rewrite lookup_insert_eq; eauto|].
      exists row. by rewrite Ht, Hd. }
  intros d Hin. cbn [docs docs_upsert set_bucket bucket logs] in *.
  apply Hall. unfold upsert in Hin. case_decide.
  - apply elem_of_update_where in Hin as (r & Hr & ->). case_decide; [|by left].
    by right.
  - apply elem_of_app in Hin as [Hin|Hin]; [by left|].
    apply list_elem_of_singleton in Hin as ->. by right.
Qed.

Lemma upload_files_backed row tid pick now files n st :
  row ∈ logs st → log_key tid pick row →
  docs_backed st → docs_backed (upload_files guess_type row tid pick now files n st).2.
Proof.
  revert n st. induction files as [|f files IH]; intros n st Hrow Hk Hb; cbn; [done|].
  destruct (upload_file guess_type row tid pick now f st) as [st'|] eqn:E; [|done].
  apply IH; [|done|by apply (upload_file_backed row tid pick now f st)].
  apply upload_file_logs in E as [-> _]. done.
Qed.

Lemma daily_update_backed task today now g st :
  task ∈ tasks st → dates_valid st → docs_backed st →
  docs_backed (daily_update guess_type task today now g st).2
  ∧ dates_valid (daily_update guess_type task today now g st).2.
Proof.
  intros Htask Hv Hb. unfold daily_update.
  destruct (date_input _ _ _ _) as [pick|] eqn:Hpick; [|done].
  assert (start_date task ≤ pick ≤ end_date task) as Hwin.
  { unfold date_input in Hpick. repeat case_match; simplify_eq; lia. }
  assert (valid_date pick) as Hvp.
  { destruct Hv as [Ht _]. rewrite Forall_forall in Ht. apply Ht in Htask.
    unfold valid_date in *. lia. }
  assert (docs_backed (ensure_row (t_id task) pick st)) as Hb1
    by (by apply logs_upsert_backed).
  assert (dates_valid (ensure_row (t_id task) pick st)) as Hv1
    by (by apply logs_upsert_valid).
  destruct (load_row _ _ _) as [row|] eqn:Hrow; [|done].
  apply load_row_elem in Hrow as [Hin Hk].
  destruct (slider _ _ _ _ _) as [pct|]; [|done].
  destruct (g_button g).
  - destruct (g_files g) as [|f files]; [done|].
    pose proof (upload_files_backed row (t_id task) pick now (f :: files) 0 _ Hin Hk Hb1) as Hup.
    destruct (upload_files_logs guess_type row (t_id task) pick now (f :: files) 0
                (ensure_row (t_id task) pick st)) as [Hl Ht].
    destruct (upload_files _ _ _ _ _ _ _ _) as [[n|] st2]; cbn [snd] in *.
    all: split; [done|]; destruct Hv1; split; by rewrite ?Hl, ?Ht.
  - split; [by apply save_progress_backed|by apply save_progress_valid].
  - split; [by apply save_progress_backed|by apply save_progress_valid].
Qed.

Lemma run_backed a now st :
  valid_action a → store_ok st → dates_valid st → docs_backed st →
  docs_backed (run guess_type a now st) ∧ dates_valid (run guess_type a now st).
Proof.
  intros Ha Hok Hv Hb. destruct a as [tname sdate edate|tid new_name|tid today g|d]; cbn.
  - destruct Ha. split; [by apply create_task_backed|by apply create_task_valid].
  - destruct (open_task tid st); [|done].
    split; [by apply rename_backed|by apply rename_valid].
  - destruct (open_task tid st) as [task|] eqn:E; [|done].
    apply open_task_elem in E as [Hin _]. by apply daily_update_backed.
  - case_decide; [|done]. split; [by apply delete_doc_backed|done].
Qed.

Lemma run_all_backed acts st :
  Forall (λ a, valid_action a.1) acts → store_ok st → dates_valid st → docs_backed st →
  docs_backed (run_all guess_type acts st) ∧ dates_valid (run_all guess_type acts st).
Proof.
  revert st. induction acts as [|[a now] acts IH]; intros st Ha Hok Hv Hb; [done|].
  apply Forall_cons in Ha as [Ha Hacts]. cbn.
  destruct (run_backed a now st Ha Hok Hv Hb) as [Hb' Hv'].
  apply IH; [done|by apply run_ok|done..].
Qed.

Lemma reachable_backed acts :
  Forall (λ a, valid_action a.1) acts →
  docs_backed (run_all guess_type acts empty_store)
  ∧ dates_valid (run_all guess_type acts empty_store).
Proof.
  intros Ha. apply run_all_backed; [done|..].
  - unfold store_ok. cbn. split_and!; constructor.
  - split; constructor.
  - intros x Hx. cbn in Hx. by apply elem_of_nil in Hx.
Qed.

(** X20. As long as only the page writes to the project, every document
    that the Documents tab lists has its object in the bucket: the tab
    shows a download button with the stored bytes for each of them and
    never falls back to the public link. *)
Theorem reachable_docs_downloadable (get_public_url : string → string)
    (acts : list (action * Z)) :
  Forall (λ a, valid_action a.1) acts →
  let st := run_all guess_type acts empty_store in
  ∀ d, d ∈ docs st →
    ∃ b, bucket st !! path d = Some b
         ∧ show_doc get_public_url st d
           = DownloadButton ("Download " +:+ filename d) (data b) (filename d).
Proof.
  intros Ha st d Hd.
  destruct (reachable_backed acts Ha) as [Hb _]. fold st in Hb.
  destruct (Hb d Hd) as [[b Hsome] _]. exists b. split; [done|].
  unfold show_doc, storage_download. by rewrite Hsome.
Qed.

End BackedFacts.

(** ** What the page keeps *)

Lemma rows_kept_refl st : rows_kept st st.
Proof. by split. Qed.

Lemma rows_kept_trans st1 st2 st3 : rows_kept st1 st2 → rows_kept st2 st3 → rows_kept st1 st3.
Proof. intros [H1 H2] [H3 H4]. split; by etrans. Qed.

Lemma rows_kept_eq st st' :
  task_window <$> tasks st' = task_window <$> tasks st →
  log_ident <$> logs st' = log_ident <$> logs st → rows_kept st st'.
Proof. intros Ht Hl. split; by rewrite ?Ht, ?Hl. Qed.

Lemma logs_upsert_kept p st : rows_kept st (logs_upsert p st).
Proof.
  split; [done|].
  destruct (decide (Exists (log_key (p_task_id p) (p_log_date p)) (logs st))) as [Hex|Hno].
  - apply Exists_exists in Hex as (r & Hr & Hk).
    rewrite (logs_upsert_present p st r) by done.
    rewrite update_where_fmap; [done|]. intros x [Ht Hd]. unfold log_ident. cbn.
    by rewrite Ht, Hd.
  - rewrite logs_upsert_absent.
    + rewrite fmap_app. by apply prefix_app_r.
    + intros r Hr Hk. apply Hno, Exists_exists. eauto.
Qed.

Lemma create_task_kept tname sdate edate now st :
  rows_kept st (create_task tname sdate edate now st).2.
Proof.
  unfold create_task. case_decide; [apply rows_kept_refl|].
  destruct (edate <? sdate); [apply rows_kept_refl|]. cbn [snd tasks_insert].
  unfold create_daily_rows. generalize (rrule_daily sdate edate). intros ds.
  eapply rows_kept_trans; [|].
  { instantiate (1 := (tasks_insert (strip tname) sdate edate now st).2).
    split; cbn; [|done]. rewrite fmap_app. by apply prefix_app_r. }
  cbn [tasks_insert snd fst t_id].
  generalize (mkStore (tasks st ++ [mkTask (tasks_seq st) (strip tname) sdate edate now])
                (logs st) (docs st) (bucket st) (tasks_seq st + 1) (logs_seq st) (docs_seq st)).
  intros s. revert s. induction ds as [|d ds IH]; intros s; [apply rows_kept_refl|].
  cbn [foldl]. eapply rows_kept_trans; [apply (logs_upsert_kept (daily_row (tasks_seq st) d))|].
  apply IH.
Qed.

Lemma rename_kept tid new_name st : rows_kept st (rename tid new_name st).2.
Proof.
  unfold rename. case_decide; [apply rows_kept_refl|].
  apply rows_kept_eq; [|done]. cbn. by apply update_where_fmap.
Qed.

Lemma save_progress_kept row tid notes pct now st :
  rows_kept st (save_progress row tid notes pct now st).
Proof. apply rows_kept_eq; cbn; by apply update_where_fmap. Qed.

Section KeptFacts.
Variable guess_type : string → option string.

Lemma daily_update_kept task today now g st :
  rows_kept st (daily_update guess_type task today now g st).2.
Proof.
  unfold daily_update.
  destruct (date_input _ _ _ _) as [pick|]; [|apply rows_kept_refl].
  pose proof (logs_upsert_kept (mkLogPayload (t_id task) pick None None) st) as H1.
  fold (ensure_row (t_id task) pick st) in H1.
  destruct (load_row _ _ _) as [row|]; [|done].
  destruct (slider _ _ _ _ _) as [pct|]; [|done].
  destruct (g_button g).
  - destruct (g_files g) as [|f files]; [done|].
    destruct (upload_files_logs guess_type row (t_id task) pick now (f :: files) 0
                (ensure_row (t_id task) pick st)) as [Hl Ht].
    destruct (upload_files _ _ _ _ _ _ _ _) as [[n|] st2]; cbn [snd] in *.
    all: eapply rows_kept_trans; [exact H1|]; apply rows_kept_eq; by rewrite ?Hl, ?Ht.
  - eapply rows_kept_trans; [exact H1|]. apply save_progress_kept.
  - eapply rows_kept_trans; [exact H1|]. apply save_progress_kept.
Qed.

Lemma run_kept a now st : rows_kept st (run guess_type a now st).
Proof.
  destruct a as [tname sdate edate|tid new_name|tid today g|d]; cbn.
  - apply create_task_kept.
  - destruct (open_task tid st); [|apply rows_kept_refl]. apply rename_kept.
  - destruct (open_task tid st); [|apply rows_kept_refl]. apply daily_update_kept.
  - case_decide; [|apply rows_kept_refl]. by apply rows_kept_eq.
Qed.

(** X21. The page never deletes a task or a log and never rewrites the
    identifier or the window of a task, nor the identifier, the task or
    the date of a log: after any history the old rows are still there, in
    their places, and new ones come after them.  In particular no action
    of the page edits the date range of a task. *)
Theorem page_keeps_tasks_and_logs (acts : list (action * Z)) (st : Store) :
  task_window <$> tasks st `prefix_of` task_window <$> tasks (run_all guess_type acts st)
  ∧ log_ident <$> logs st `prefix_of` log_ident <$> logs (run_all guess_type acts st).
Proof.
  change (rows_kept st (run_all guess_type acts st)).
  revert st. induction acts as [|[a now] acts IH]; intros st; [apply rows_kept_refl|].
  cbn. eapply rows_kept_trans; [apply run_kept|apply IH].
Qed.

End KeptFacts.

(** ** The select box *)

Lemma task_label_inj t1 t2 :
  task_label t1 = task_label t2 → t_id t1 = t_id t2 ∧ task_name t1 = task_name t2.
Proof.
  unfold task_label. change ("#" +:+ ?x) with (String "#" x).
  intros Heq. injection Heq as Heq.
  change (" — " +:+ ?x) with (String " " ("— " +:+ x)) in Heq.
  apply app_sep_inj in Heq as [Hid Hrest]; [|apply str_int_lacks; by right..].
  apply (inj pretty) in Hid. split; [done|].
  apply app_length_inj in Hrest as [_ Hn]; done.
Qed.

Lemma options_fold (l : list Task) (m : gmap string Z) (k : string) :
  foldl (λ m t, <[task_label t := t_id t]> m) m l !! k
  = match last (filter (λ t, task_label t = k) l) with
    | Some t => Some (t_id t)
    | None => m !! k
    end.
Proof.
  revert m. induction l as [|t l IH]; intros m; [done|].
  cbn [foldl]. rewrite IH, filter_cons. case_decide as Hk.
  - rewrite last_cons. destruct (last _); [done|]. by rewrite <- Hk, lookup_insert_eq.
  - destruct (last _); [done|]. by rewrite lookup_insert_ne.
Qed.

Lemma open_task_listed st t :
  NoDup (t_id <$> tasks st) → t ∈ tasks st → open_task (t_id t) st = Some t.
Proof.
  intros Hnd Ht.
  assert (list_tasks st ≡ₚ tasks st) as Hperm by apply order_by_perm.
  unfold open_task.
  rewrite (select_where_unique t_id (t_id t) _ _ t); [done|done| |by rewrite Hperm|done].
  by rewrite Hperm.
Qed.

(** X4. The select box offers one label per task and each label opens its
    own task: with identifiers that are unique no two tasks share a
    label, also when they share a name, so the dict of options loses no
    task; a label of no task is not a key of the dict. *)
Theorem selectbox_opens_task (st : Store) :
  NoDup (t_id <$> tasks st) →
  (∀ t, t ∈ tasks st →
     options st !! task_label t = Some (t_id t)
     ∧ open_label (task_label t) st = Some t)
  ∧ (∀ t1 t2, t1 ∈ tasks st → t2 ∈ tasks st → task_label t1 = task_label t2 → t1 = t2)
  ∧ (∀ label, (∀ t, t ∈ tasks st → task_label t ≠ label) → open_label label st = None).
Proof.
  intros Hnd.
  assert (list_tasks st ≡ₚ tasks st) as Hperm by apply order_by_perm.
  assert (∀ t1 t2, t1 ∈ tasks st → t2 ∈ tasks st → task_label t1 = task_label t2 → t1 = t2)
    as Hinj.
  { intros t1 t2 H1 H2 Hl. apply task_label_inj in Hl as [Hid _].
    by apply (NoDup_fmap_eq t_id (tasks st)). }
  assert (∀ t, t ∈ tasks st → options st !! task_label t = Some (t_id t)) as Hopt.
  { intros t Ht. unfold options. rewrite options_fold.
    destruct (last _) as [t'|] eqn:E.
    - apply last_Some_elem_of, list_elem_of_filter in E as [Hl Ht'].
      rewrite Hperm in Ht'. by rewrite (Hinj t' t Ht' Ht Hl).
    - apply last_None in E.
      assert (t ∈ filter (λ t', task_label t' = task_label t) (list_tasks st)) as Hin
        by (apply list_elem_of_filter; by rewrite Hperm).
      rewrite E in Hin. by apply elem_of_nil in Hin. }
  split_and!; [|done|].
  - intros t Ht. split; [by apply Hopt|].
    unfold open_label. rewrite (Hopt t Ht). cbn. by apply open_task_listed.
  - intros label Hno. unfold open_label, options. rewrite options_fold.
    destruct (last _) as [t'|] eqn:E; [|done].
    apply last_Some_elem_of, list_elem_of_filter in E as [Hl Ht'].
    rewrite Hperm in Ht'. by destruct (Hno t' Ht').
Qed.

(** ** The list of tasks *)

Lemma round_div_range s n c :
  0 < n → 0 ≤ s ≤ c * n → 0 ≤ round_div s n ≤ c.
Proof.
  intros Hn Hs. pose proof (round_div_nearest s n Hn) as Hr. nia.
Qed.

Lemma round_div_exact c n : 0 < n → round_div (c * n) n = c.
Proof.
  intros Hn. rewrite (round_div_cases (c * n) n c 0) by lia.
  by rewrite (proj2 (Z.ltb_lt _ _)) by lia.
Qed.

Lemma sum_constant (ps : list Z) (c : Z) :
  (∀ p, p ∈ ps → p = c) → sum ps = c * Z.of_nat (length ps).
Proof.
  induction ps as [|p ps IH]; intros Hc; cbn [sum foldr length]; [lia|].
  fold (sum ps). rewrite IH by (intros q Hq; apply Hc; by right).
  rewrite (Hc p) by (by left). lia.
Qed.

Section SummaryFacts.
Variable guess_type : string → option string.

(** X3. On every store the page can reach, the row of a task in the list
    has at least one day, as many logs behind its Done% as days, and a
    Done% that is the rounded mean of their percents, between 0 and 100:
    the division is never by zero, and the double it goes through is
    exact enough.  A task whose days all stand at one percent shows that
    percent. *)
Theorem list_tasks_summary (acts : list (action * Z)) (t : Task) :
  Forall (λ a, valid_action a.1) acts →
  let st := run_all guess_type acts empty_store in
  let ps := percent <$> select_where (λ r, task_id r = t_id t) (logs st) in
  t ∈ list_tasks st →
  1 ≤ Days t
  ∧ Z.of_nat (length ps) = Days t
  ∧ task_done_pct st t = round_div (sum ps) (Days t)
  ∧ 0 ≤ task_done_pct st t ≤ 100
  ∧ (∀ c, (∀ p, p ∈ ps → p = c) → task_done_pct st t = c).
Proof.
  intros Ha st ps Ht.
  assert (t ∈ tasks st) as Hin.
  { unfold list_tasks, order_by_desc in Ht. by rewrite order_by_perm in Ht. }
  destruct (reachable_covered guess_type acts t Hin) as [Hle _].
  pose proof (reachable_days guess_type acts t Hin) as Hdays. cbv zeta in Hdays.
  fold st in Hdays.
  pose proof (reachable_percents guess_type acts (t_id t)) as Hsum. cbv zeta in Hsum.
  fold st in Hsum. fold ps in Hsum.
  destruct (reachable_backed guess_type acts Ha) as [_ [Hv _]]. fold st in Hv.
  rewrite Forall_forall in Hv. destruct (Hv t Hin) as [Hs He].
  assert (Z.of_nat (length ps) = Days t) as Hlen
    by (subst ps; by rewrite length_fmap, Hdays).
  assert (1 ≤ Days t) as Hpos by (unfold Days; lia).
  assert (task_done_pct st t = round_div (sum ps) (Days t)) as Hdone.
  { unfold task_done_pct. fold ps. unfold done_pct.
    destruct ps as [|p ps'] eqn:E; [cbn in Hlen; lia|]. rewrite <- E in *.
    rewrite Hlen. apply py_round_true_div; [lia|].
    unfold valid_date, Days in *. rewrite Hlen in Hsum.
    change (2 ^ 52) with 4503599627370496. lia. }
  split_and!; [done..| | |].
  - rewrite Hdone. apply (round_div_range _ _ 100); lia.
  - rewrite Hdone. apply (round_div_range _ _ 100); lia.
  - intros c Hc. rewrite Hdone, (sum_constant ps c Hc), Hlen. apply round_div_exact. lia.
Qed.

End SummaryFacts.

(** ** Widget keys of the Documents tab *)

Lemma task_logs_perm tid st :
  task_logs tid st ≡ₚ select_where (λ r, task_id r = tid) (logs st).
Proof. apply order_by_perm. Qed.

Lemma log_docs_perm lid st :
  log_docs lid st ≡ₚ select_where (λ d, log_id d = lid) (docs st).
Proof. apply order_by_perm. Qed.

Lemma elem_of_log_docs lid st d : d ∈ log_docs lid st ↔ log_id d = lid ∧ d ∈ docs st.
Proof. rewrite log_docs_perm. apply (elem_of_select_where (λ d, log_id d = lid)). Qed.

Lemma elem_of_task_logs tid st r : r ∈ task_logs tid st ↔ task_id r = tid ∧ r ∈ logs st.
Proof. rewrite task_logs_perm. apply (elem_of_select_where (λ r, task_id r = tid)). Qed.

Lemma shown_docs_NoDup tid st :
  NoDup (l_id <$> logs st) → NoDup (d_id <$> docs st) → NoDup (shown_docs tid st).
Proof.
  intros Hl Hd. unfold shown_docs. apply NoDup_bind.
  - intros lg1 lg2 d H1 H2 Hd1 Hd2.
    apply elem_of_task_logs in H1 as [_ H1]. apply elem_of_task_logs in H2 as [_ H2].
    apply elem_of_log_docs in Hd1 as [E1 _]. apply elem_of_log_docs in Hd2 as [E2 _].
    apply (NoDup_fmap_eq l_id (logs st)); [done..|]. congruence.
  - intros lg _. rewrite log_docs_perm. apply NoDup_filter. by apply NoDup_fmap_1 in Hd.
  - rewrite task_logs_perm. apply NoDup_filter. by apply NoDup_fmap_1 in Hl.
Qed.

Lemma elem_of_shown_docs tid st d :
  d ∈ shown_docs tid st → d ∈ docs st.
Proof.
  unfold shown_docs. rewrite list_elem_of_bind. intros (lg & Hd & _).
  by apply elem_of_log_docs in Hd as [_ Hd].
Qed.

Section KeyFacts.
Variable get_public_url : string → string.

Lemma documents_tab_shown tid st :
  concat (snd <$> documents_tab get_public_url tid st)
  = show_doc get_public_url st <$> shown_docs tid st.
Proof.
  unfold documents_tab, shown_docs. induction (task_logs tid st) as [|lg l IH]; [done|].
  change (omap ?f (lg :: l))
    with (match f lg with Some e => e :: omap f l | None => omap f l end).
  change ((lg :: l) ≫= ?f) with (f lg ++ (l ≫= f)). cbv beta.
  rewrite fmap_app, <- IH.
  destruct (log_docs (l_id lg) st) as [|d ds] eqn:E; [done|].
  by rewrite fmap_cons.
Qed.

(** X17. With identifiers that are unique, no two widgets of the Documents
    tab share a key: every document is listed once, under the log it
    belongs to, and the keys of its two buttons are built from its
    identifier, so no run of the tab stops on a duplicate key.  The
    buttons are those of the blocks of the tab, in their order. *)
Theorem documents_keys_distinct (tid : Z) (st : Store) :
  NoDup (l_id <$> logs st) → NoDup (d_id <$> docs st) →
  NoDup (documents_keys tid st)
  ∧ NoDup (d_id <$> shown_docs tid st)
  ∧ concat (snd <$> documents_tab get_public_url tid st)
    = show_doc get_public_url st <$> shown_docs tid st.
Proof.
  intros Hl Hd. pose proof (shown_docs_NoDup tid st Hl Hd) as Hnd.
  split_and!; [| |apply documents_tab_shown].
  - unfold documents_keys. apply NoDup_bind; [|intros d _|done].
    + intros d1 d2 k H1 H2 Hk1 Hk2.
      apply (NoDup_fmap_eq d_id (docs st)); [done|by apply (elem_of_shown_docs tid)..|].
      unfold download_key, delete_key in Hk1, Hk2.
      change ("dl_" +:+ ?x) with (String "d" (String "l" (String "_" x))) in Hk1, Hk2.
      change ("del_" +:+ ?x) with (String "d" (String "e" (String "l" (String "_" x))))
        in Hk1, Hk2.
      rewrite !elem_of_cons, elem_of_nil in Hk1, Hk2.
      destruct Hk1 as [->|[->|[]]], Hk2 as [Hk|[Hk|[]]]; by simplify_eq.
    + unfold download_key, delete_key. apply NoDup_cons. split; [|apply NoDup_singleton].
      rewrite list_elem_of_singleton.
      change ("dl_" +:+ ?x) with (String "d" (String "l" (String "_" x))).
      change ("del_" +:+ ?x) with (String "d" (String "e" (String "l" (String "_" x)))).
      intros Hk. by simplify_eq.
  - apply NoDup_fmap_2_strong; [|done]. intros d1 d2 H1 H2 Hid.
    apply (NoDup_fmap_eq d_id (docs st)); [done|by apply (elem_of_shown_docs tid)..|done].
Qed.

End KeyFacts.

(** * The worked scenario *)

Example demo_store_ok : store_ok demo_attached.
Proof. by_compute. Qed.

Example demo_progress_logs :
  logs demo_progress
  = [mkLog 1 1 (jan 1) "" 0; mkLog 2 1 (jan 2) "" 0; demo_row;
     mkLog 4 1 (jan 4) "" 0; mkLog 5 1 (jan 5) "" 0].
Proof. vm_compute. reflexivity. Qed.

(** Shrinking [D1..D5] to [D2..D4] keeps the 50% of D3 and drops D1 and D5. *)
Example demo_shrunk_logs :
  logs demo_shrunk = [mkLog 2 1 (jan 2) "" 0; demo_row; mkLog 4 1 (jan 4) "" 0].
Proof. vm_compute. reflexivity. Qed.

(** Growing back to [D1..D5] keeps the three rows and adds D1 and D5 with
    percent 0 and empty notes. *)
Example demo_grown_logs :
  logs demo_grown
  = [mkLog 2 1 (jan 2) "" 0; demo_row; mkLog 4 1 (jan 4) "" 0;
     mkLog 7 1 (jan 1) "" 0; mkLog 8 1 (jan 5) "" 0].
Proof. vm_compute. reflexivity. Qed.

Example demo_attached_docs :
  docs demo_attached = [demo_doc]
  ∧ data <$> bucket demo_attached !! path demo_doc = Some [Byte.x68; Byte.x69].
Proof. split; vm_compute; reflexivity. Qed.

Example isoformat_samples :
  isoformat (jan 3) = "2024-01-03"
  ∧ isoformat (jan 60) = "2024-02-29"
  ∧ isoformat 730179 = "2000-02-29"
  ∧ isoformat 693960 = "1900-12-31"
  ∧ storage_key 1 (jan 3) "notes.txt" = "task_1/2024-01-03/notes.txt".
Proof. split_and!; vm_compute; reflexivity. Qed.

(** One third as a double, and a quotient just under one and a half with
    a sum above 2^52: the double is one and a half, and rounds to 2. *)
Example true_div_samples :
  true_div 1 3 = mkDouble 6004799503160661 54
  ∧ py_round (true_div 150 3) = 50
  ∧ py_round (true_div (3 * 2 ^ 51 + 1) (2 ^ 52 + 1)) = 2
  ∧ round_div (3 * 2 ^ 51 + 1) (2 ^ 52 + 1) = 1.
Proof. split_and!; vm_compute; reflexivity. Qed.

(** Ties of the mean go to the even neighbour: 2.5 gives 2 and 7.5 gives 8. *)
Example done_pct_ties : done_pct [0; 5] = 2 ∧ done_pct [5; 10] = 8.
Proof. split; reflexivity. Qed.

Example demo_history_store : run_all no_guess demo_history empty_store = demo_attached.
Proof. vm_compute. reflexivity. Qed.

(** Names with characters beyond ASCII: an ideographic space alone is
    blank, a no-break space is trimmed, and a final accented letter is
    kept whole. *)
Example strip_samples :
  strip " Review " = "Review"
  ∧ strip (utf8 12288) = ""
  ∧ chars ("Voil" +:+ utf8 224) = ["V"; "o"; "i"; "l"; utf8 224]
  ∧ strip (utf8 160 +:+ "Voil" +:+ utf8 224 +:+ utf8 12288 +:+ " ") = "Voil" +:+ utf8 224
  ∧ create_task (utf8 12288) (jan 1) (jan 2) 5 empty_store = (NameRequired, empty_store)
  ∧ task_name <$> tasks (create_task ("Voil" +:+ utf8 224) (jan 1) (jan 2) 5 empty_store).2
    = ["Voil" +:+ utf8 224]
  ∧ rename 1 (utf8 12288) demo_store = (NameEmpty, demo_store).
Proof. split_and!; vm_compute; reflexivity. Qed.

Example fromisoformat_samples :
  fromisoformat "2024-01-03" = Some (jan 3)
  ∧ fromisoformat "2024-02-30" = None
  ∧ fromisoformat "2023-02-29" = None
  ∧ fromisoformat "2024-1-03" = None
  ∧ fromisoformat "0000-01-01" = None
  ∧ fromisoformat "9999-12-31" = Some 3652059
  ∧ ymd2ord 1 1 1 = 1.
Proof. split_and!; vm_compute; reflexivity. Qed.

(** ** Instances of the theorems *)

Lemma create_task_daily_rows_demo :
  log_date <$> select_where (λ r, task_id r = tasks_seq demo_progress)
                 (logs (create_task " Review " (jan 10) (jan 12) 40 demo_progress).2)
  = rrule_daily (jan 10) (jan 12).
Proof.
  pose proof (create_task_daily_rows " Review " (jan 10) (jan 12) 40 demo_progress
                ltac:(by_compute) ltac:(by_compute) ltac:(by_compute)) as H.
  cbv zeta in H. exact (proj1 (proj2 (proj2 H))).
Defined.

Lemma update_range_shrink_demo :
  demo_row ∈ logs demo_shrunk
  ∧ (mkLog 1 1 (jan 1) "" 0 ∉ logs demo_shrunk)
  ∧ (mkLog 5 1 (jan 5) "" 0 ∉ logs demo_shrunk).
Proof.
  pose proof (update_range_preserves_logs 1 (jan 2) (jan 4) demo_progress
                ltac:(by_compute) ltac:(by_compute)) as H.
  cbv zeta in H. destruct H as (_ & Hkeep & Hdrop & _).
  split; [|split].
  - apply Hkeep; by_compute.
  - apply Hdrop; by_compute.
  - apply Hdrop; by_compute.
Defined.

Lemma record_progress_notes_only_demo :
  ∃ notes pct,
    load_row 1 (jan 3)
      (daily_update no_guess demo_task (jan 3) 50
         (mkGestures (Some (jan 3)) (Some "outline done") None SaveProgress [])
         demo_progress).2
    = Some (mkLog 3 1 (jan 3) notes pct)
    ∧ pct = 50.
Proof.
  pose proof (record_progress_keeps_fields no_guess demo_task (jan 3) 50
                (mkGestures (Some (jan 3)) (Some "outline done") None SaveProgress [])
                demo_progress demo_row
                ltac:(by_compute) ltac:(by_compute) ltac:(reflexivity)
                ltac:(by_compute) ltac:(by_compute) ltac:(reflexivity)
                ltac:(reflexivity)) as H.
  cbv zeta in H. destruct H as (notes & pct & _ & Hrow & _ & _ & Hpct & _).
  exists notes, pct. split; [exact Hrow|]. apply Hpct. reflexivity.
Defined.

Lemma compute_summary_demo :
  task_done_pct demo_progress demo_task = 10 ∧ Days demo_task = 5.
Proof.
  pose proof (compute_summary demo_progress demo_task ltac:(by_compute)) as H.
  cbv zeta in H. destruct H as (Hdays & _ & Hdone & _).
  split; [|exact Hdays].
  exact (eq_trans (proj1 (Hdone ltac:(by_compute))) eq_refl).
Defined.


Lemma daily_view_ensures_row_demo :
  ∃ pick row,
    select_where (log_key 1 pick)
      (logs (daily_update no_guess demo_task (jan 4) 50
               (mkGestures None None None NoButton []) demo_progress).2)
    = [row].
Proof.
  pose proof (daily_view_ensures_row no_guess demo_task (jan 4) 50
                (mkGestures None None None NoButton []) demo_progress
                ltac:(by_compute) ltac:(by_compute) ltac:(reflexivity)
                ltac:(reflexivity)) as H.
  cbv zeta in H. destruct H as (pick & _ & _ & _ & _ & [row Hrow] & _).
  exists pick, row. exact Hrow.
Defined.

Lemma attach_same_file_demo :
  ∃ st' d,
    attach_all no_guess demo_row 1 (jan 3) "notes.txt"
      [([Byte.x68], 60); ([Byte.x69], 70); ([Byte.x6a], 80)] demo_attached
    = Some st'
    ∧ select_where (doc_key 3 (storage_key 1 (jan 3) "notes.txt")) (docs st') = [d]
    ∧ data <$> bucket st' !! storage_key 1 (jan 3) "notes.txt" = Some [Byte.x6a].
Proof.
  pose proof (attach_same_file_one_row no_guess demo_row 1 (jan 3) "notes.txt"
                [Byte.x68] 60 [([Byte.x69], 70); ([Byte.x6a], 80)] demo_attached
                ltac:(by_compute)) as H.
  cbv zeta in H. destruct H as (_ & st' & d & Hrun & Hsel & _ & Hblob & _).
  exists st', d. split; [exact Hrun|]. split; [exact Hsel|exact Hblob].
Defined.

Lemma valid_action_demo : Forall (λ a : action * Z, valid_action a.1) demo_history.
Proof. repeat constructor; unfold valid_date, jan; lia. Defined.

Lemma overview_lists_window_demo :
  log_date <$> task_logs 1 (run_all no_guess demo_history empty_store)
  = rrule_daily (jan 1) (jan 5).
Proof.
  pose proof (overview_lists_window no_guess demo_history demo_saved_task
                ltac:(by_compute)) as H.
  exact (proj1 H).
Defined.

Lemma open_task_finds_demo : open_task 1 demo_attached = Some demo_saved_task.
Proof.
  pose proof (open_task_finds demo_attached ltac:(by_compute)) as H.
  exact (proj1 H demo_saved_task ltac:(by_compute)).
Defined.

Lemma mark_done_sets_100_demo :
  load_row 1 (jan 3)
    (daily_update no_guess demo_saved_task (jan 3) 60
       (mkGestures (Some (jan 3)) None (Some 70) MarkDone []) demo_attached).2
  = Some (mkLog 3 1 (jan 3) "half way" 100).
Proof.
  pose proof (mark_done_sets_100 no_guess demo_saved_task (jan 3) 60
                (mkGestures (Some (jan 3)) None (Some 70) MarkDone [])
                demo_attached demo_row
                ltac:(by_compute) ltac:(by_compute) ltac:(reflexivity)
                ltac:(by_compute) ltac:(by_compute) ltac:(reflexivity)
                ltac:(reflexivity)) as H.
  exact (proj1 (proj2 H)).
Defined.

Lemma saved_progress_is_shown_demo :
  ∃ pct,
    (daily_update no_guess demo_saved_task (jan 4) 50
       (mkGestures (Some (jan 2)) None None NoButton [])
       (daily_update no_guess demo_task (jan 2) 40
          (mkGestures (Some (jan 2)) (Some "outline") (Some 37) SaveProgress [])
          demo_store).2).1
    = Shown (mkLog 2 1 (jan 2) "outline" pct).
Proof.
  pose proof (saved_progress_is_shown no_guess demo_task demo_saved_task (jan 2) 40 (jan 4) 50
                (mkGestures (Some (jan 2)) (Some "outline") (Some 37) SaveProgress [])
                demo_store (mkLog 2 1 (jan 2) "" 0)
                ltac:(by_compute) ltac:(by_compute) ltac:(reflexivity)
                ltac:(by_compute) ltac:(by_compute) ltac:(reflexivity)
                ltac:(reflexivity) ltac:(reflexivity) ltac:(reflexivity)
                ltac:(reflexivity)) as H.
  destruct H as (pct & _ & Hshown & _). exists pct. exact Hshown.
Defined.

Lemma view_changes_no_row_demo :
  logs (run no_guess (DailyUpdate 1 (jan 9) (mkGestures None None None NoButton [])) 40
          (run_all no_guess demo_history empty_store))
  = logs (run_all no_guess demo_history empty_store).
Proof.
  pose proof (view_changes_no_row no_guess demo_history 1 (jan 9) 40
                (mkGestures None None None NoButton [])
                ltac:(reflexivity) ltac:(reflexivity)) as H.
  exact (proj1 (proj2 H)).
Defined.

Lemma upload_batch_rows_demo :
  (upload_files no_guess demo_row 1 (jan 3) 70
     [("a.txt", [Byte.x61]); ("b.txt", [Byte.x62]); ("a.txt", [Byte.x63])] 0
     demo_attached).1
  = Some 3.
Proof.
  pose proof (upload_batch_rows no_guess demo_row 1 (jan 3) 70
                [("a.txt", [Byte.x61]); ("b.txt", [Byte.x62]); ("a.txt", [Byte.x63])]
                demo_attached ltac:(by_compute)) as H.
  exact (proj1 H).
Defined.

Lemma upload_then_download_demo :
  ∃ d,
    show_doc bucket_url
      (upload_files no_guess demo_row 1 (jan 3) 70
         [("a.txt", [Byte.x61]); ("b.txt", [Byte.x62]); ("a.txt", [Byte.x63])] 0
         demo_attached).2 d
    = DownloadButton "Download a.txt" [Byte.x63] "a.txt".
Proof.
  pose proof (upload_then_download no_guess bucket_url demo_row 1 (jan 3) 70
                [("a.txt", [Byte.x61]); ("b.txt", [Byte.x62]); ("a.txt", [Byte.x63])]
                demo_attached ltac:(by_compute)) as H.
  destruct (proj1 H "a.txt" [Byte.x63] eq_refl) as (d & _ & _ & Hshow).
  exists d. exact Hshow.
Defined.

Lemma delete_doc_removes_one_demo : docs (delete_doc demo_doc demo_attached) = [].
Proof.
  pose proof (delete_doc_removes_one demo_doc demo_attached
                ltac:(by_compute) ltac:(by_compute)) as H.
  destruct H as (Hperm & _).
  apply Permutation_length in Hperm.
  destruct (docs (delete_doc demo_doc demo_attached)); [reflexivity|discriminate].
Defined.

Lemma upload_then_delete_demo :
  ∃ st1 d,
    upload_file no_guess demo_row 1 (jan 3) 70 ("plan.txt", [Byte.x70]) demo_attached
    = Some st1
    ∧ docs (delete_doc d st1) = docs demo_attached
    ∧ bucket (delete_doc d st1) = bucket demo_attached.
Proof.
  pose proof (upload_then_delete no_guess demo_row 1 (jan 3) 70 "plan.txt" [Byte.x70]
                demo_attached ltac:(by_compute) ltac:(vm_compute; reflexivity)
                ltac:(vm_compute; reflexivity)) as H.
  destruct H as (st1 & d & Hup & _ & Hdocs & Hbk & _).
  exists st1, d. split; [exact Hup|]. split; [exact Hdocs|exact Hbk].
Defined.

Lemma fromisoformat_isoformat_demo : fromisoformat (isoformat (jan 3)) = Some (jan 3).
Proof.
  exact (proj1 (fromisoformat_isoformat (jan 3) ltac:(unfold valid_date, jan; lia))).
Defined.

Lemma storage_key_collision_demo :
  storage_key 1 (jan 3) "notes.txt" ≠ storage_key 12 (jan 3) "notes.txt".
Proof.
  intros Heq.
  pose proof (proj1 (storage_key_collision 1 12 (jan 3) (jan 3) "notes.txt" "notes.txt"
                       ltac:(unfold valid_date, jan; lia)
                       ltac:(unfold valid_date, jan; lia)) Heq) as H.
  destruct H as [H _]. discriminate H.
Defined.

Lemma reachable_docs_downloadable_demo :
  ∃ b, bucket (run_all no_guess demo_history empty_store) !! path demo_doc = Some b
       ∧ show_doc bucket_url (run_all no_guess demo_history empty_store) demo_doc
         = DownloadButton ("Download " +:+ filename demo_doc) (data b) (filename demo_doc).
Proof.
  exact (reachable_docs_downloadable no_guess bucket_url demo_history valid_action_demo
           demo_doc ltac:(by_compute)).
Defined.

Lemma selectbox_opens_task_demo :
  open_label "#1 — Draft report" demo_attached = Some demo_saved_task.
Proof.
  pose proof (selectbox_opens_task demo_attached ltac:(by_compute)) as H.
  exact (proj2 (proj1 H demo_saved_task ltac:(by_compute))).
Defined.

Lemma list_tasks_summary_demo :
  0 ≤ task_done_pct (run_all no_guess demo_history empty_store) demo_saved_task ≤ 100.
Proof.
  pose proof (list_tasks_summary no_guess demo_history demo_saved_task valid_action_demo
                ltac:(by_compute)) as H.
  exact (proj1 (proj2 (proj2 (proj2 H)))).
Defined.

Lemma documents_keys_distinct_demo : NoDup (documents_keys 1 demo_attached).
Proof.
  pose proof (documents_keys_distinct bucket_url 1 demo_attached
                ltac:(by_compute) ltac:(by_compute)) as H.
  exact (proj1 H).
Defined.


(** ** A project that was changed from outside *)

(** A document row whose object is missing from the bucket is shown as a
    link; no failure is raised. *)
Lemma show_doc_missing_blob :
  demo_doc ∈ docs demo_drifted
  ∧ bucket demo_drifted !! path demo_doc = None
  ∧ show_doc bucket_url demo_drifted demo_doc
    = MarkdownLink "notes.txt"
        "https://project.supabase.co/storage/v1/object/public/task-files/task_1/2024-01-03/notes.txt".
Proof. split; [by_compute|]. split; vm_compute; reflexivity. Qed.
